(** * Cyber-News-Agent: a shallow embedding of the collection and
      classification pipeline, with the properties of its specification.

    The development follows the Python sources:
    - [Py]           the fragment of Python's [str] and [list] operations used;
    - [Models]       [models.py] (the [NewsItem] data class);
    - [Summarizer]   [tools/summarizer.py] (the classifier);
    - [NewsAgent]    [news_agent.py] (the aggregator);
    - [Notification] [tools/notification_service.py] (the subscriber set) and
                     the e-mail check of [app.py];
    - [ReportGenerator] [tools/report_generator.py] (the e-mail summary);
    - [SubscriberFile] the file of [tools/notification_service.py];
    - [App]          the unsubscribe handler and the cache of [app.py];
    - [ReportDigest] the daily digest of [tools/report_generator.py];
    - [Delivery]     the notification run of [tools/notification_service.py];
    - [NewsAPI], [RedditAPI], [WebScraper]  the three connectors;
    - [AppPages]     the search and export handlers of [app.py] and the daily job;
    - [Samples]      a few items, tools and environments to run the above on.

    Text is modelled as a sequence of ASCII code points ([string]); Python
    dictionaries and sets are [gmap] and [gset]; an exception is an explicit
    error value. *)

From Stdlib Require Import Ascii String ZArith Lia.
From stdpp Require Import base option list sets gmap strings pretty sorting.

Local Open Scope Z_scope.
Local Open Scope nat_scope.

(* ===================================================================== *)
(** * Python built-ins *)
(* ===================================================================== *)

Module Py.

(** Exceptions that the modelled code can raise. *)
Inductive Exc : Type :=
| KeyError (key : string)
| Exception (msg : string).

(** A computation that returns or raises. *)
Definition Result (A : Type) : Type := Exc + A.

Definition ret {A} (a : A) : Result A := inr a.
Definition raise {A} (e : Exc) : Result A := inl e.
Definition bind {A B} (m : Result A) (f : A → Result B) : Result B :=
  match m with inl e => inl e | inr a => f a end.

(** ** [str] *)

Definition code (c : ascii) : nat := nat_of_ascii c.

Definition isupper (c : ascii) : bool := (65 <=? code c) && (code c <=? 90).

Definition lower_char (c : ascii) : ascii :=
  if isupper c then ascii_of_nat (code c + 32) else c.

(** [s.lower()] *)
Fixpoint lower (s : string) : string :=
  match s with
  | EmptyString => EmptyString
  | String c s' => String (lower_char c) (lower s')
  end.

(** [c.isspace()] on ASCII: TAB, LF, VT, FF, CR, FS, GS, RS, US and space. *)
Definition isspace (c : ascii) : bool :=
  ((9 <=? code c) && (code c <=? 13)) || ((28 <=? code c) && (code c <=? 32)).

Fixpoint lstrip_list (l : list ascii) : list ascii :=
  match l with
  | c :: l' => if isspace c then lstrip_list l' else l
  | [] => []
  end.

(** A list that does not begin with white space. *)
Definition starts_plain (l : list ascii) : Prop :=
  match l with c :: _ => isspace c = false | [] => True end.

Definition strip_list (l : list ascii) : list ascii :=
  rev (lstrip_list (rev (lstrip_list l))).

(** [s.strip()] *)
Definition strip (s : string) : string :=
  string_of_list_ascii (strip_list (list_ascii_of_string s)).

(** [len(s)] *)
Definition len (s : string) : nat := String.length s.

(** [s[:n]] for a literal [n >= 0] *)
Definition str_take (n : nat) (s : string) : string := String.substring 0 n s.

(** [needle] occurs somewhere in [s]. *)
Definition substring_of (needle s : string) : Prop :=
  ∃ before after, s = before +:+ needle +:+ after.

(** [needle in s] *)
Fixpoint contains (needle s : string) : bool :=
  String.prefix needle s ||
  match s with
  | EmptyString => false
  | String _ s' => contains needle s'
  end.

(** [s.split(sep)] for a non-empty separator: scan from the left, cut at
    every occurrence of [sep] and resume after it.  [skip] counts the
    characters of a matched separator still to be passed over, [cur] is the
    current piece, reversed. *)
Fixpoint split_go (sep : string) (skip : nat) (cur : string) (s : string)
  : list string :=
  match s with
  | EmptyString => [String.rev cur]
  | String c s' =>
      match skip with
      | S k => split_go sep k cur s'
      | O =>
          if String.prefix sep s
          then String.rev cur :: split_go sep (String.length sep - 1) EmptyString s'
          else split_go sep 0 (String c cur) s'
      end
  end.

Definition split (sep s : string) : list string := split_go sep 0 EmptyString s.

(** [sep.join(parts)] *)
Fixpoint join (sep : string) (parts : list string) : string :=
  match parts with
  | [] => EmptyString
  | [p] => p
  | p :: rest => p +:+ sep +:+ join sep rest
  end.

(** ** [list] *)

(** [l[:n]] for an arbitrary integer [n]: a negative bound counts from the
    end of the list. *)
Definition slice_to {A} (n : Z) (l : list A) : list A :=
  if (0 <=? n)%Z then take (Z.to_nat n) l
  else take (length l - Z.to_nat (- n)) l.

(** [sum(1 for k in keywords if k in text)] *)
Definition count_present (keywords : list string) (text : string) : nat :=
  length (filter (λ k, contains k text = true) keywords).

End Py.

(* ===================================================================== *)
(** * models.py *)
(* ===================================================================== *)

Module Models.

(** A [datetime]: the wall-clock reading (as a number of microseconds) and
    the optional time zone offset. *)
Record datetime : Type := {
  wall_clock : Z;
  tzinfo : option Z
}.

Record NewsItem : Type := {
  title : string;
  content : string;
  url : string;
  source : string;
  published_at : datetime;
  category : string;
  severity : string;
  tags : list string;
  summary : string
}.

End Models.
Export Models.

(* ===================================================================== *)
(** * tools/summarizer.py *)
(* ===================================================================== *)

Module Summarizer.
Import Py.

(** The four-key dictionary [{'summary', 'category', 'severity', 'tags'}]
    that every analysis path returns. *)
Record Analysis : Type := {
  a_summary : string;
  a_category : string;
  a_severity : string;
  a_tags : list string
}.

(** [self.categories]: a dictionary literal, iterated in insertion order. *)
Definition categories : list (string * list string) :=
  [ ("Latest Attacks", ["ransomware"; "malware"; "attack"; "breach"; "hack"; "incident"]);
    ("Vulnerabilities", ["vulnerability"; "exploit"; "cve"; "zero-day"; "patch"; "flaw"]);
    ("New Tools", ["tool"; "platform"; "software"; "solution"; "framework"; "technology"]);
    ("Threat Intelligence", ["threat"; "intelligence"; "apt"; "campaign"; "actor"; "group"]);
    ("General", ["security"; "cybersecurity"; "infosec"; "policy"; "regulation"; "compliance"]) ].

(** [self.severity_keywords] *)
Definition severity_keywords : list (string * list string) :=
  [ ("High", ["critical"; "severe"; "urgent"; "emergency"; "zero-day"; "ransomware"; "breach"]);
    ("Medium", ["moderate"; "significant"; "important"; "vulnerability"; "exploit"]);
    ("Low", ["minor"; "update"; "patch"; "tool"; "announcement"; "guidance"]) ].

(** [max(d, key=d.get)] over the entries of a dictionary in iteration
    order: the running best is replaced only by a strictly larger score. *)
Fixpoint max_go (best : string * nat) (rest : list (string * nat)) : string * nat :=
  match rest with
  | [] => best
  | e :: rest' => if snd best <? snd e then max_go e rest' else max_go best rest'
  end.

(** The loop filling [category_scores] / [severity_scores]. *)
Definition scores_of (table : list (string * list string)) (content_text : string)
  : list (string * nat) :=
  (λ entry, (fst entry, count_present (snd entry) content_text)) <$> table.

(** Shared body of [_determine_category] and [_determine_severity]; the
    tables are non-empty literals, so [max] has an argument. *)
Definition determine (table : list (string * list string)) (default : string)
    (content_text : string) : string :=
  match scores_of table content_text with
  | [] => default
  | first :: rest =>
      let best := max_go first rest in
      if 0 <? snd best then fst best else default
  end.

Definition _determine_category (content_text : string) : string :=
  determine categories "General" content_text.

Definition _determine_severity (content_text : string) : string :=
  determine severity_keywords "Medium" content_text.

(** The number of occurrences of [needle] in [s]: the positions of [s] at
    which [needle] begins. *)
Fixpoint occurrences (needle s : string) : nat :=
  (if String.prefix needle s then 1 else 0)
  + match s with
    | EmptyString => 0
    | String _ s' => occurrences needle s'
    end.

(** The category as the specification words it: every category is scored
    by the occurrences of its keywords in the text, a keyword that occurs
    three times counting three times. *)
Definition category_as_specified (content_text : string) : string :=
  let scores :=
    (λ entry, (fst entry,
               sum_list ((λ keyword, occurrences keyword content_text) <$> snd entry)))
      <$> categories in
  match scores with
  | [] => "General"
  | first :: rest =>
      let best := max_go first rest in
      if 0 <? snd best then fst best else "General"
  end.

Definition all_tags : list string :=
  [ "ransomware"; "malware"; "phishing"; "breach"; "vulnerability";
    "exploit"; "cve"; "zero-day"; "apt"; "threat"; "security";
    "cybersecurity"; "infosec"; "hack"; "attack"; "incident";
    "tool"; "platform"; "framework"; "policy"; "compliance" ].

Definition _extract_tags (content_text : string) : list string :=
  take 5 (filter (λ tag, contains tag content_text = true) all_tags).

Definition cyber_keywords : list string :=
  [ "attack"; "breach"; "vulnerability"; "threat"; "security"; "malware"; "ransomware" ].

(** [keyword_count] of one sentence. *)
Definition keyword_count (sentence : string) : nat :=
  count_present cyber_keywords (lower sentence).

(** The loop over [sentences[1:]], on the pair [(best_sentence, max_keywords)]. *)
Definition best_step (acc : string * nat) (sentence : string) : string * nat :=
  if snd acc <? keyword_count sentence then (sentence, keyword_count sentence) else acc.

Definition best_of (later : list string) : string * nat :=
  foldl best_step (EmptyString, 0) later.

(** Python's truth value of a [str]. *)
Definition truthy (s : string) : bool :=
  match s with EmptyString => false | _ => true end.

(** [text[:200] + "..." if len(text) > 200 else text] *)
Definition truncate200 (text : string) : string :=
  if 200 <? len text then str_take 200 text +:+ "..." else text.

Definition _generate_rule_based_summary (item : NewsItem) : string :=
  let sentences := split ". " (content item) in
  match sentences with
  | first :: _ :: _ =>
      let later := tail sentences in
      let best_sentence := fst (best_of later) in
      let summary_sentences :=
        if truthy best_sentence && negb (String.eqb best_sentence first)
        then [first; best_sentence] else [first] in
      join ". " summary_sentences +:+ "."
  | _ => truncate200 (content item)
  end.

(** The summary as the specification words it: with two sentences or more,
    the first sentence plus the later sentence with the most keywords, when
    one has a keyword at all. *)
Definition summary_as_specified (item : NewsItem) : string :=
  let sentences := split ". " (content item) in
  match sentences with
  | first :: _ :: _ =>
      let best := best_of (tail sentences) in
      join ". " (if 0 <? snd best then [first; fst best] else [first]) +:+ "."
  | _ => truncate200 (content item)
  end.

Definition _analyze_with_rules (item : NewsItem) : Analysis :=
  let content_text := lower (title item +:+ " " +:+ content item) in
  {| a_summary := _generate_rule_based_summary item;
     a_category := _determine_category content_text;
     a_severity := _determine_severity content_text;
     a_tags := _extract_tags content_text |}.

Definition _analyze_with_rules_from_text (text : string) : Analysis :=
  let content_text := lower text in
  {| a_summary := truncate200 text;
     a_category := _determine_category content_text;
     a_severity := _determine_severity content_text;
     a_tags := _extract_tags content_text |}.

(** The JSON object found in a model response; any key may be missing. *)
Record JsonAnalysis : Type := {
  j_summary : option string;
  j_category : option string;
  j_severity : option string;
  j_tags : option (list string)
}.

(** What one call of the generative service does: the [try] block raises
    (with [str(e)]), or it yields the stripped response text, in which the
    regular expression and [json.loads] find an object or not. *)
Inductive GeminiOutcome : Type :=
| GeminiRaised (error_msg : string)
| GeminiText (analysis_text : string) (json : option JsonAnalysis).

Definition _parse_gemini_response (response_text : string)
    (json : option JsonAnalysis) : Analysis :=
  match json with
  | Some analysis =>
      {| a_summary := default EmptyString (j_summary analysis);
         a_category := default "General" (j_category analysis);
         a_severity := default "Medium" (j_severity analysis);
         a_tags := default [] (j_tags analysis) |}
  | None => _analyze_with_rules_from_text response_text
  end.

(** The mutable state of a [SummarizerTool] instance. *)
Record SummarizerTool : Type := { use_gemini : bool }.

(** [__init__]: the primary strategy is enabled iff an API key is set
    (an empty key is false in Python). *)
Definition init (gemini_api_key : option string) : SummarizerTool :=
  {| use_gemini := match gemini_api_key with Some k => truthy k | None => false end |}.

(** The environment of one [analyze_news_item] call. *)
Record CallEnv : Type := {
  flask_env_production : bool;
  gemini : GeminiOutcome
}.

(** ["quota" in error_msg.lower() or "429" in error_msg] *)
Definition is_quota_error (error_msg : string) : bool :=
  contains "quota" (lower error_msg) || contains "429" error_msg.

Definition _analyze_with_gemini (outcome : GeminiOutcome) (self : SummarizerTool)
    (item : NewsItem) : Analysis * SummarizerTool :=
  match outcome with
  | GeminiText analysis_text json => (_parse_gemini_response analysis_text json, self)
  | GeminiRaised error_msg =>
      let self' := if is_quota_error error_msg then {| use_gemini := false |} else self in
      (_analyze_with_rules item, self')
  end.

Definition analyze_news_item (env : CallEnv) (self : SummarizerTool)
    (item : NewsItem) : Analysis * SummarizerTool :=
  if flask_env_production env then (_analyze_with_rules item, self)
  else if use_gemini self then _analyze_with_gemini (gemini env) self item
  else (_analyze_with_rules item, self).

(** A sequence of [analyze_news_item] calls on one instance, each in its
    own environment. *)
Fixpoint analyze_all (self : SummarizerTool) (calls : list (CallEnv * NewsItem))
  : list Analysis * SummarizerTool :=
  match calls with
  | [] => ([], self)
  | c :: rest =>
      let r := analyze_news_item (fst c) self (snd c) in
      let rs := analyze_all (snd r) rest in
      (fst r :: fst rs, snd rs)
  end.

(** [item.summary = analysis.get('summary', '')] and the three assignments
    after it; the analysis always carries its four keys. *)
Definition update_item (item : NewsItem) (analysis : Analysis) : NewsItem :=
  {| title := title item; content := content item; url := url item;
     source := source item; published_at := published_at item;
     category := a_category analysis;
     severity := a_severity analysis;
     tags := a_tags analysis;
     summary := a_summary analysis |}.

(** An analyser that may raise, over a state [S]: the interface through
    which the batch loops call [analyze_news_item]. *)
Definition Analyzer (S : Type) : Type := S → NewsItem → Result Analysis * S.

(** One iteration of the batch loop: [try] the analysis and update the
    item; on an exception keep the item as it is. *)
Definition batch_step {S} (analyze : Analyzer S)
    (acc : list NewsItem * S) (item : NewsItem) : list NewsItem * S :=
  let '(analyzed_items, st) := acc in
  match analyze st item with
  | (inr analysis, st') => (analyzed_items ++ [update_item item analysis], st')
  | (inl _, st') => (analyzed_items ++ [item], st')
  end.

Definition batch_analyze {S} (analyze : Analyzer S) (st : S) (items : list NewsItem)
  : list NewsItem * S :=
  foldl (batch_step analyze) ([], st) items.

(** What the loop appends for [item] when the analyser is in state [st]. *)
Definition processed {S} (analyze : Analyzer S) (st : S) (item : NewsItem) : NewsItem :=
  match fst (analyze st item) with
  | inr analysis => update_item item analysis
  | inl _ => item
  end.

(** The fields of an item that classification never assigns. *)
Definition identity_of (item : NewsItem) : string * string * string * string * datetime :=
  (title item, content item, url item, source item, published_at item).

(** The analyser of a tool instance in a world that fixes, for the n-th
    call, the environment of that call. *)
Record Session : Type := { tool : SummarizerTool; calls : nat }.

Definition session_analyzer (world : nat → CallEnv) : Analyzer Session :=
  λ st item,
    let '(analysis, tool') := analyze_news_item (world (calls st)) (tool st) item in
    (ret analysis, {| tool := tool'; calls := S (calls st) |}).

End Summarizer.

(* ===================================================================== *)
(** * news_agent.py *)
(* ===================================================================== *)

Module NewsAgent.
Import Py Summarizer.

(** The collaborators held by a [CyberNewsAgent].  A connector either
    returns its items or lets an exception escape; the classifier is an
    [Analyzer] over its own state; the report generator's digest either
    returns a text or raises; [now] is [datetime.now().isoformat()]. *)
Record Tools (S : Type) : Type := {
  fetch_cybersecurity_news : Z → Result (list NewsItem);
  scrape_cyber_sites : Z → Result (list NewsItem);
  fetch_cybersecurity_posts : Z → Result (list NewsItem);
  summarizer : Analyzer S;
  report_daily_digest : list NewsItem → Result string;
  now : string
}.
Arguments fetch_cybersecurity_news {S} _ _.
Arguments scrape_cyber_sites {S} _ _.
Arguments fetch_cybersecurity_posts {S} _ _.
Arguments summarizer {S} _ _ _.
Arguments report_daily_digest {S} _ _.
Arguments now {S} _.

(** [item.title.lower().strip()] *)
Definition title_key (item : NewsItem) : string := strip (lower (title item)).

(** The items carrying a given normalised title. *)
Definition has_key (κ : string) (item : NewsItem) : Prop := title_key item = κ.

#[global] Instance has_key_dec κ item : Decision (has_key κ item) :=
  decide (title_key item = κ).

(** One iteration of the loop of [_deduplicate_news], on the pair
    [(seen_titles, deduplicated)]. *)
Definition dedup_step (acc : gset string * list NewsItem) (item : NewsItem)
  : gset string * list NewsItem :=
  let '(seen_titles, deduplicated) := acc in
  if decide (title_key item ∈ seen_titles) then acc
  else ({[ title_key item ]} ∪ seen_titles, deduplicated ++ [item]).

Definition _deduplicate_news (news_items : list NewsItem) : list NewsItem :=
  snd (foldl dedup_step (∅, []) news_items).

(** The three fetches of [collect_news], in order; the first exception
    ends the [try] block. *)
Definition fetch_all {S} (tools : Tools S) (max_items : Z) : Result (list NewsItem) :=
  bind (fetch_cybersecurity_news tools (max_items / 3)%Z) (λ news_api_items,
  bind (scrape_cyber_sites tools (max_items / 3)%Z) (λ scraped_items,
  bind (fetch_cybersecurity_posts tools (max_items / 3)%Z) (λ reddit_items,
  ret (news_api_items ++ scraped_items ++ reddit_items)))).

Definition collect_news {S} (tools : Tools S) (max_items : Z) : list NewsItem :=
  match fetch_all tools max_items with
  | inr all_news => slice_to max_items (_deduplicate_news all_news)
  | inl _ => []
  end.

Definition analyze_and_categorize {S} (tools : Tools S) (st : S)
    (news_items : list NewsItem) : list NewsItem * S :=
  foldl (batch_step (summarizer tools)) ([], st) news_items.

Definition generate_daily_digest {S} (tools : Tools S) (news_items : list NewsItem)
  : string :=
  match report_daily_digest tools news_items with
  | inr digest => digest
  | inl _ => "Unable to generate daily digest at this time."
  end.

(** The condition of [search_news]. *)
Definition query_matches (query_lower : string) (item : NewsItem) : bool :=
  contains query_lower (lower (title item))
  || contains query_lower (lower (content item))
  || existsb (λ tag, contains query_lower (lower tag)) (tags item).

Definition search_news (query : string) (news_items : list NewsItem) : list NewsItem :=
  let query_lower := lower query in
  foldl (λ matching_items item,
           if query_matches query_lower item then matching_items ++ [item]
           else matching_items)
        [] news_items.

(** The dictionary literal of [get_categorized_news]. *)
Definition empty_buckets : gmap string (list NewsItem) :=
  <["Latest Attacks" := []]> (<["New Tools" := []]> (<["Threat Intelligence" := []]>
    (<["Vulnerabilities" := []]> (<["General" := []]> ∅)))).

Definition categorize_step (categorized : gmap string (list NewsItem))
    (item : NewsItem) : gmap string (list NewsItem) :=
  if decide (is_Some (categorized !! category item))
  then alter (λ bucket, bucket ++ [item]) (category item) categorized
  else alter (λ bucket, bucket ++ [item]) "General" categorized.

Definition get_categorized_news (news_items : list NewsItem)
  : gmap string (list NewsItem) :=
  foldl categorize_step empty_buckets news_items.

(** [{'High': 0, 'Medium': 0, 'Low': 0}] *)
Definition empty_stats : gmap string nat :=
  <["High" := 0]> (<["Medium" := 0]> (<["Low" := 0]> ∅)).

Definition stats_step (stats : gmap string nat) (item : NewsItem) : gmap string nat :=
  if decide (is_Some (stats !! severity item))
  then alter S (severity item) stats
  else stats.

Definition get_severity_stats (news_items : list NewsItem) : gmap string nat :=
  foldl stats_step empty_stats news_items.

(** [sum(d.values())] *)
Definition sum_values (d : gmap string nat) : nat :=
  map_fold (λ _ v acc, v + acc) 0 d.

(** The five fixed category labels and the three severity tiers. *)
Definition category_labels : list string :=
  ["Latest Attacks"; "Vulnerabilities"; "New Tools"; "Threat Intelligence"; "General"].

Definition severity_levels : list string := ["High"; "Medium"; "Low"].

(** The bucket an item is routed to. *)
Definition bucket_of (item : NewsItem) : string :=
  if decide (category item ∈ category_labels) then category item else "General".

(** The buckets of a mapping, in the order of the labels. *)
Definition buckets (m : gmap string (list NewsItem)) : list (list NewsItem) :=
  (λ k, default [] (m !! k)) <$> category_labels.

(** The mapping of [get_categorized_news] after its loop has consumed [l]. *)
Definition buckets_inv (l : list NewsItem) (m : gmap string (list NewsItem)) : Prop :=
  ∀ k, m !! k = if decide (k ∈ category_labels)
                then Some (filter (λ item, bucket_of item = k) l) else None.

(** The counters of [get_severity_stats] after its loop has consumed [l]. *)
Definition stats_inv (l : list NewsItem) (m : gmap string nat) : Prop :=
  ∀ k, m !! k = if decide (k ∈ severity_levels)
                then Some (length (filter (λ item, severity item = k) l)) else None.

(** The items whose severity is one of the three tiers. *)
Definition known_severity (item : NewsItem) : Prop := severity item ∈ severity_levels.

#[global] Instance known_severity_dec item : Decision (known_severity item) :=
  decide (severity item ∈ severity_levels).

Record PipelineResult : Type := {
  news_items : list NewsItem;
  categorized_news : gmap string (list NewsItem);
  daily_digest : string;
  severity_stats : gmap string nat;
  total_items : nat;
  timestamp : string
}.

Definition run_full_pipeline {S} (tools : Tools S) (st : S) (max_items : Z)
  : PipelineResult * S :=
  let collected := collect_news tools max_items in
  let '(analyzed_items, st') := analyze_and_categorize tools st collected in
  ({| news_items := analyzed_items;
      categorized_news := get_categorized_news analyzed_items;
      daily_digest := generate_daily_digest tools analyzed_items;
      severity_stats := get_severity_stats analyzed_items;
      total_items := length analyzed_items;
      timestamp := now tools |}, st').

End NewsAgent.

(* ===================================================================== *)
(** * tools/notification_service.py (subscriber set) and app.py (e-mail check) *)
(* ===================================================================== *)

Module Notification.
Import Py.

(** What opening and reading [subscribers.txt] gives. *)
Inductive FileRead : Type :=
| NoFile
| ReadError
| FileLines (lines : list string).

(** [email.strip().lower()] *)
Definition normalize (email : string) : string := lower (strip email).

(** [set(line.strip().lower() for line in f if line.strip())] *)
Definition _load_subscribers (f : FileRead) : gset string :=
  match f with
  | FileLines lines =>
      list_to_set (normalize <$> filter (λ line, strip line ≠ EmptyString) lines)
  | NoFile | ReadError => ∅
  end.

(** The part of a [NotificationService] that the subscription calls change.
    Saving the file and sending the welcome mail leave it untouched. *)
Record NotificationService : Type := { subscribers : gset string }.

Definition init (f : FileRead) : NotificationService :=
  {| subscribers := _load_subscribers f |}.

Definition add_subscriber (email : string) (self : NotificationService)
  : bool * NotificationService :=
  let email := normalize email in
  if decide (email ∈ subscribers self) then (false, self)
  else (true, {| subscribers := {[ email ]} ∪ subscribers self |}).

Definition remove_subscriber (email : string) (self : NotificationService)
  : bool * NotificationService :=
  let email := normalize email in
  if decide (email ∈ subscribers self)
  then (true, {| subscribers := subscribers self ∖ {[ email ]} |})
  else (false, self).

(** Trimmed and lower-cased text. *)
Definition normalized (e : string) : Prop := strip e = e ∧ lower e = e.

Inductive Call : Type :=
| Add (email : string)
| Remove (email : string).

Definition call (self : NotificationService) (c : Call) : NotificationService :=
  match c with
  | Add email => snd (add_subscriber email self)
  | Remove email => snd (remove_subscriber email self)
  end.

Definition run (calls : list Call) (self : NotificationService) : NotificationService :=
  foldl call self calls.

(** ** app.py: [re.match(r'^[^\s@]+@[^\s@]+\.[^\s@]+$', email)] *)

(** [[^\s@]] *)
Definition plain_char (c : ascii) : bool :=
  negb (isspace c) && negb (Ascii.eqb c "@").

Fixpoint span_plain (l : list ascii) : list ascii * list ascii :=
  match l with
  | c :: l' =>
      if plain_char c then (c :: fst (span_plain l'), snd (span_plain l'))
      else ([], l)
  | [] => ([], [])
  end.

(** [$] also matches just before a final newline. *)
Definition chop_newline (l : list ascii) : list ascii :=
  match reverse l with
  | c :: before => if Ascii.eqb c "010" then reverse before else l
  | [] => l
  end.

(** [[^\s@]+\.[^\s@]+$]: plain characters only, with a dot that is neither
    the first nor the last of them. *)
Definition domain_ok (l : list ascii) : bool :=
  forallb plain_char l
  && existsb (λ c, Ascii.eqb c ".") (removelast (tail l)).

Definition match_email (l : list ascii) : bool :=
  let '(local_part, rest) := span_plain l in
  match local_part, rest with
  | _ :: _, at_sign :: domain => Ascii.eqb at_sign "@" && domain_ok domain
  | _, _ => false
  end.

Definition valid_email (email : string) : bool :=
  let l := list_ascii_of_string email in
  match_email l || match_email (chop_newline l).

(** The [/notifications/subscribe] handler: status code and new state. *)
Definition subscribe_to_notifications (email_field : string)
    (self : NotificationService) : nat * NotificationService :=
  let email := lower (strip email_field) in
  if decide (email = EmptyString) then (400, self)
  else if negb (valid_email email) then (400, self)
  else
    let '(success, self') := add_subscriber email self in
    (if success then 200 else 400, self').

End Notification.

(* ===================================================================== *)
(** * tools/report_generator.py (e-mail summary) *)
(* ===================================================================== *)

Module ReportGenerator.
Import Py.

(** The static text of the e-mail: the pictographs that open the three
    subject lines and the HTML between the interpolated values of the three
    f-strings of [_format_email_html] (page, article block, footer). *)
Record EmailTemplate : Type := {
  icon_urgent : string;
  icon_medium : string;
  icon_digest : string;
  page_open : string;          (* up to the greeting *)
  page_after_greeting : string;
  page_after_intro : string;   (* up to the total *)
  page_after_total : string;
  page_after_high : string;
  page_after_medium : string;
  page_after_low : string;
  article_open : string;       (* up to the link target *)
  article_after_url : string;
  article_after_title : string;
  article_after_summary : string;
  article_after_source : string;
  article_after_class : string;
  article_close : string;
  footer_open : string;        (* up to the generation time *)
  footer_close : string
}.

(** The two readings of [datetime.now()]: the hour and the formatted
    generation time. *)
Record Clock : Type := {
  current_hour : nat;
  generated_on : string
}.

Record Email : Type := { subject : string; body : string }.

(** [d[k]] *)
Definition getitem {V} (d : gmap string V) (k : string) : Result V :=
  match d !! k with
  | Some v => ret v
  | None => raise (KeyError k)
  end.

Definition stats_step (stats : gmap string nat) (item : NewsItem) : gmap string nat :=
  if decide (is_Some (stats !! severity item))
  then alter S (severity item) stats
  else stats.

Definition _get_severity_statistics (news_items : list NewsItem) : gmap string nat :=
  foldl stats_step (<["High" := 0]> (<["Medium" := 0]> (<["Low" := 0]> ∅))) news_items.

(** [{'High': 3, 'Medium': 2, 'Low': 1}] *)
Definition severity_rank : gmap string nat :=
  <["High" := 3]> (<["Medium" := 2]> (<["Low" := 1]> ∅)).

(** The key of the sort: the rank of the severity, then the wall-clock
    reading of the publication time (with or without a time zone). *)
Definition sort_key (x : NewsItem) : Result (nat * Z) :=
  bind (getitem severity_rank (severity x)) (λ rank,
  ret (rank, wall_clock (published_at x))).

(** The keys of all items, in list order; the first failure is raised. *)
Fixpoint with_keys (items : list NewsItem) : Result (list ((nat * Z) * NewsItem)) :=
  match items with
  | [] => ret []
  | x :: rest =>
      bind (sort_key x) (λ k,
      bind (with_keys rest) (λ keyed, ret ((k, x) :: keyed)))
  end.

(** Tuple comparison [<]. *)
Definition key_lt (a b : nat * Z) : bool :=
  (fst a <? fst b) || ((fst a =? fst b) && (snd a <? snd b)%Z).

(** Stable sort, largest key first: an element goes in front of the first
    element that is not strictly larger. *)
Fixpoint insert_desc (e : (nat * Z) * NewsItem) (sorted : list ((nat * Z) * NewsItem))
  : list ((nat * Z) * NewsItem) :=
  match sorted with
  | [] => [e]
  | y :: rest => if key_lt (fst e) (fst y) then y :: insert_desc e rest else e :: sorted
  end.

(** [sorted(news_items, key=..., reverse=True)] *)
Definition sorted_desc (items : list NewsItem) : Result (list NewsItem) :=
  bind (with_keys items) (λ keyed, ret (snd <$> foldr insert_desc [] keyed)).

Definition truthy (s : string) : bool :=
  match s with EmptyString => false | _ => true end.

(** [article.summary or article.content[:200] + "..." if len(article.content) > 200
     else article.content] *)
Definition article_summary (article : NewsItem) : string :=
  if 200 <? len (content article)
  then (if truthy (summary article) then summary article
        else str_take 200 (content article) +:+ "...")
  else content article.

Definition article_html (tpl : EmailTemplate) (article : NewsItem) : string :=
  let summary := article_summary article in
  let severity_class := lower (severity article) in
  article_open tpl +:+ url article +:+ article_after_url tpl +:+ title article
    +:+ article_after_title tpl +:+ summary +:+ article_after_summary tpl
    +:+ source article +:+ article_after_source tpl +:+ severity_class
    +:+ article_after_class tpl +:+ severity article +:+ article_close tpl.

Definition greeting_of (hour : nat) : string :=
  if hour <? 12 then "Good morning"
  else if hour <? 17 then "Good afternoon"
  else "Good evening".

Definition intro_of (total_items high_count medium_count : nat) : string :=
  if 0 <? high_count then
    "We've identified " +:+ pretty high_count
      +:+ " critical security alerts that require immediate attention, along with "
      +:+ pretty (Z.of_nat total_items - Z.of_nat high_count)%Z
      +:+ " other important updates."
  else if 0 <? medium_count then
    "Today's cybersecurity landscape shows " +:+ pretty medium_count
      +:+ " medium-severity incidents among " +:+ pretty total_items
      +:+ " total security updates."
  else
    "Here are today's " +:+ pretty total_items
      +:+ " cybersecurity updates and industry developments.".

Definition _format_email_html (tpl : EmailTemplate) (clock : Clock)
    (news_items : list NewsItem) (severity_stats : gmap string nat) : Result string :=
  let greeting := greeting_of (current_hour clock) in
  bind (sorted_desc news_items) (λ sorted_items,
  let top_articles := take 5 sorted_items in
  let total_items := length news_items in
  bind (getitem severity_stats "High") (λ high_count,
  bind (getitem severity_stats "Medium") (λ medium_count,
  let intro := intro_of total_items high_count medium_count in
  bind (getitem severity_stats "High") (λ shown_high,
  bind (getitem severity_stats "Medium") (λ shown_medium,
  bind (getitem severity_stats "Low") (λ shown_low,
  let html_body :=
    page_open tpl +:+ greeting +:+ page_after_greeting tpl +:+ intro
      +:+ page_after_intro tpl +:+ pretty total_items
      +:+ page_after_total tpl +:+ pretty shown_high
      +:+ page_after_high tpl +:+ pretty shown_medium
      +:+ page_after_medium tpl +:+ pretty shown_low
      +:+ page_after_low tpl in
  let html_body :=
    foldl (λ html article, html +:+ article_html tpl article) html_body top_articles in
  ret (html_body +:+ footer_open tpl +:+ generated_on clock +:+ footer_close tpl))))))).

(** The [if]/[elif]/[else] choosing the subject line. *)
Definition subject_of (tpl : EmailTemplate) (news_items : list NewsItem)
    (severity_stats : gmap string nat) : Result string :=
  bind (getitem severity_stats "High") (λ high,
  if 0 <? high then
    ret (icon_urgent tpl +:+ " URGENT: " +:+ pretty high
           +:+ " Critical Cybersecurity Alerts")
  else
    bind (getitem severity_stats "Medium") (λ medium,
    if 0 <? medium then
      ret (icon_medium tpl +:+ " " +:+ pretty medium
             +:+ " Medium-Severity Security Updates")
    else
      ret (icon_digest tpl +:+ " Daily Cybersecurity Digest - "
             +:+ pretty (length news_items) +:+ " Updates"))).

Definition generate_email_summary (tpl : EmailTemplate) (clock : Clock)
    (news_items : list NewsItem) : Result Email :=
  let severity_stats := _get_severity_statistics news_items in
  bind (subject_of tpl news_items severity_stats) (λ subject,
  bind (_format_email_html tpl clock news_items severity_stats) (λ body,
  ret {| subject := subject; body := body |})).

End ReportGenerator.

(* ===================================================================== *)
(** * tools/notification_service.py (the subscriber file) *)
(* ===================================================================== *)

Module SubscriberFile.
Import Py Notification.

Definition LF : ascii := "010"%char.
Definition CR : ascii := "013"%char.

(** [sorted(self.subscribers)]: by code points. *)
Definition sorted_subscribers (s : gset string) : list string :=
  merge_sort String.le (elements s).

(** The text that [_save_subscribers] writes: [f"{email}\n"] for every
    address, in sorted order (on a system whose line separator is LF). *)
Definition _save_subscribers (self : NotificationService) : string :=
  foldr (λ email text, email +:+ String LF text) EmptyString
        (sorted_subscribers (subscribers self)).

(** [for line in f] on a file opened in text mode: a line ends after LF,
    CR LF or CR, each read as LF; the last line may have no end. *)
Fixpoint lines_go (cur : string) (text : string) : list string :=
  match text with
  | EmptyString =>
      match cur with EmptyString => [] | _ => [String.rev cur] end
  | String c rest =>
      if Ascii.eqb c LF then String.rev (String LF cur) :: lines_go EmptyString rest
      else if Ascii.eqb c CR then
        match rest with
        | String d rest' =>
            if Ascii.eqb d LF
            then String.rev (String LF cur) :: lines_go EmptyString rest'
            else String.rev (String LF cur) :: lines_go EmptyString rest
        | EmptyString => [String.rev (String LF cur)]
        end
      else lines_go (String c cur) rest
  end.

Definition file_lines (text : string) : list string := lines_go EmptyString text.

(** Loading what a file with the given text holds. *)
Definition load_text (text : string) : gset string :=
  _load_subscribers (FileLines (file_lines text)).

(** An address that fits on one line. *)
Definition one_line (e : string) : Prop :=
  Forall (λ c, c ≠ LF ∧ c ≠ CR) (list_ascii_of_string e).

(** [len(self.subscribers)] *)
Definition get_subscriber_count (self : NotificationService) : nat :=
  size (subscribers self).

End SubscriberFile.

(* ===================================================================== *)
(** * app.py (unsubscribe handler, cache) *)
(* ===================================================================== *)

Module App.
Import Py Notification NewsAgent.

(** The [/notifications/unsubscribe] handler: status code and new state. *)
Definition unsubscribe_from_notifications (email_field : string)
    (self : NotificationService) : nat * NotificationService :=
  let email := lower (strip email_field) in
  if decide (email = EmptyString) then (400, self)
  else if negb (valid_email email) then (400, self)
  else
    let '(success, self') := remove_subscriber email self in
    (if success then 200 else 400, self').

Inductive Request : Type :=
| Subscribe (email_field : string)
| Unsubscribe (email_field : string).

Definition handle (self : NotificationService) (r : Request) : NotificationService :=
  match r with
  | Subscribe email_field => snd (subscribe_to_notifications email_field self)
  | Unsubscribe email_field => snd (unsubscribe_from_notifications email_field self)
  end.

Definition serve (requests : list Request) (self : NotificationService)
  : NotificationService :=
  foldl handle self requests.

(** [news_cache] *)
Record NewsCache : Type := {
  cache_data : option PipelineResult;
  cache_timestamp : option datetime;
  cache_duration : Z
}.

Definition initial_cache : NewsCache :=
  {| cache_data := None; cache_timestamp := None; cache_duration := 3600 |}.

(** [(later - earlier).seconds] of two naive datetimes: a [timedelta] is
    kept as days, seconds in [0, 86400) and microseconds in [0, 10^6), and
    [.seconds] reads the middle part. *)
Definition timedelta_seconds (later earlier : datetime) : Z :=
  (((wall_clock later - wall_clock earlier) / 1000000) mod 86400)%Z.

(** The condition of [index] under which the pipeline is run again. *)
Definition cache_expired (now : datetime) (cache : NewsCache) : bool :=
  match cache_data cache, cache_timestamp cache with
  | Some _, Some stamp => (cache_duration cache <? timedelta_seconds now stamp)%Z
  | _, _ => true
  end.

(** [index]: the result handed to the template, the cache and the state of
    the classifier afterwards.  [now] is read for the check and [stamp_now]
    after the run. *)
Definition index {S} (tools : Tools S) (now stamp_now : datetime) (st : S)
    (cache : NewsCache) : option PipelineResult * NewsCache * S :=
  if cache_expired now cache then
    let '(result, st') := run_full_pipeline tools st 50 in
    (Some result,
     {| cache_data := Some result; cache_timestamp := Some stamp_now;
        cache_duration := cache_duration cache |}, st')
  else (cache_data cache, cache, st).

End App.

(* ===================================================================== *)
(** * tools/report_generator.py (daily digest) *)
(* ===================================================================== *)

Module ReportDigest.
Import Py ReportGenerator.

(** [categorized[category].append(item)], after [categorized[category] = []]
    when the key is new; the dictionary keeps its keys in insertion order. *)
Fixpoint append_to (category : string) (item : NewsItem)
    (categorized : list (string * list NewsItem)) : list (string * list NewsItem) :=
  match categorized with
  | [] => [(category, [item])]
  | (k, bucket) :: rest =>
      if decide (k = category) then (k, bucket ++ [item]) :: rest
      else (k, bucket) :: append_to category item rest
  end.

Definition _categorize_news_items (news_items : list NewsItem)
  : list (string * list NewsItem) :=
  foldl (λ categorized item, append_to (category item) item categorized) [] news_items.

(** [d.get(k)] on a dictionary kept as a list of entries. *)
Fixpoint lookup_entry (k : string) (d : list (string * list NewsItem))
  : option (list NewsItem) :=
  match d with
  | [] => None
  | (k', bucket) :: rest => if decide (k' = k) then Some bucket else lookup_entry k rest
  end.

(** The sentence about the high-severity items, when there are any. *)
Definition critical_part (news_items : list NewsItem) : list string :=
  let high_severity := filter (λ item, severity item = "High") news_items in
  match high_severity with
  | [] => []
  | first :: _ =>
      ["Critical alerts include " +:+ pretty (length high_severity)
         +:+ " high-severity incidents, including " +:+ lower (title first) +:+ "."]
  end.

(** One sentence per category that has items. *)
Definition category_parts (categorized : list (string * list NewsItem)) : list string :=
  (λ entry, "In " +:+ lower (fst entry) +:+ ", " +:+ pretty (length (snd entry))
              +:+ " notable developments were reported.")
    <$> filter (λ entry, snd entry ≠ []) categorized.

Definition trend_part (severity_stats : gmap string nat) : Result string :=
  bind (getitem severity_stats "High") (λ high,
  if 0 <? high then
    ret "The threat landscape remains elevated with multiple high-severity incidents requiring immediate attention."
  else
    bind (getitem severity_stats "Medium") (λ medium,
    if 0 <? medium then ret "Moderate security concerns dominate today's news cycle."
    else ret "Today's security landscape shows relatively low immediate threats.")).

Definition _generate_template_digest (news_items : list NewsItem) : Result string :=
  let categorized := _categorize_news_items news_items in
  let severity_stats := _get_severity_statistics news_items in
  let digest_parts :=
    ["Today's cybersecurity landscape shows " +:+ pretty (length news_items)
       +:+ " significant developments across multiple threat vectors."]
    ++ critical_part news_items ++ category_parts categorized in
  bind (trend_part severity_stats) (λ trend,
  ret (join " " (digest_parts ++ [trend]))).

(** The mutable state of a [ReportGeneratorTool] instance. *)
Record ReportGeneratorTool : Type := { use_gemini : bool }.

(** What one call of the generative service does for a digest. *)
Inductive DigestOutcome : Type :=
| DigestRaised (error_msg : string)
| DigestText (response_text : string).

Record DigestEnv : Type := {
  flask_env_production : bool;
  gemini : DigestOutcome
}.

Definition _generate_ai_digest (outcome : DigestOutcome) (self : ReportGeneratorTool)
    (news_items : list NewsItem) : Result string * ReportGeneratorTool :=
  match outcome with
  | DigestText response_text => (ret (strip response_text), self)
  | DigestRaised error_msg =>
      let self' :=
        if contains "quota" (lower error_msg) || contains "429" error_msg
        then {| use_gemini := false |} else self in
      (_generate_template_digest news_items, self')
  end.

Definition generate_daily_digest (env : DigestEnv) (self : ReportGeneratorTool)
    (news_items : list NewsItem) : Result string * ReportGeneratorTool :=
  match news_items with
  | [] => (ret "No cybersecurity news items available for today's digest.", self)
  | _ =>
      if flask_env_production env then (_generate_template_digest news_items, self)
      else if use_gemini self then _generate_ai_digest (gemini env) self news_items
      else (_generate_template_digest news_items, self)
  end.

(** The digest that consults no service: the fixed sentence for no items,
    the template digest otherwise. *)
Definition offline_digest (news_items : list NewsItem) : Result string :=
  match news_items with
  | [] => ret "No cybersecurity news items available for today's digest."
  | _ => _generate_template_digest news_items
  end.

(** A sequence of digests on one instance. *)
Fixpoint digests (self : ReportGeneratorTool) (calls : list (DigestEnv * list NewsItem))
  : list (Result string) * ReportGeneratorTool :=
  match calls with
  | [] => ([], self)
  | c :: rest =>
      let r := generate_daily_digest (fst c) self (snd c) in
      let rs := digests (snd r) rest in
      (fst r :: fst rs, snd rs)
  end.

(** The sort key of an item whose severity is one of the three tiers. *)
Definition key_of (x : NewsItem) : nat * Z :=
  (default 0 (severity_rank !! severity x), wall_clock (published_at x)).

(** [a] is not placed after [b] by the descending sort: its key is not the
    smaller one. *)
Definition not_below (a b : NewsItem) : Prop := key_lt (key_of a) (key_of b) = false.

End ReportDigest.

(* ===================================================================== *)
(** * tools/notification_service.py (delivery) *)
(* ===================================================================== *)

Module Delivery.
Import Py ReportGenerator.

(** Whether the sender address and password, and the webhook URL, are set. *)
Record Channels : Type := {
  email_configured : bool;
  webhook_configured : bool
}.

(** What the network does: whether the SMTP session (connect, STARTTLS,
    login) is established, and whether the webhook request succeeds. *)
Record Network : Type := {
  smtp_session : bool;
  webhook_accepts : bool
}.

(** The pictographs and the bullet of the webhook text, the dashboard
    address and the time of the request. *)
Record WebhookText : Type := {
  alert_icon : string;
  statistics_icon : string;
  link_icon : string;
  stories_icon : string;
  bullet : string;
  app_url : string;
  posted_at : string
}.

Record Field : Type := { name : string; value : string; inline : bool }.

Record Payload : Type := {
  content : string;
  embed_title : string;
  description : string;
  color : Z;
  fields : list Field;
  timestamp : string;
  footer : string
}.

Definition stats_step (stats : gmap string nat) (item : NewsItem) : gmap string nat :=
  if decide (is_Some (stats !! severity item))
  then alter S (severity item) stats
  else stats.

Definition _get_severity_statistics (news_items : list NewsItem) : gmap string nat :=
  foldl stats_step (<["High" := 0]> (<["Medium" := 0]> (<["Low" := 0]> ∅))) news_items.

(** Stable sort by the severity text, largest first. *)
Fixpoint insert_by_severity (x : NewsItem) (sorted : list NewsItem) : list NewsItem :=
  match sorted with
  | [] => [x]
  | y :: rest =>
      if String.ltb (severity x) (severity y) then y :: insert_by_severity x rest
      else x :: sorted
  end.

(** [sorted(news_items, key=lambda x: x.severity, reverse=True)] *)
Definition sorted_by_severity (news_items : list NewsItem) : list NewsItem :=
  foldr insert_by_severity [] news_items.

Definition story_line (text : WebhookText) (item : NewsItem) : string :=
  bullet text +:+ " " +:+ title item +:+ " (" +:+ severity item +:+ ")".

(** The field of the top stories, present when there are items. *)
Definition top_stories (text : WebhookText) (news_items : list NewsItem) : list Field :=
  match news_items with
  | [] => []
  | _ =>
      let top_items := take 5 (sorted_by_severity news_items) in
      let items_text := join (String "010" EmptyString) (story_line text <$> top_items) in
      [{| name := stories_icon text +:+ " Top Stories";
          value := str_take 1000 items_text;
          inline := false |}]
  end.

(** The payload built by [_send_webhook_notification]. *)
Definition webhook_payload (text : WebhookText) (news_items : list NewsItem)
  : Result Payload :=
  let severity_stats := _get_severity_statistics news_items in
  bind (getitem severity_stats "High") (λ high_for_color,
  bind (getitem severity_stats "High") (λ high,
  bind (getitem severity_stats "Medium") (λ medium,
  bind (getitem severity_stats "Low") (λ low,
  ret {| content := alert_icon text +:+ " **Daily Cybersecurity Alert**";
         embed_title := "CyberNewsAgent Daily Digest";
         description := "Found " +:+ pretty (length news_items) +:+ " cybersecurity updates";
         color := if 0 <? high_for_color then 16711680%Z else 16753920%Z;
         fields :=
           [ {| name := statistics_icon text +:+ " Statistics";
                value := "High: " +:+ pretty high +:+ String "010" ("Medium: " +:+ pretty medium)
                           +:+ String "010" ("Low: " +:+ pretty low);
                inline := true |};
             {| name := link_icon text +:+ " Access Dashboard";
                value := "[Open CyberNewsAgent](" +:+ app_url text +:+ ")";
                inline := true |} ]
           ++ top_stories text news_items;
         timestamp := posted_at text;
         footer := "CyberNewsAgent" |})))).

Definition _send_webhook_notification (text : WebhookText) (net : Network)
    (news_items : list NewsItem) : Result Payload :=
  bind (webhook_payload text news_items) (λ payload,
  if webhook_accepts net then ret payload
  else raise (Exception "webhook request failed")).

(** The message is built first; then the SMTP session is opened and the
    message sent to every subscriber, a failure for one subscriber being
    logged only. *)
Definition _send_email_notification_to_subscribers (tpl : EmailTemplate) (clock : Clock)
    (net : Network) (news_items : list NewsItem) : Result Email :=
  bind (generate_email_summary tpl clock news_items) (λ email_data,
  if smtp_session net then ret email_data
  else raise (Exception "SMTP session failed")).

(** What a notification run did: the returned flag, the message handed to
    the SMTP session and the payload accepted by the webhook, if any. *)
Record Outcome : Type := {
  success : bool;
  mailed : option Email;
  posted : option Payload
}.

Definition send_daily_notification (tpl : EmailTemplate) (clock : Clock)
    (text : WebhookText) (channels : Channels) (net : Network)
    (subscribers : gset string) (news_items : list NewsItem) : Outcome :=
  let email_step : bool * option Email :=
    if email_configured channels && negb (bool_decide (subscribers = ∅)) then
      match _send_email_notification_to_subscribers tpl clock net news_items with
      | inr email_data => (true, Some email_data)
      | inl _ => (false, None)
      end
    else (true, None) in
  let webhook_step : bool * option Payload :=
    if webhook_configured channels then
      match _send_webhook_notification text net news_items with
      | inr payload => (true, Some payload)
      | inl _ => (false, None)
      end
    else (true, None) in
  {| success := fst email_step && fst webhook_step;
     mailed := snd email_step;
     posted := snd webhook_step |}.

(** The item of [send_test_notification]. *)
Definition test_item (now : datetime) : NewsItem :=
  {| title := "Test Cybersecurity Alert";
     Models.content := "This is a test notification from CyberNewsAgent";
     url := "https://example.com"; source := "Test Source"; published_at := now;
     category := "Test"; severity := "Medium"; tags := ["test"; "notification"];
     summary := "Test notification to verify email/webhook setup" |}.

Definition send_test_notification (tpl : EmailTemplate) (clock : Clock)
    (text : WebhookText) (channels : Channels) (net : Network)
    (subscribers : gset string) (now : datetime) : Outcome :=
  send_daily_notification tpl clock text channels net subscribers [test_item now].

End Delivery.

(* ===================================================================== *)
(** * tools/news_api.py *)
(* ===================================================================== *)

Module NewsAPI.
Import Py NewsAgent.

Definition cyber_keywords : list string :=
  ["cybersecurity"; "cyber attack"; "ransomware"; "malware"; "phishing";
   "data breach"; "vulnerability"; "exploit"; "CVE"; "zero-day";
   "threat"; "security"; "infosec"; "hack"; "hacker"; "APT";
   "incident response"; "SOC"; "SIEM"; "firewall"; "intrusion"].

(** [any(keyword.lower() in content_text for keyword in keywords)] on the
    lower-cased title, a space and the content. *)
Definition mentions (keywords : list string) (item : NewsItem) : bool :=
  let content_text := lower (title item +:+ " " +:+ content item) in
  existsb (λ keyword, contains (lower keyword) content_text) keywords.

Definition _is_cybersecurity_related (item : NewsItem) : bool :=
  mentions cyber_keywords item.

(** One iteration of the loop of [_filter_cybersecurity_content], on the
    pair [(seen_titles, filtered_items)]: a title is recorded only when its
    item is kept. *)
Definition filter_step (acc : gset string * list NewsItem) (item : NewsItem)
  : gset string * list NewsItem :=
  let '(seen_titles, filtered_items) := acc in
  if bool_decide (title_key item ∉ seen_titles) && _is_cybersecurity_related item
  then ({[ title_key item ]} ∪ seen_titles, filtered_items ++ [item])
  else acc.

Definition _filter_cybersecurity_content (items : list NewsItem) : list NewsItem :=
  snd (foldl filter_step (∅, []) items).

Record MockData : Type := {
  mock_title : string;
  mock_content : string;
  mock_source : string;
  mock_category : string;
  mock_severity : string
}.

Definition mock_items : list MockData :=
  [ {| mock_title := "Major Ransomware Attack Targets Healthcare Sector";
       mock_content := "A sophisticated ransomware attack has targeted multiple healthcare facilities across the country, causing significant disruption to patient care services.";
       mock_source := "SecurityWeek";
       mock_category := "Latest Attacks"; mock_severity := "High" |};
    {| mock_title := "New Zero-Day Vulnerability Discovered in Popular Software";
       mock_content := "Security researchers have identified a critical zero-day vulnerability that could allow remote code execution in widely-used enterprise software.";
       mock_source := "Dark Reading";
       mock_category := "Vulnerabilities"; mock_severity := "High" |};
    {| mock_title := "AI-Powered Threat Detection Tool Released";
       mock_content := "A new AI-powered threat detection platform has been launched, promising to revolutionize how organizations identify and respond to cyber threats.";
       mock_source := "CSO Online";
       mock_category := "New Tools"; mock_severity := "Low" |};
    {| mock_title := "Phishing Campaign Targets Remote Workers";
       mock_content := "A sophisticated phishing campaign is targeting remote workers with fake collaboration tool notifications, attempting to steal credentials.";
       mock_source := "Threatpost";
       mock_category := "Threat Intelligence"; mock_severity := "Medium" |};
    {| mock_title := "New Cybersecurity Framework Released by NIST";
       mock_content := "The National Institute of Standards and Technology has released an updated cybersecurity framework with enhanced guidance for organizations.";
       mock_source := "Infosecurity Magazine";
       mock_category := "General"; mock_severity := "Low" |} ].

(** [now - timedelta(hours=i)] *)
Definition hours_before (now : datetime) (i : nat) : datetime :=
  {| wall_clock := wall_clock now - Z.of_nat i * 3600000000; tzinfo := tzinfo now |}.

(** The mock items; [now i] is the reading of the clock in iteration [i]. *)
Definition _get_mock_news_items (now : nat → datetime) (max_items : Z) : list NewsItem :=
  imap (λ i mock_data,
          {| title := mock_title mock_data;
             content := mock_content mock_data;
             url := "https://example.com/news/" +:+ pretty (i + 1);
             source := mock_source mock_data;
             published_at := hours_before (now i) i;
             category := mock_category mock_data;
             severity := mock_severity mock_data;
             tags := ["mock"; "cybersecurity"];
             summary := EmptyString |})
       (slice_to max_items mock_items).

(** The environment switch, the API key, the three endpoint methods (each
    returns its items or raises) and the clock. *)
Record Env : Type := {
  flask_env_production : bool;
  news_api_key : option string;
  _fetch_everything_endpoint : Z → Result (list NewsItem);
  _fetch_top_headlines_endpoint : Z → Result (list NewsItem);
  _fetch_sources_endpoint : Z → Result (list NewsItem);
  now : nat → datetime
}.

(** Truth value of an optional string: [None] and the empty string are
    false. *)
Definition truthy (value : option string) : bool :=
  match value with
  | Some (String _ _) => true
  | _ => false
  end.

(** The items that one pass of the endpoint loop adds: none when the
    endpoint raises. *)
Definition extend_with (fetched : Result (list NewsItem)) : list NewsItem :=
  match fetched with
  | inr items => items
  | inl _ => []
  end.

Definition fetch_cybersecurity_news (env : Env) (max_items : Z) : list NewsItem :=
  if flask_env_production env then []
  else if negb (truthy (news_api_key env)) then _get_mock_news_items (now env) max_items
  else
    let all_items :=
      extend_with (_fetch_everything_endpoint env (max_items / 3))
      ++ extend_with (_fetch_top_headlines_endpoint env (max_items / 3))
      ++ extend_with (_fetch_sources_endpoint env (max_items / 3)) in
    slice_to max_items (_filter_cybersecurity_content all_items).

End NewsAPI.

(* ===================================================================== *)
(** * tools/reddit_api.py *)
(* ===================================================================== *)

Module RedditAPI.
Import Py NewsAgent.

Definition subreddits : list string :=
  ["cybersecurity"; "netsec"; "security"; "malware"; "AskNetsec";
   "ComputerSecurity"; "cyber"; "infosec"; "hacking"; "privacy"].

Definition cyber_keywords : list string :=
  ["cyberattack"; "ransomware"; "malware"; "phishing"; "breach";
   "vulnerability"; "exploit"; "cve"; "zero-day"; "apt";
   "threat"; "security"; "infosec"; "cybersecurity"; "hack";
   "data breach"; "incident response"; "SOC"; "SIEM"; "firewall";
   "intrusion"; "backdoor"; "trojan"; "botnet"; "DDoS"].

Definition related (post : NewsItem) : bool := NewsAPI.mentions cyber_keywords post.

(** One iteration of the loop of [_filter_cybersecurity_content], on the
    pair [(seen_titles, filtered_posts)]: the title is recorded before the
    keywords are looked for. *)
Definition filter_step (acc : gset string * list NewsItem) (post : NewsItem)
  : gset string * list NewsItem :=
  let '(seen_titles, filtered_posts) := acc in
  if decide (title_key post ∈ seen_titles) then acc
  else ({[ title_key post ]} ∪ seen_titles,
        if related post then filtered_posts ++ [post] else filtered_posts).

Definition _filter_cybersecurity_content (posts : list NewsItem) : list NewsItem :=
  snd (foldl filter_step (∅, []) posts).

Definition mock_posts : list NewsAPI.MockData :=
  [ {| NewsAPI.mock_title := "New Ransomware Campaign Targeting Healthcare Organizations";
       NewsAPI.mock_content := "Security researchers have identified a new ransomware variant specifically targeting healthcare systems. The malware uses sophisticated encryption and demands payment in cryptocurrency.";
       NewsAPI.mock_source := "Reddit r/cybersecurity";
       NewsAPI.mock_category := "Latest Attacks"; NewsAPI.mock_severity := "High" |};
    {| NewsAPI.mock_title := "Zero-Day Vulnerability Found in Popular VPN Software";
       NewsAPI.mock_content := "A critical zero-day vulnerability has been discovered in a widely-used VPN application that could allow remote code execution.";
       NewsAPI.mock_source := "Reddit r/netsec";
       NewsAPI.mock_category := "Vulnerabilities"; NewsAPI.mock_severity := "High" |};
    {| NewsAPI.mock_title := "Open Source SIEM Tool Released for Small Businesses";
       NewsAPI.mock_content := "A new open-source Security Information and Event Management (SIEM) solution has been released, designed specifically for small and medium businesses.";
       NewsAPI.mock_source := "Reddit r/security";
       NewsAPI.mock_category := "New Tools"; NewsAPI.mock_severity := "Low" |};
    {| NewsAPI.mock_title := "Phishing Campaign Uses AI-Generated Voice Messages";
       NewsAPI.mock_content := "Security researchers report a new phishing campaign that uses AI-generated voice messages to trick victims into revealing sensitive information.";
       NewsAPI.mock_source := "Reddit r/malware";
       NewsAPI.mock_category := "Threat Intelligence"; NewsAPI.mock_severity := "Medium" |};
    {| NewsAPI.mock_title := "GDPR Compliance Checklist for Small Businesses";
       NewsAPI.mock_content := "A comprehensive guide to help small businesses understand and implement GDPR compliance requirements.";
       NewsAPI.mock_source := "Reddit r/privacy";
       NewsAPI.mock_category := "General"; NewsAPI.mock_severity := "Low" |} ].

Definition _get_mock_posts (now : nat → datetime) (max_items : Z) : list NewsItem :=
  imap (λ i mock_data,
          {| title := NewsAPI.mock_title mock_data;
             content := NewsAPI.mock_content mock_data;
             url := "https://reddit.com/r/cybersecurity/comments/mock" +:+ pretty (i + 1);
             source := NewsAPI.mock_source mock_data;
             published_at := NewsAPI.hours_before (now i) i;
             category := NewsAPI.mock_category mock_data;
             severity := NewsAPI.mock_severity mock_data;
             tags := ["reddit"; "mock"; "cybersecurity"];
             summary := EmptyString |})
       (slice_to max_items mock_posts).

(** The credentials and the mutable token state of a [RedditAPITool]. *)
Record RedditAPITool : Type := {
  client_id : option string;
  client_secret : option string;
  access_token : option string;
  token_expires : option datetime
}.

(** What the token request does: it raises, or its JSON answer holds (or
    lacks) a token and a lifetime in seconds. *)
Inductive AuthOutcome : Type :=
| AuthRaised
| AuthJson (token : option string) (expires_in : option Z).

(** [now + timedelta(seconds=seconds)] *)
Definition seconds_after (now : datetime) (seconds : Z) : datetime :=
  {| wall_clock := wall_clock now + seconds * 1000000; tzinfo := tzinfo now |}.

Definition _get_access_token (auth : AuthOutcome) (now : datetime) (self : RedditAPITool)
  : option string * RedditAPITool :=
  if negb (NewsAPI.truthy (client_id self)) || negb (NewsAPI.truthy (client_secret self))
  then (None, self)
  else
    match auth with
    | AuthRaised => (None, self)
    | AuthJson token expires_in =>
        let expires_in := default 3600%Z expires_in in
        (token,
         {| client_id := client_id self; client_secret := client_secret self;
            access_token := token;
            token_expires := Some (seconds_after now (expires_in - 60)) |})
    end.

Definition _is_token_valid (now : datetime) (self : RedditAPITool) : bool :=
  match token_expires self with
  | Some expires =>
      NewsAPI.truthy (access_token self) && (wall_clock now <? wall_clock expires)%Z
  | None => false
  end.

(** The clock readings of the validity check, of the token request and of
    the mock posts, the token request and the subreddit listing (which
    returns its posts or raises). *)
Record Env : Type := {
  now_check : datetime;
  now_auth : datetime;
  now_mock : nat → datetime;
  auth : AuthOutcome;
  _fetch_subreddit_posts : string → Z → Result (list NewsItem)
}.

(** The [try] block of [fetch_cybersecurity_posts]. *)
Definition fetch_listed (env : Env) (max_items : Z) : list NewsItem :=
  let listed := take 5 subreddits in
  let all_posts :=
    concat ((λ subreddit,
               NewsAPI.extend_with
                 (_fetch_subreddit_posts env subreddit
                    (max_items / Z.of_nat (length listed)))) <$> listed) in
  slice_to max_items (_filter_cybersecurity_content all_posts).

Definition fetch_cybersecurity_posts (env : Env) (self : RedditAPITool) (max_items : Z)
  : list NewsItem * RedditAPITool :=
  if _is_token_valid (now_check env) self then (fetch_listed env max_items, self)
  else
    let '(token, self') := _get_access_token (auth env) (now_auth env) self in
    if NewsAPI.truthy token then (fetch_listed env max_items, self')
    else (_get_mock_posts (now_mock env) max_items, self').

End RedditAPI.

(* ===================================================================== *)
(** * tools/web_scraper.py *)
(* ===================================================================== *)

Module WebScraper.
Import Py NewsAgent.

Definition rss_feeds : list string :=
  ["https://krebsonsecurity.com/feed/";
   "https://feeds.feedburner.com/SecurityWeek";
   "https://feeds.feedburner.com/TheHackersNews";
   "https://www.bleepingcomputer.com/feed/";
   "https://feeds.feedburner.com/eset/blog";
   "https://www.schneier.com/feed/";
   "https://feeds.feedburner.com/securityweek";
   "https://www.csoonline.com/index.rss"].

Definition scraping_targets : list string :=
  ["https://krebsonsecurity.com"; "https://thehackernews.com";
   "https://www.bleepingcomputer.com"].

Definition cyber_keywords : list string :=
  ["cyberattack"; "ransomware"; "malware"; "phishing"; "breach";
   "vulnerability"; "exploit"; "CVE"; "zero-day"; "APT";
   "threat"; "security"; "infosec"; "cybersecurity"; "hack";
   "data breach"; "incident response"; "SOC"; "SIEM"; "firewall";
   "intrusion"; "backdoor"; "trojan"; "botnet"; "DDoS"].

Definition related (item : NewsItem) : bool := NewsAPI.mentions cyber_keywords item.

(** One iteration of the loop of [_filter_cybersecurity_content]. *)
Definition filter_step (filtered_items : list NewsItem) (item : NewsItem)
  : list NewsItem :=
  if related item then filtered_items ++ [item] else filtered_items.

Definition _filter_cybersecurity_content (items : list NewsItem) : list NewsItem :=
  foldl filter_step [] items.

(** [re.sub(r'\s+', ' ', content)]: every maximal run of white space becomes
    one space; [in_run] tells that the previous character was white space. *)
Fixpoint collapse_go (in_run : bool) (content : string) : string :=
  match content with
  | EmptyString => EmptyString
  | String c rest =>
      if isspace c then
        if in_run then collapse_go true rest
        else String " " (collapse_go true rest)
      else String c (collapse_go false rest)
  end.

Definition collapse (content : string) : string := collapse_go false content.

(** No white space but single spaces: [after_space] tells that the previous
    character was a space. *)
Fixpoint single_spaced (after_space : bool) (content : string) : bool :=
  match content with
  | EmptyString => true
  | String c rest =>
      if isspace c then negb after_space && Ascii.eqb c " " && single_spaced true rest
      else single_spaced false rest
  end.

(** The characters that are not white space. *)
Fixpoint visible (content : string) : string :=
  match content with
  | EmptyString => EmptyString
  | String c rest => if isspace c then visible rest else String c (visible rest)
  end.

(** What fetching and parsing an article page gives: an exception, or the
    text of the element found by the first content selector that matches and
    the text of the body, each if there is one. *)
Inductive PageOutcome : Type :=
| PageRaised
| PageTexts (selected : option string) (body : option string).

Definition _get_article_content (page : PageOutcome) : string :=
  match page with
  | PageRaised => EmptyString
  | PageTexts selected body =>
      let content :=
        match selected with
        | Some text => strip text
        | None => EmptyString
        end in
      let content :=
        match content, body with
        | EmptyString, Some text => strip text
        | _, _ => content
        end in
      str_take 2000 (collapse content)
  end.

(** An entry of a parsed feed: the values of its four keys, if present. *)
Record Entry : Type := {
  entry_title : option string;
  entry_summary : option string;
  entry_link : option string;
  entry_published : option string
}.

Inductive FeedOutcome : Type :=
| FeedRaised
| FeedEntries (entries : list Entry).

(** An article found on a site and the page behind its address. *)
Record Article : Type := {
  article_title : string;
  article_url : string;
  article_published_at : datetime;
  article_page : PageOutcome
}.

Inductive SiteOutcome : Type :=
| SiteRaised
| SiteArticles (articles : list Article).

(** The network and the date parser. *)
Record Env : Type := {
  parse : string → FeedOutcome;
  _parse_date : string → datetime;
  site : string → SiteOutcome
}.

Definition get (value : option string) : string := default EmptyString value.

(** The body of the loop over the entries of a feed. *)
Definition entry_item (env : Env) (feed_url : string) (entry : Entry) : option NewsItem :=
  let title := strip (get (entry_title entry)) in
  let content := strip (get (entry_summary entry)) in
  let url := get (entry_link entry) in
  let published_at := _parse_date env (get (entry_published entry)) in
  match title, url with
  | String _ _, String _ _ =>
      Some {| title := title; content := content; url := url; source := feed_url;
              published_at := published_at; category := "General";
              severity := "Medium"; tags := []; summary := EmptyString |}
  | _, _ => None
  end.

Definition feed_items (env : Env) (feed_url : string) : list NewsItem :=
  match parse env feed_url with
  | FeedRaised => []
  | FeedEntries entries => omap (entry_item env feed_url) (take 5 entries)
  end.

Definition _scrape_rss_feeds (env : Env) (max_items : Z) : list NewsItem :=
  slice_to max_items (concat (feed_items env <$> rss_feeds)).

Definition article_item (site_url : string) (article : Article) : NewsItem :=
  {| title := article_title article;
     content := _get_article_content (article_page article);
     url := article_url article; source := site_url;
     published_at := article_published_at article; category := "General";
     severity := "Medium"; tags := []; summary := EmptyString |}.

Definition site_items (env : Env) (site_url : string) : list NewsItem :=
  match site env site_url with
  | SiteRaised => []
  | SiteArticles articles => article_item site_url <$> take 3 articles
  end.

Definition _scrape_direct_sites (env : Env) (max_items : Z) : list NewsItem :=
  slice_to max_items (concat (site_items env <$> scraping_targets)).

Definition scrape_cyber_sites (env : Env) (max_items : Z) : list NewsItem :=
  let rss_items := _scrape_rss_feeds env (max_items / 2) in
  let direct_items := _scrape_direct_sites env (max_items / 2) in
  let filtered_items := _filter_cybersecurity_content (rss_items ++ direct_items) in
  slice_to max_items filtered_items.

(** An item as both scrapers create it. *)
Definition unclassified (item : NewsItem) : Prop :=
  category item = "General" ∧ severity item = "Medium" ∧ tags item = []
  ∧ summary item = EmptyString.

End WebScraper.

(* ===================================================================== *)
(** * app.py (search and export) and the daily job *)
(* ===================================================================== *)

Module AppPages.
Import Py NewsAgent ReportGenerator App.

(** [/search]: the results handed to the template. *)
Definition search (cache : NewsCache) (query : string) : list NewsItem :=
  match query, cache_data cache with
  | String _ _, Some data => search_news query (news_items data)
  | _, _ => []
  end.

(** [/api/search]: the status code and, with 200, the results and their
    number. *)
Definition api_search (cache : NewsCache) (query : string)
  : nat * option (list NewsItem * nat) :=
  match query with
  | EmptyString => (400, None)
  | String _ _ =>
      match cache_data cache with
      | None => (404, None)
      | Some data =>
          let results := search_news query (news_items data) in
          (200, Some (results, length results))
      end
  end.

(** What a page handler answers: a redirect to the dashboard with a flashed
    message, or the rendered e-mail. *)
Inductive Page : Type :=
| Redirect (flashed : string)
| Rendered (email_data : Email).

(** [/export/email] *)
Definition export_email (tpl : EmailTemplate) (clock : Clock) (cache : NewsCache)
  : Page :=
  match cache_data cache with
  | None => Redirect "No news data available for email summary."
  | Some data =>
      match generate_email_summary tpl clock (news_items data) with
      | inr email_data => Rendered email_data
      | inl _ => Redirect "Error generating email summary."
      end
  end.

(** [/api/refresh]: the new cache and the state of the classifier. *)
Definition api_refresh {S} (tools : Tools S) (stamp_now : datetime) (st : S)
    (cache : NewsCache) : NewsCache * S :=
  let '(result, st') := run_full_pipeline tools st 50 in
  ({| cache_data := Some result; cache_timestamp := Some stamp_now;
      cache_duration := cache_duration cache |}, st').

(** [_daily_notification_job] of the notification service: the collected
    items are sent as they are. *)
Definition _daily_notification_job {S} (tools : Tools S) (tpl : EmailTemplate)
    (clock : Clock) (text : Delivery.WebhookText) (channels : Delivery.Channels)
    (net : Delivery.Network) (subscribers : gset string) : Delivery.Outcome :=
  let news_items := collect_news tools 20 in
  Delivery.send_daily_notification tpl clock text channels net subscribers news_items.

(** The template filters for the severity badge and the category icon. *)
Definition colors : gmap string string :=
  <["High" := "text-red-600 bg-red-100"]>
    (<["Medium" := "text-yellow-600 bg-yellow-100"]>
       (<["Low" := "text-green-600 bg-green-100"]> ∅)).

Definition severity_color_filter (severity : string) : string :=
  default "text-gray-600 bg-gray-100" (colors !! severity).

Definition icons : gmap string string :=
  <["Latest Attacks" := "fas fa-bomb"]>
    (<["Vulnerabilities" := "fas fa-bug"]>
       (<["New Tools" := "fas fa-tools"]>
          (<["Threat Intelligence" := "fas fa-eye"]>
             (<["General" := "fas fa-shield-alt"]> ∅)))).

Definition category_icon_filter (category : string) : string :=
  default "fas fa-shield-alt" (icons !! category).

End AppPages.

(* ===================================================================== *)
(** * Predicates of the data model *)
(* ===================================================================== *)

Module Invariants.
Import Summarizer NewsAgent.

(** An analysis within the data model: one of the five categories, one of
    the three severities, at most five tags. *)
Definition well_formed (a : Analysis) : Prop :=
  a_category a ∈ category_labels
  ∧ a_severity a ∈ severity_levels
  ∧ length (a_tags a) ≤ 5.

(** The analysis of a call comes from the JSON object of a model response. *)
Definition from_json (env : CallEnv) (self : SummarizerTool) : Prop :=
  flask_env_production env = false
  ∧ use_gemini self = true
  ∧ ∃ text j, gemini env = GeminiText text (Some j).

(** The failure of a call on the primary path is a quota failure. *)
Definition quota_failure (env : CallEnv) (self : SummarizerTool) : Prop :=
  flask_env_production env = false
  ∧ use_gemini self = true
  ∧ ∃ error_msg, gemini env = GeminiRaised error_msg ∧ is_quota_error error_msg = true.

End Invariants.

(* ===================================================================== *)
(** * Sample data *)
(* ===================================================================== *)

Module Samples.
Import Py Summarizer NewsAgent.

Definition epoch : datetime := {| wall_clock := 0; tzinfo := None |}.

(** An item as the connectors create it, before classification. *)
Definition story (title content : string) : NewsItem :=
  {| title := title; content := content; url := "https://example.com";
     source := "Example"; published_at := epoch; category := "General";
     severity := "Medium"; tags := []; summary := EmptyString |}.

Definition ransomware_story : NewsItem :=
  story "Ransomware Hits Hospital" "A ransomware attack disrupted care. Systems were restored".

Definition ransomware_story_again : NewsItem :=
  story "  RANSOMWARE hits hospital " "Duplicate report".

Definition patch_story : NewsItem :=
  story "New Patch Released" "The vendor fixes a ransomware-adjacent bug".

Definition conference_story : NewsItem :=
  story "Conference News" "Registration opens".

(** A model response whose JSON object names a severity outside the three
    tiers. *)
Definition critical_json : JsonAnalysis :=
  {| j_summary := Some "Hospital hit by ransomware";
     j_category := Some "Latest Attacks";
     j_severity := Some "Critical";
     j_tags := Some ["ransomware"] |}.

Definition answering : CallEnv :=
  {| flask_env_production := false;
     gemini := GeminiText "{...}" (Some critical_json) |}.

Definition out_of_quota : CallEnv :=
  {| flask_env_production := false;
     gemini := GeminiRaised "429 Resource has been exhausted (e.g. check quota)." |}.

Definition fresh_session : Session :=
  {| tool := Summarizer.init (Some "key"); calls := 0 |}.

Definition digest_stub (items : list NewsItem) : Result string := ret "digest".

(** An agent whose three connectors return the stories above and whose
    generative service answers every call with [critical_json]. *)
Definition answering_tools : Tools Session :=
  {| fetch_cybersecurity_news := λ _, ret [ransomware_story; patch_story];
     scrape_cyber_sites := λ _, ret [ransomware_story_again];
     fetch_cybersecurity_posts := λ _, ret [conference_story];
     summarizer := session_analyzer (λ _, answering);
     report_daily_digest := digest_stub;
     now := "2024-01-01T09:00:00" |}.

Definition all_stories : list NewsItem :=
  [ransomware_story; patch_story; ransomware_story_again; conference_story].

(** An analyser that raises on every item whose title is empty and applies
    the rules to the others. *)
Definition picky_analyzer : Analyzer unit :=
  λ st item,
    if decide (title item = EmptyString) then (raise (Exception "no title"), st)
    else (ret (_analyze_with_rules item), st).

Definition untitled_story : NewsItem := story EmptyString "Untitled breach report".

Definition production : CallEnv :=
  {| flask_env_production := true; gemini := GeminiRaised "unused" |}.

(** The same agent with rule-based classification forced by the
    environment switch. *)
Definition production_tools : Tools Session :=
  {| fetch_cybersecurity_news := fetch_cybersecurity_news answering_tools;
     scrape_cyber_sites := scrape_cyber_sites answering_tools;
     fetch_cybersecurity_posts := fetch_cybersecurity_posts answering_tools;
     summarizer := session_analyzer (λ _, production);
     report_daily_digest := digest_stub;
     now := "2024-01-01T09:00:00" |}.

Definition long_story : NewsItem :=
  story "Weekly review" "Hello world. A breach and attack. Another attack. x".

Definition critical_story : NewsItem :=
  {| title := "Outage"; content := "Details follow"; url := "https://example.com";
     source := "Example"; published_at := epoch; category := "General";
     severity := "Critical"; tags := []; summary := EmptyString |}.

(** A template with short markers for the static text. *)
Definition plain_template : ReportGenerator.EmailTemplate :=
  {| ReportGenerator.icon_urgent := "!"; ReportGenerator.icon_medium := "*";
     ReportGenerator.icon_digest := "#";
     ReportGenerator.page_open := "<html>"; ReportGenerator.page_after_greeting := ". ";
     ReportGenerator.page_after_intro := " Total: ";
     ReportGenerator.page_after_total := " High: ";
     ReportGenerator.page_after_high := " Medium: ";
     ReportGenerator.page_after_medium := " Low: ";
     ReportGenerator.page_after_low := ". "; ReportGenerator.article_open := "<a href='";
     ReportGenerator.article_after_url := "'>";
     ReportGenerator.article_after_title := "</a> ";
     ReportGenerator.article_after_summary := " - ";
     ReportGenerator.article_after_source := " <span class='";
     ReportGenerator.article_after_class := "'>";
     ReportGenerator.article_close := "</span>";
     ReportGenerator.footer_open := " Generated on ";
     ReportGenerator.footer_close := "</html>" |}.

Definition nine_o_clock : ReportGenerator.Clock :=
  {| ReportGenerator.current_hour := 9;
     ReportGenerator.generated_on := "January 01, 2024 at 09:00 AM" |}.

(** An agent whose second connector lets an exception escape. *)
Definition failing_tools : Tools Session :=
  {| fetch_cybersecurity_news := fetch_cybersecurity_news answering_tools;
     scrape_cyber_sites := λ _, raise (Exception "connection reset");
     fetch_cybersecurity_posts := fetch_cybersecurity_posts answering_tools;
     summarizer := session_analyzer (λ _, answering);
     report_daily_digest := digest_stub;
     now := "2024-01-01T09:00:00" |}.

(** A cache filled at the epoch, and a clock three days and half an hour
    later. *)
Definition old_cache (result : PipelineResult) : App.NewsCache :=
  {| App.cache_data := Some result; App.cache_timestamp := Some epoch;
     App.cache_duration := 3600 |}.

Definition three_days_later : datetime :=
  {| wall_clock := 3 * 86400000000 + 1800000000; tzinfo := None |}.

(** A report generator whose service is out of quota, and an agent that
    uses it for its digest. *)
Definition digest_out_of_quota : ReportDigest.DigestEnv :=
  {| ReportDigest.flask_env_production := false;
     ReportDigest.gemini :=
       ReportDigest.DigestRaised "429 Resource has been exhausted (e.g. check quota)." |}.

Definition digest_enabled : ReportDigest.ReportGeneratorTool :=
  {| ReportDigest.use_gemini := true |}.

Definition digest_tools : Tools Session :=
  {| fetch_cybersecurity_news := fetch_cybersecurity_news answering_tools;
     scrape_cyber_sites := scrape_cyber_sites answering_tools;
     fetch_cybersecurity_posts := fetch_cybersecurity_posts answering_tools;
     summarizer := session_analyzer (λ _, production);
     report_daily_digest :=
       λ news_items,
         fst (ReportDigest.generate_daily_digest digest_out_of_quota digest_enabled
                news_items);
     now := "2024-01-01T09:00:00" |}.

(** Classified items of the three tiers, published at the given hour. *)
Definition graded (title severity : string) (hour : Z) : NewsItem :=
  {| title := title; content := "Details follow"; url := "https://example.com";
     source := "Example";
     published_at := {| wall_clock := hour * 3600000000; tzinfo := None |};
     category := "General"; severity := severity; tags := [];
     summary := EmptyString |}.

Definition low_story : NewsItem := graded "Guidance updated" "Low" 3.
Definition high_story : NewsItem := graded "Zero-day exploited" "High" 1.
Definition medium_story : NewsItem := graded "Flaw disclosed" "Medium" 2.
Definition late_high_story : NewsItem := graded "Hospital breached" "High" 4.

(** Short markers for the pictographs of the webhook text. *)
Definition plain_webhook_text : Delivery.WebhookText :=
  {| Delivery.alert_icon := "!"; Delivery.statistics_icon := "#";
     Delivery.link_icon := "@"; Delivery.stories_icon := "*";
     Delivery.bullet := "-"; Delivery.app_url := "http://localhost:5000";
     Delivery.posted_at := "2024-01-01T09:00:00" |}.

Definition all_channels : Delivery.Channels :=
  {| Delivery.email_configured := true; Delivery.webhook_configured := true |}.

Definition working_network : Delivery.Network :=
  {| Delivery.smtp_session := true; Delivery.webhook_accepts := true |}.

(** Two posts of one title: an announcement without a keyword, then a
    report of an incident. *)
Definition conference_incident : NewsItem :=
  story "conference news" "Ransomware spread at the conference".

(** A News API connector without a key, a scraper without network and a
    Reddit connector without credentials. *)
Definition offline_news : NewsAPI.Env :=
  {| NewsAPI.flask_env_production := false; NewsAPI.news_api_key := None;
     NewsAPI._fetch_everything_endpoint := λ _, raise (Exception "offline");
     NewsAPI._fetch_top_headlines_endpoint := λ _, raise (Exception "offline");
     NewsAPI._fetch_sources_endpoint := λ _, raise (Exception "offline");
     NewsAPI.now := λ _, epoch |}.

Definition offline_web : WebScraper.Env :=
  {| WebScraper.parse := λ _, WebScraper.FeedRaised;
     WebScraper._parse_date := λ _, epoch;
     WebScraper.site := λ _, WebScraper.SiteRaised |}.

Definition offline_posts : RedditAPI.Env :=
  {| RedditAPI.now_check := epoch; RedditAPI.now_auth := epoch;
     RedditAPI.now_mock := λ _, epoch; RedditAPI.auth := RedditAPI.AuthRaised;
     RedditAPI._fetch_subreddit_posts := λ _ _, raise (Exception "offline") |}.

Definition no_credentials : RedditAPI.RedditAPITool :=
  {| RedditAPI.client_id := None; RedditAPI.client_secret := None;
     RedditAPI.access_token := None; RedditAPI.token_expires := None |}.

(** A Reddit connector with credentials and no token yet, and a token
    request that grants a token for one hour. *)
Definition with_credentials : RedditAPI.RedditAPITool :=
  {| RedditAPI.client_id := Some "id"; RedditAPI.client_secret := Some "secret";
     RedditAPI.access_token := None; RedditAPI.token_expires := None |}.

Definition granting_posts : RedditAPI.Env :=
  {| RedditAPI.now_check := epoch; RedditAPI.now_auth := epoch;
     RedditAPI.now_mock := λ _, epoch;
     RedditAPI.auth := RedditAPI.AuthJson (Some "token") (Some 3600%Z);
     RedditAPI._fetch_subreddit_posts := λ _ _, ret [ransomware_story] |}.

(** The agent over the three connectors above. *)
Definition offline_tools : Tools Session :=
  {| fetch_cybersecurity_news :=
       λ n, ret (NewsAPI.fetch_cybersecurity_news offline_news n);
     scrape_cyber_sites := λ n, ret (WebScraper.scrape_cyber_sites offline_web n);
     fetch_cybersecurity_posts :=
       λ n, ret (fst (RedditAPI.fetch_cybersecurity_posts offline_posts
                        no_credentials n));
     summarizer := session_analyzer (λ _, production);
     report_daily_digest := digest_stub;
     now := "2024-01-01T09:00:00" |}.

(** A cache holding the run of the agent whose generative service answers
    with a severity outside the three tiers. *)
Definition critical_cache : App.NewsCache :=
  fst (AppPages.api_refresh answering_tools epoch fresh_session App.initial_cache).

Definition two_subscribers : Notification.NotificationService :=
  Notification.run [Notification.Add " Alice@Example.com"; Notification.Add "bob@example.com"]
    (Notification.init Notification.NoFile).

End Samples.

(* ===================================================================== *)
(** * Properties *)
(* ===================================================================== *)

Import Py Summarizer NewsAgent.

(** Splits a membership in a literal list into its cases. *)
Ltac list_cases H :=
  repeat (apply elem_of_cons in H as [->|H]); [..|by apply elem_of_nil in H].

(** Decides a membership in a literal list of labels. *)
Ltac label_member := rewrite !elem_of_cons; tauto.

(* --------------------------------------------------------------------- *)
(** ** Python built-ins *)
(* --------------------------------------------------------------------- *)

Lemma prefix_spec (k s : string) :
  String.prefix k s = true ↔ ∃ rest, s = k +:+ rest.
Proof.
  revert s. induction k as [|c k IH]; intros s.
  - split; [by exists s | by destruct s].
  - destruct s as [|d s]; cbn; [split; [done | by intros [? ?]]|].
    destruct (Ascii.ascii_dec c d) as [->|Hne].
    + rewrite IH. split; intros [rest Hrest]; exists rest.
      * by rewrite Hrest.
      * cbn in Hrest. by injection Hrest.
    + split; [done|]. intros [rest Hrest]. cbn in Hrest. injection Hrest. congruence.
Qed.

(** The test [k in s] decides whether [k] is a substring of [s]. *)
Lemma contains_spec (k s : string) :
  contains k s = true ↔ substring_of k s.
Proof.
  unfold substring_of. induction s as [|c s IH]; cbn [contains].
  - rewrite orb_false_r, prefix_spec. split.
    + intros [rest Hrest]. by exists EmptyString, rest.
    + intros (before & after & Heq). destruct before; [by exists after|done].
  - rewrite orb_true_iff, prefix_spec, IH. split.
    + intros [[rest Hrest]|(before & after & Heq)].
      * by exists EmptyString, rest.
      * exists (String c before), after. cbn. by rewrite Heq.
    + intros (before & after & Heq). destruct before as [|d before].
      * left. by exists after.
      * right. cbn in Heq. injection Heq as _ Heq. by exists before, after.
Qed.

Lemma rev_app_append (a b s : string) :
  String.rev_app a b +:+ s = String.rev_app a (b +:+ s).
Proof. revert b. induction a as [|c a IH]; intros b; cbn; [done | by rewrite IH]. Qed.

Lemma rev_snoc (c : ascii) (cur s : string) :
  String.rev (String c cur) +:+ s = String.rev cur +:+ String c s.
Proof. unfold String.rev. cbn. by rewrite !rev_app_append. Qed.

Lemma split_go_cons (sep : string) (skip : nat) (cur s : string) :
  ∃ piece pieces, split_go sep skip cur s = piece :: pieces.
Proof.
  revert skip cur. induction s as [|c s IH]; intros skip cur; cbn [split_go];
    [by eexists _, _|].
  destruct skip as [|k]; [|apply IH].
  destruct (String.prefix sep (String c s)); [by eexists _, _ | apply IH].
Qed.

Lemma join_cons (sep piece : string) (pieces : list string) :
  pieces ≠ [] → join sep (piece :: pieces) = piece +:+ sep +:+ join sep pieces.
Proof. by destruct pieces. Qed.

Lemma split_join_dot_go (n : nat) : ∀ s cur,
  String.length s ≤ n →
  join ". " (split_go ". " 0 cur s) = String.rev cur +:+ s.
Proof.
  induction n as [|n IH]; intros s cur Hlen.
  - destruct s; [|cbn in Hlen; lia]. cbn. unfold String.rev.
    rewrite rev_app_append. done.
  - destruct s as [|c s]; [cbn; unfold String.rev; by rewrite rev_app_append|].
    cbn [split_go]. destruct (String.prefix ". " (String c s)) eqn:Hpre.
    + apply prefix_spec in Hpre as [rest Hrest]. cbn in Hrest.
      injection Hrest as -> ->.
      change (" " +:+ rest) with (String " " rest) in *.
      change (String.length ". " - 1) with 1. cbn [split_go].
      destruct (split_go_cons ". " 0 EmptyString rest) as (p & ps & Hps).
      rewrite join_cons by (by rewrite Hps). rewrite IH by (cbn in Hlen; lia).
      done.
    + rewrite IH by (cbn in Hlen; lia). apply rev_snoc.
Qed.

(** Joining the sentences of a text gives the text back. *)
Lemma split_join_dot (s : string) : join ". " (split ". " s) = s.
Proof. unfold split. by rewrite (split_join_dot_go (String.length s)). Qed.

(* --------------------------------------------------------------------- *)
(** ** Deduplication and collection *)
(* --------------------------------------------------------------------- *)

Section Dedup.

Implicit Types (l acc : list NewsItem) (seen : gset string) (κ : string).

Lemma dedup_loop_filter l : ∀ seen acc κ,
  filter (has_key κ) (snd (foldl dedup_step (seen, acc) l))
  = filter (has_key κ) acc
      ++ (if decide (κ ∈ seen) then [] else take 1 (filter (has_key κ) l)).
Proof.
  induction l as [|x l IH]; intros seen acc κ; cbn [foldl].
  - cbn. destruct (decide (κ ∈ seen)); by rewrite app_nil_r.
  - unfold dedup_step at 2.
    destruct (decide (title_key x ∈ seen)) as [Hin|Hnin].
    + rewrite IH. f_equal. destruct (decide (κ ∈ seen)) as [|Hκ]; [done|].
      rewrite filter_cons_False; [done|]. unfold has_key. congruence.
    + rewrite IH, filter_app, <- app_assoc. f_equal.
      destruct (decide (title_key x = κ)) as [Heq|Hne].
      * rewrite (filter_cons_True _ x []), filter_nil by done.
        rewrite decide_True by set_solver.
        rewrite decide_False by (subst; done).
        rewrite filter_cons_True by done. done.
      * rewrite (filter_cons_False _ x []), filter_nil by done.
        rewrite (filter_cons_False _ x l) by done. cbn [app].
        destruct (decide (κ ∈ seen)) as [Hκ|Hκ].
        -- rewrite decide_True; [done|]. apply elem_of_union. by right.
        -- rewrite decide_False; [done|].
           rewrite elem_of_union, elem_of_singleton. intros [?|?]; by subst.
Qed.

Lemma dedup_loop_sublist l : ∀ seen acc,
  ∃ kept, snd (foldl dedup_step (seen, acc) l) = acc ++ kept ∧ sublist kept l.
Proof.
  induction l as [|x l IH]; intros seen acc; cbn [foldl].
  - exists []. by rewrite app_nil_r.
  - unfold dedup_step at 2. destruct (decide (title_key x ∈ seen)).
    + destruct (IH seen acc) as (kept & -> & Hsub).
      exists kept. split; [done|]. by apply sublist_cons.
    + destruct (IH ({[title_key x]} ∪ seen) (acc ++ [x])) as (kept & -> & Hsub).
      exists (x :: kept). rewrite <- app_assoc. split; [done|].
      by apply sublist_skip.
Qed.

Lemma dedup_filter l κ :
  filter (has_key κ) (_deduplicate_news l) = take 1 (filter (has_key κ) l).
Proof.
  unfold _deduplicate_news. rewrite dedup_loop_filter.
  rewrite filter_nil, decide_False by set_solver. done.
Qed.

Lemma dedup_sublist l : sublist (_deduplicate_news l) l.
Proof.
  unfold _deduplicate_news.
  destruct (dedup_loop_sublist l ∅ []) as (kept & -> & Hsub). done.
Qed.

(** A list in which every key selects at most one element has distinct keys. *)
Lemma NoDup_keys_of_filter l :
  (∀ κ, length (filter (has_key κ) l) ≤ 1) → NoDup (title_key <$> l).
Proof.
  induction l as [|x l IH]; intros Hone; cbn; [constructor|].
  constructor.
  - intros Hin. apply list_elem_of_fmap in Hin as (y & Hy & Hyl).
    specialize (Hone (title_key x)).
    rewrite filter_cons_True in Hone by done. cbn in Hone.
    assert (y ∈ filter (has_key (title_key x)) l) as Hyf
      by (apply list_elem_of_filter; split; [by unfold has_key|done]).
    destruct (filter (has_key (title_key x)) l);
      [by apply elem_of_nil in Hyf | cbn in Hone; lia].
  - apply IH. intros κ. specialize (Hone κ).
    destruct (decide (has_key κ x)).
    + rewrite filter_cons_True in Hone by done. cbn in Hone. lia.
    + rewrite filter_cons_False in Hone by done. done.
Qed.

Lemma dedup_NoDup l : NoDup (title_key <$> _deduplicate_news l).
Proof.
  apply NoDup_keys_of_filter. intros κ. rewrite dedup_filter.
  rewrite length_take. lia.
Qed.

End Dedup.

Lemma slice_to_nonneg {A} (n : Z) (l : list A) :
  (0 ≤ n)%Z → slice_to n l = take (Z.to_nat n) l.
Proof. intros Hn. unfold slice_to. by rewrite (proj2 (Z.leb_le 0 n)). Qed.

Lemma collect_news_fetched {S} (tools : Tools S) max_items all_news :
  fetch_all tools max_items = inr all_news →
  collect_news tools max_items = slice_to max_items (_deduplicate_news all_news).
Proof. intros H. unfold collect_news. by rewrite H. Qed.

Lemma collect_news_failed {S} (tools : Tools S) max_items e :
  fetch_all tools max_items = inl e → collect_news tools max_items = [].
Proof. intros H. unfold collect_news. by rewrite H. Qed.

(** Whatever the connectors do, a run returns at most [max_items] items. *)
Lemma collect_news_length {S} (tools : Tools S) (max_items : Z) :
  (0 ≤ max_items)%Z →
  (Z.of_nat (length (collect_news tools max_items)) ≤ max_items)%Z.
Proof.
  intros Hnn. unfold collect_news. destruct (fetch_all tools max_items); cbn; [lia|].
  rewrite slice_to_nonneg, length_take by done. lia.
Qed.

(** The collected items are pairwise distinct: the batch loop that follows
    never meets the same item twice. *)
Lemma collect_news_NoDup {S} (tools : Tools S) (max_items : Z) :
  NoDup (collect_news tools max_items).
Proof.
  unfold collect_news. destruct (fetch_all tools max_items) as [e|all_news];
    [constructor|].
  assert (NoDup (_deduplicate_news all_news)) as Hnd
    by (eapply NoDup_fmap_1, dedup_NoDup).
  unfold slice_to. destruct (0 <=? max_items)%Z;
    (eapply sublist_NoDup; [done | apply sublist_take]).
Qed.

(** C2.  The key of the deduplication is the title, lower-cased and then
    trimmed of white space at both ends.  Deduplication keeps, for every such
    key, exactly the first item of the concatenated input carrying it (the
    item itself, so with its content), the kept items have pairwise distinct
    keys and appear in their input order; [collect_news] returns the first
    [max_items] of them, so at most [max_items] items ([max_items] being a
    count, that is, not negative). *)
Theorem collect_news_dedup_first_wins (all_news : list NewsItem) :
  let kept := _deduplicate_news all_news in
  (∀ item, title_key item = strip (lower (title item)))
  ∧ (∀ κ, filter (λ item, strip (lower (title item)) = κ) kept
          = take 1 (filter (λ item, strip (lower (title item)) = κ) all_news))
  ∧ (∀ x, x ∈ all_news →
       ∃ first,
         filter (λ item, strip (lower (title item)) = strip (lower (title x))) kept
         = [first]
         ∧ head (filter (λ item, strip (lower (title item)) = strip (lower (title x)))
                   all_news) = Some first)
  ∧ (∀ x, x ∈ all_news → length (filter (has_key (title_key x)) kept) = 1)
  ∧ NoDup ((λ item, strip (lower (title item))) <$> kept)
  ∧ (∀ i j x y, kept !! i = Some x → kept !! j = Some y →
       strip (lower (title x)) = strip (lower (title y)) → i = j)
  ∧ sublist kept all_news
  ∧ (∀ S (tools : Tools S) (max_items : Z),
       (0 ≤ max_items)%Z →
       fetch_all tools max_items = inr all_news →
       collect_news tools max_items = take (Z.to_nat max_items) kept
       ∧ (Z.of_nat (length (collect_news tools max_items)) ≤ max_items)%Z).
Proof.
  cbn zeta. split_and!.
  - done.
  - intros κ. exact (dedup_filter all_news κ).
  - intros x Hx. pose proof (dedup_filter all_news (title_key x)) as Hkept.
    assert (x ∈ filter (has_key (title_key x)) all_news) as Hf
      by (apply list_elem_of_filter; split; [done|done]).
    unfold has_key, title_key in Hkept, Hf.
    destruct (filter (λ item, strip (lower (title item)) = strip (lower (title x)))
                all_news) as [|first rest];
      [by apply elem_of_nil in Hf|].
    exists first. by rewrite Hkept.
  - intros x Hx. rewrite dedup_filter.
    assert (x ∈ filter (has_key (title_key x)) all_news) as Hf
      by (apply list_elem_of_filter; split; [done|done]).
    destruct (filter (has_key (title_key x)) all_news);
      [by apply elem_of_nil in Hf | done].
  - exact (dedup_NoDup all_news).
  - intros i j x y Hi Hj Hkey.
    eapply (NoDup_lookup _ i j (strip (lower (title x)))).
    + exact (dedup_NoDup all_news).
    + rewrite list_lookup_fmap, Hi. done.
    + rewrite list_lookup_fmap, Hj. cbn. by rewrite Hkey.
  - apply dedup_sublist.
  - intros S tools max_items Hnn Hfetch.
    rewrite (collect_news_fetched _ _ _ Hfetch), slice_to_nonneg by done.
    split; [done|]. rewrite length_take. lia.
Qed.

(* --------------------------------------------------------------------- *)
(** ** Search *)
(* --------------------------------------------------------------------- *)

Lemma search_loop (q : string) (l : list NewsItem) : ∀ acc,
  foldl (λ matching_items item,
           if query_matches q item then matching_items ++ [item] else matching_items)
        acc l
  = acc ++ filter (λ item, query_matches q item = true) l.
Proof.
  induction l as [|x l IH]; intros acc; cbn [foldl].
  - by rewrite filter_nil, app_nil_r.
  - rewrite IH. destruct (query_matches q x) eqn:Hx.
    + rewrite filter_cons_True by done. by rewrite <- app_assoc.
    + rewrite filter_cons_False by (rewrite Hx; done). done.
Qed.

Lemma query_matches_spec (q : string) (item : NewsItem) :
  query_matches q item = true ↔
    substring_of q (lower (title item))
    ∨ substring_of q (lower (content item))
    ∨ ∃ tag, tag ∈ tags item ∧ substring_of q (lower tag).
Proof.
  unfold query_matches. rewrite !orb_true_iff, existsb_exists.
  setoid_rewrite <- list_elem_of_In. setoid_rewrite contains_spec. tauto.
Qed.

(** C7.  [search_news] returns exactly the items in which the lower-cased
    query is a substring of the lower-cased title, of the lower-cased content
    or of some lower-cased tag, each as often as it occurs in the input and in
    the input order. *)
Theorem search_news_exact (query : string) (items : list NewsItem) :
  search_news query items
    = filter (λ item, query_matches (lower query) item = true) items
  ∧ (∀ item, item ∈ search_news query items ↔
       item ∈ items
       ∧ (substring_of (lower query) (lower (title item))
          ∨ substring_of (lower query) (lower (content item))
          ∨ ∃ tag, tag ∈ tags item ∧ substring_of (lower query) (lower tag)))
  ∧ sublist (search_news query items) items.
Proof.
  assert (search_news query items
          = filter (λ item, query_matches (lower query) item = true) items) as Heq.
  { unfold search_news. by rewrite search_loop. }
  split_and!; [done| |].
  - intros item. rewrite Heq, list_elem_of_filter, query_matches_spec. tauto.
  - rewrite Heq. apply sublist_filter.
Qed.

(* --------------------------------------------------------------------- *)
(** ** Category buckets *)
(* --------------------------------------------------------------------- *)

Section Buckets.

Implicit Types (l : list NewsItem) (m : gmap string (list NewsItem)) (k : string).

Lemma empty_buckets_inv : buckets_inv [] empty_buckets.
Proof.
  intros k. unfold empty_buckets, category_labels.
  destruct (decide (k ∈ _)) as [Hin|Hnin].
  - list_cases Hin; done.
  - rewrite !not_elem_of_cons in Hnin. destruct Hnin as (?&?&?&?&?&_).
    by rewrite !lookup_insert_ne, lookup_empty.
Qed.

Lemma General_label : "General" ∈ category_labels.
Proof. unfold category_labels. label_member. Qed.

Lemma bucket_of_label (x : NewsItem) : bucket_of x ∈ category_labels.
Proof. unfold bucket_of. case_decide; [done | apply General_label]. Qed.

Lemma categorize_step_alter m l x :
  buckets_inv l m →
  categorize_step m x = alter (λ bucket, bucket ++ [x]) (bucket_of x) m.
Proof.
  intros Hinv. unfold categorize_step, bucket_of.
  rewrite (Hinv (category x)).
  destruct (decide (category x ∈ category_labels)).
  - rewrite decide_True; [done | by eexists].
  - rewrite decide_False; [done | by intros [? ?]].
Qed.

Lemma categorize_step_inv m l x :
  buckets_inv l m → buckets_inv (l ++ [x]) (categorize_step m x).
Proof.
  intros Hinv k. rewrite (categorize_step_alter m l x Hinv), filter_app.
  destruct (decide (bucket_of x = k)) as [<-|Hne].
  - rewrite lookup_alter_eq, (Hinv (bucket_of x)).
    pose proof (bucket_of_label x). repeat case_decide; try done.
    by rewrite (filter_cons_True _ x []), filter_nil.
  - rewrite lookup_alter_ne, (Hinv k) by done.
    rewrite (filter_cons_False _ x []), filter_nil, app_nil_r by done. done.
Qed.

Lemma categorize_loop_inv l : ∀ done_items m,
  buckets_inv done_items m →
  buckets_inv (done_items ++ l) (foldl categorize_step m l).
Proof.
  induction l as [|x l IH]; intros done_items m Hinv; cbn [foldl].
  - by rewrite app_nil_r.
  - replace (done_items ++ x :: l) with ((done_items ++ [x]) ++ l)
      by (by rewrite <- app_assoc).
    apply IH. by apply categorize_step_inv.
Qed.

Lemma get_categorized_news_inv l : buckets_inv l (get_categorized_news l).
Proof. apply (categorize_loop_inv l [] empty_buckets), empty_buckets_inv. Qed.

(** Filtering by each of a list of distinct keys and concatenating gives
    back, up to order, the elements whose key is among them. *)
Lemma concat_filters_perm (f : NewsItem → string) (ks : list string) l :
  NoDup ks →
  concat ((λ k, filter (λ item, f item = k) l) <$> ks)
  ≡ₚ filter (λ item, f item ∈ ks) l.
Proof.
  intros Hnd. induction Hnd as [|k ks Hk Hnd IH]; cbn.
  - induction l as [|x l IHl]; [done|].
    rewrite filter_cons_False; [done | apply not_elem_of_nil].
  - rewrite IH. clear IH. induction l as [|x l IHl]; [done|].
    destruct (decide (f x = k)) as [Hx|Hx].
    + rewrite (filter_cons_True (λ item, f item = k)) by done.
      rewrite (filter_cons_False (λ item, f item ∈ ks)) by (rewrite Hx; done).
      rewrite (filter_cons_True (λ item, f item ∈ k :: ks))
        by (rewrite Hx, elem_of_cons; by left).
      cbn. by rewrite IHl.
    + rewrite (filter_cons_False (λ item, f item = k)) by done.
      destruct (decide (f x ∈ ks)) as [Hin|Hnin].
      * rewrite (filter_cons_True (λ item, f item ∈ ks)) by done.
        rewrite (filter_cons_True (λ item, f item ∈ k :: ks))
          by (rewrite elem_of_cons; by right).
        rewrite <- Permutation_middle. by rewrite IHl.
      * rewrite (filter_cons_False (λ item, f item ∈ ks)) by done.
        rewrite (filter_cons_False (λ item, f item ∈ k :: ks)); [done|].
        rewrite elem_of_cons. tauto.
Qed.

Lemma filter_all_true (P : NewsItem → Prop) `{!∀ x, Decision (P x)} l :
  (∀ x, P x) → filter P l = l.
Proof.
  intros HP. induction l as [|x l IH]; [done|].
  rewrite filter_cons_True by done. by rewrite IH.
Qed.

Lemma category_labels_NoDup : NoDup category_labels.
Proof. unfold category_labels. apply NoDup_ListNoDup. repeat constructor; cbn; intuition discriminate. Qed.

End Buckets.

(** C6.  [get_categorized_news] returns a mapping whose keys are exactly the
    five category labels; the bucket of a label holds, in input order, the
    items routed to it (their own category when it is a label, General
    otherwise); an item lies in no other bucket, and the buckets together
    hold every input item exactly once. *)
Theorem get_categorized_news_partition (items : list NewsItem) :
  let categorized := get_categorized_news items in
  dom categorized = list_to_set category_labels
  ∧ (∀ k, k ∈ category_labels →
       categorized !! k = Some (filter (λ item, bucket_of item = k) items))
  ∧ (∀ k bucket item,
       categorized !! k = Some bucket → item ∈ bucket →
       item ∈ items ∧ k = bucket_of item)
  ∧ (∀ item, bucket_of item =
       if decide (category item ∈ category_labels) then category item else "General")
  ∧ concat (buckets categorized) ≡ₚ items.
Proof.
  cbn zeta. pose proof (get_categorized_news_inv items) as Hinv.
  split_and!.
  - apply set_eq. intros k. rewrite elem_of_dom, elem_of_list_to_set, (Hinv k).
    case_decide; split; [done | by eexists | by intros [? ?] | done].
  - intros k Hk. by rewrite (Hinv k), decide_True.
  - intros k bucket item Hlook Hin. rewrite (Hinv k) in Hlook.
    case_decide; [|done]. injection Hlook as <-.
    apply list_elem_of_filter in Hin as [-> ?]. done.
  - done.
  - unfold buckets.
    assert ((λ k, default [] (get_categorized_news items !! k)) <$> category_labels
            = (λ k, filter (λ item, bucket_of item = k) items) <$> category_labels)
      as ->.
    { apply list_fmap_ext. intros i k Hk. rewrite (Hinv k), decide_True; [done|].
      by eapply list_elem_of_lookup_2. }
    rewrite concat_filters_perm by apply category_labels_NoDup.
    rewrite filter_all_true; [done | apply bucket_of_label].
Qed.

(* --------------------------------------------------------------------- *)
(** ** Severity statistics and the pipeline result *)
(* --------------------------------------------------------------------- *)

Section SeverityStats.

Implicit Types (l : list NewsItem) (m : gmap string nat) (k : string).

Lemma empty_stats_inv : stats_inv [] empty_stats.
Proof.
  intros k. unfold empty_stats, severity_levels.
  destruct (decide (k ∈ _)) as [Hin|Hnin].
  - list_cases Hin; done.
  - rewrite !not_elem_of_cons in Hnin. destruct Hnin as (?&?&?&_).
    by rewrite !lookup_insert_ne, lookup_empty.
Qed.

Lemma stats_step_inv m l x : stats_inv l m → stats_inv (l ++ [x]) (stats_step m x).
Proof.
  intros Hinv k. unfold stats_step. rewrite (Hinv (severity x)), filter_app, length_app.
  destruct (decide (severity x ∈ severity_levels)) as [Hx|Hx].
  - rewrite decide_True by (by eexists).
    destruct (decide (severity x = k)) as [<-|Hne].
    + rewrite lookup_alter_eq, (Hinv (severity x)).
      repeat case_decide; try done.
      rewrite (filter_cons_True _ x []), filter_nil by done. cbn. f_equal. lia.
    + rewrite lookup_alter_ne, (Hinv k) by done.
      rewrite (filter_cons_False _ x []), filter_nil by done. cbn.
      by rewrite Nat.add_0_r.
  - rewrite decide_False by (by intros [? ?]).
    rewrite (Hinv k). case_decide; [|done].
    rewrite (filter_cons_False _ x []), filter_nil by congruence. cbn.
    by rewrite Nat.add_0_r.
Qed.

Lemma stats_loop_inv l : ∀ done_items m,
  stats_inv done_items m → stats_inv (done_items ++ l) (foldl stats_step m l).
Proof.
  induction l as [|x l IH]; intros done_items m Hinv; cbn [foldl].
  - by rewrite app_nil_r.
  - replace (done_items ++ x :: l) with ((done_items ++ [x]) ++ l)
      by (by rewrite <- app_assoc).
    apply IH. by apply stats_step_inv.
Qed.

Lemma get_severity_stats_inv l : stats_inv l (get_severity_stats l).
Proof. apply (stats_loop_inv l [] empty_stats), empty_stats_inv. Qed.

(** The sum of the values of a three-key dictionary. *)
Lemma sum_values_three (a b c : string) (x y z : nat) :
  a ≠ b → a ≠ c → b ≠ c →
  sum_values (<[a := x]> (<[b := y]> (<[c := z]> ∅))) = x + y + z.
Proof.
  intros Hab Hac Hbc. unfold sum_values.
  rewrite map_fold_insert_L; [| intros; lia | by rewrite !lookup_insert_ne].
  rewrite map_fold_insert_L; [| intros; lia | by rewrite !lookup_insert_ne].
  rewrite map_fold_insert_L; [| intros; lia | done].
  rewrite map_fold_empty. lia.
Qed.

Lemma stats_inv_explicit l m :
  stats_inv l m →
  m = <["High" := length (filter (λ item, severity item = "High") l)]>
        (<["Medium" := length (filter (λ item, severity item = "Medium") l)]>
           (<["Low" := length (filter (λ item, severity item = "Low") l)]> ∅)).
Proof.
  intros Hinv. apply map_eq. intros k. rewrite (Hinv k).
  unfold severity_levels. destruct (decide (k ∈ _)) as [Hin|Hnin].
  - list_cases Hin; done.
  - rewrite !not_elem_of_cons in Hnin. destruct Hnin as (?&?&?&_).
    by rewrite !lookup_insert_ne, lookup_empty.
Qed.

Lemma known_severity_split l :
  length (filter (λ item, severity item = "High") l)
  + length (filter (λ item, severity item = "Medium") l)
  + length (filter (λ item, severity item = "Low") l)
  = length (filter known_severity l).
Proof.
  induction l as [|x l IH]; [done|].
  unfold known_severity, severity_levels in *.
  destruct (decide (severity x = "High")) as [H1|H1];
    [|destruct (decide (severity x = "Medium")) as [H2|H2];
      [|destruct (decide (severity x = "Low")) as [H3|H3]]].
  - rewrite (filter_cons_True (λ item, severity item = "High")) by done.
    rewrite (filter_cons_False (λ item, severity item = "Medium")) by (by rewrite H1).
    rewrite (filter_cons_False (λ item, severity item = "Low")) by (by rewrite H1).
    rewrite (filter_cons_True (λ item, severity item ∈ _))
      by (rewrite H1, !elem_of_cons; tauto).
    cbn. lia.
  - rewrite (filter_cons_False (λ item, severity item = "High")) by done.
    rewrite (filter_cons_True (λ item, severity item = "Medium")) by done.
    rewrite (filter_cons_False (λ item, severity item = "Low")) by (by rewrite H2).
    rewrite (filter_cons_True (λ item, severity item ∈ _))
      by (rewrite H2, !elem_of_cons; tauto).
    cbn. lia.
  - rewrite (filter_cons_False (λ item, severity item = "High")) by done.
    rewrite (filter_cons_False (λ item, severity item = "Medium")) by done.
    rewrite (filter_cons_True (λ item, severity item = "Low")) by done.
    rewrite (filter_cons_True (λ item, severity item ∈ _))
      by (rewrite H3, !elem_of_cons; tauto).
    cbn. lia.
  - rewrite (filter_cons_False (λ item, severity item = "High")) by done.
    rewrite (filter_cons_False (λ item, severity item = "Medium")) by done.
    rewrite (filter_cons_False (λ item, severity item = "Low")) by done.
    rewrite (filter_cons_False (λ item, severity item ∈ _)); [done|].
    rewrite !elem_of_cons. intros [?|[?|[?|Hn]]]; try done.
    by apply elem_of_nil in Hn.
Qed.

Lemma sum_severity_stats l :
  sum_values (get_severity_stats l) = length (filter known_severity l).
Proof.
  rewrite (stats_inv_explicit l _ (get_severity_stats_inv l)).
  rewrite sum_values_three by done. apply known_severity_split.
Qed.

Lemma length_filter_all (P : NewsItem → Prop) `{!∀ x, Decision (P x)} l :
  length (filter P l) = length l ↔ Forall P l.
Proof.
  split.
  - intros Hlen. apply Forall_forall. intros x Hx.
    destruct (decide (P x)) as [|Hn]; [done|].
    pose proof (length_filter_lt P l x Hx Hn). lia.
  - intros Hall. induction Hall as [|x l Hx Hall IH]; [done|].
    rewrite filter_cons_True by done. cbn. by rewrite IH.
Qed.

End SeverityStats.

Lemma run_full_pipeline_fields {S} (tools : Tools S) (st : S) (max_items : Z) :
  let analyzed := fst (analyze_and_categorize tools st (collect_news tools max_items)) in
  let r := fst (run_full_pipeline tools st max_items) in
  news_items r = analyzed
  ∧ categorized_news r = get_categorized_news analyzed
  ∧ severity_stats r = get_severity_stats analyzed
  ∧ total_items r = length analyzed.
Proof.
  cbn zeta. unfold run_full_pipeline.
  destruct (analyze_and_categorize tools st (collect_news tools max_items)); done.
Qed.

(** C1 (as amended).  In every result of [run_full_pipeline], [total_items]
    is the length of [news_items], and the three counts of [severity_stats]
    sum to the number of items whose severity is High, Medium or Low; the sum
    is therefore at most [total_items], and equal to it exactly when every
    item carries one of the three tiers. *)
Theorem pipeline_severity_sum {S} (tools : Tools S) (st : S) (max_items : Z) :
  let r := fst (run_full_pipeline tools st max_items) in
  total_items r = length (news_items r)
  ∧ severity_stats r = get_severity_stats (news_items r)
  ∧ dom (severity_stats r) = list_to_set severity_levels
  ∧ sum_values (severity_stats r) = length (filter known_severity (news_items r))
  ∧ sum_values (severity_stats r) ≤ total_items r
  ∧ (sum_values (severity_stats r) = total_items r
     ↔ Forall known_severity (news_items r)).
Proof.
  cbn zeta.
  destruct (run_full_pipeline_fields tools st max_items) as (-> & _ & -> & ->).
  set (analyzed := fst (analyze_and_categorize _ _ _)).
  split_and!; [done | done | | | |].
  - apply set_eq. intros k.
    rewrite elem_of_dom, elem_of_list_to_set, (get_severity_stats_inv analyzed k).
    case_decide; split; [done | by eexists | by intros [? ?] | done].
  - apply sum_severity_stats.
  - rewrite sum_severity_stats. apply length_filter.
  - rewrite sum_severity_stats. apply length_filter_all.
Qed.

(** C1, as stated, fails: a model response naming the severity "Critical" is
    passed through to the item, which no counter then counts. *)
Lemma pipeline_severity_sum_counterexample :
  let r := fst (run_full_pipeline Samples.answering_tools Samples.fresh_session 50) in
  severity <$> news_items r = ["Critical"; "Critical"; "Critical"]
  ∧ total_items r = 3
  ∧ sum_values (severity_stats r) = 0.
Proof.
  cbn zeta. split_and!; by vm_compute.
Qed.

(* --------------------------------------------------------------------- *)
(** ** Batch classification *)
(* --------------------------------------------------------------------- *)

Section Batch.

Context {St : Type} (analyze : Analyzer St).

Lemma batch_step_eq (acc : list NewsItem) (st : St) (x : NewsItem) :
  batch_step analyze (acc, st) x
  = (acc ++ [processed analyze st x], snd (analyze st x)).
Proof.
  unfold batch_step, processed. by destruct (analyze st x) as [[e|a] st'].
Qed.

Lemma batch_loop_acc (l : list NewsItem) : ∀ acc st,
  foldl (batch_step analyze) (acc, st) l
  = (acc ++ fst (batch_analyze analyze st l), snd (batch_analyze analyze st l)).
Proof.
  unfold batch_analyze.
  induction l as [|x l IH]; intros acc st; cbn [foldl].
  - cbn. by rewrite app_nil_r.
  - rewrite !batch_step_eq, (IH (acc ++ _)), (IH ([] ++ _)). cbn.
    by rewrite <- app_assoc.
Qed.

Lemma batch_analyze_cons (st : St) (x : NewsItem) (l : list NewsItem) :
  batch_analyze analyze st (x :: l)
  = (processed analyze st x :: fst (batch_analyze analyze (snd (analyze st x)) l),
     snd (batch_analyze analyze (snd (analyze st x)) l)).
Proof.
  unfold batch_analyze at 1. cbn [foldl]. rewrite batch_step_eq, batch_loop_acc. done.
Qed.

Lemma batch_analyze_length (l : list NewsItem) : ∀ st,
  length (fst (batch_analyze analyze st l)) = length l.
Proof.
  induction l as [|x l IH]; intros st; [done|].
  rewrite batch_analyze_cons. cbn. by rewrite IH.
Qed.

Lemma batch_analyze_lookup (l : list NewsItem) : ∀ st i item,
  l !! i = Some item →
  fst (batch_analyze analyze st l) !! i
  = Some (processed analyze (snd (batch_analyze analyze st (take i l))) item).
Proof.
  induction l as [|x l IH]; intros st i item Hi; [done|].
  rewrite batch_analyze_cons. destruct i as [|i].
  - injection Hi as ->. done.
  - change (take (S i) (x :: l)) with (x :: take i l).
    rewrite batch_analyze_cons. apply (IH _ i item Hi).
Qed.

Lemma processed_identity (st : St) (item : NewsItem) :
  identity_of (processed analyze st item) = identity_of item.
Proof. unfold processed. by destruct (fst (analyze st item)). Qed.

Lemma batch_analyze_identity (l : list NewsItem) : ∀ st,
  identity_of <$> fst (batch_analyze analyze st l) = identity_of <$> l.
Proof.
  induction l as [|x l IH]; intros st; [done|].
  rewrite batch_analyze_cons. cbn. by rewrite processed_identity, IH.
Qed.

End Batch.

(** C8.  Batch classification returns one item per input item, at the same
    position and with the same title, content, url, source and date; the item
    at a position is the input item updated with its analysis, or the input
    item itself, with every field as it was, when its analysis raised; the
    analyser goes on with the next item from the state the call left.  The
    loop of [analyze_and_categorize] is that of [batch_analyze]. *)
Theorem batch_keeps_failing_items {S} (analyze : Analyzer S) (st : S)
    (items : list NewsItem) :
  let out := fst (batch_analyze analyze st items) in
  length out = length items
  ∧ identity_of <$> out = identity_of <$> items
  ∧ (∀ i item, items !! i = Some item →
       let st_i := snd (batch_analyze analyze st (take i items)) in
       (∀ e, fst (analyze st_i item) = inl e → out !! i = Some item)
       ∧ (∀ analysis, fst (analyze st_i item) = inr analysis →
            out !! i = Some (update_item item analysis)))
  ∧ (∀ tools : Tools S,
       summarizer tools = analyze →
       analyze_and_categorize tools st items = batch_analyze analyze st items).
Proof.
  cbn zeta. split_and!.
  - apply batch_analyze_length.
  - apply batch_analyze_identity.
  - intros i item Hi.
    rewrite (batch_analyze_lookup analyze items st i item Hi). unfold processed.
    split; [intros e -> | intros analysis ->]; done.
  - intros tools <-. done.
Qed.

(* --------------------------------------------------------------------- *)
(** ** The one-way downgrade of the classifier *)
(* --------------------------------------------------------------------- *)

(** The failure messages that count as a quota condition. *)
Lemma is_quota_error_spec (error_msg : string) :
  is_quota_error error_msg = true
  ↔ substring_of "quota" (lower error_msg) ∨ substring_of "429" error_msg.
Proof. unfold is_quota_error. by rewrite orb_true_iff, !contains_spec. Qed.

Lemma analyze_disabled (env : CallEnv) (self : SummarizerTool) (item : NewsItem) :
  use_gemini self = false →
  analyze_news_item env self item = (_analyze_with_rules item, self).
Proof.
  intros Hoff. unfold analyze_news_item. rewrite Hoff.
  by destruct (flask_env_production env).
Qed.

Lemma analyze_never_enables (env : CallEnv) (self : SummarizerTool) (item : NewsItem) :
  use_gemini (snd (analyze_news_item env self item)) = true → use_gemini self = true.
Proof.
  unfold analyze_news_item, _analyze_with_gemini.
  destruct (flask_env_production env); [done|].
  destruct (use_gemini self) eqn:Hon; [done|]. cbn. by rewrite Hon.
Qed.

Lemma analyze_all_disabled (calls : list (CallEnv * NewsItem)) (self : SummarizerTool) :
  use_gemini self = false →
  analyze_all self calls = ((λ c, _analyze_with_rules (snd c)) <$> calls, self).
Proof.
  intros Hoff. induction calls as [|c calls IH]; [done|].
  cbn [analyze_all]. rewrite (analyze_disabled _ _ _ Hoff). cbn [fst snd].
  by rewrite IH.
Qed.

(** C5.  When a call takes the primary path and the service fails with a
    message that mentions a quota or the code 429, that call returns the
    rule-based analysis and leaves the primary strategy disabled; every later
    call on the instance, whatever its environment and whatever the service
    would answer, returns the rule-based analysis and leaves it disabled. *)
Theorem quota_failure_disables_primary (env : CallEnv) (self : SummarizerTool)
    (item : NewsItem) (error_msg : string) (later : list (CallEnv * NewsItem)) :
  flask_env_production env = false →
  use_gemini self = true →
  gemini env = GeminiRaised error_msg →
  is_quota_error error_msg = true →
  let self' := snd (analyze_news_item env self item) in
  fst (analyze_news_item env self item) = _analyze_with_rules item
  ∧ use_gemini self' = false
  ∧ fst (analyze_all self' later) = (λ c, _analyze_with_rules (snd c)) <$> later
  ∧ use_gemini (snd (analyze_all self' later)) = false
  ∧ (∀ n, use_gemini (snd (analyze_all self' (take n later))) = false).
Proof.
  intros Hdev Hon Hraised Hquota. cbn zeta.
  assert (analyze_news_item env self item
          = (_analyze_with_rules item, {| use_gemini := false |})) as ->.
  { unfold analyze_news_item, _analyze_with_gemini.
    by rewrite Hdev, Hon, Hraised, Hquota. }
  cbn [fst snd]. split_and!; [done | done | | |].
  - by rewrite analyze_all_disabled.
  - by rewrite analyze_all_disabled.
  - intros n. by rewrite analyze_all_disabled.
Qed.

(* --------------------------------------------------------------------- *)
(** ** Rule-based category *)
(* --------------------------------------------------------------------- *)

Lemma max_go_first_max (rest : list (string * nat)) : ∀ best,
  ∃ earlier later,
    best :: rest = earlier ++ max_go best rest :: later
    ∧ (∀ e, e ∈ earlier → snd e < snd (max_go best rest))
    ∧ (∀ e, e ∈ later → snd e ≤ snd (max_go best rest)).
Proof.
  induction rest as [|e rest IH]; intros best; cbn [max_go].
  - exists [], []. split_and!; [done | |]; intros e He; by apply elem_of_nil in He.
  - destruct (snd best <? snd e) eqn:Hlt.
    + apply Nat.ltb_lt in Hlt.
      destruct (IH e) as (earlier & later & Heq & Hearlier & Hlater).
      exists (best :: earlier), later. split_and!; [by rewrite Heq | | done].
      intros x Hx. apply elem_of_cons in Hx as [->|Hx]; [|by apply Hearlier].
      destruct earlier as [|e' earlier]; cbn in Heq.
      * injection Heq as Heq _. by rewrite <- Heq.
      * injection Heq as <- _. assert (snd e < snd (max_go e rest)); [|lia].
        apply Hearlier, elem_of_cons. by left.
    + apply Nat.ltb_ge in Hlt.
      destruct (IH best) as (earlier & later & Heq & Hearlier & Hlater).
      destruct earlier as [|b' earlier]; cbn in Heq.
      * injection Heq as Hbest Hrest. exists [], (e :: rest).
        split_and!; [by rewrite <- Hbest | |].
        -- intros x Hx. by apply elem_of_nil in Hx.
        -- intros x Hx. apply elem_of_cons in Hx as [->|Hx].
           ++ by rewrite <- Hbest.
           ++ apply Hlater. by rewrite <- Hrest.
      * injection Heq as <- Hrest. exists (best :: e :: earlier), later.
        split_and!; [cbn; by do 2 f_equal | | done].
        assert (snd best < snd (max_go best rest)) as Hb
          by (apply Hearlier, elem_of_cons; by left).
        intros x Hx. apply elem_of_cons in Hx as [->|Hx]; [done|].
        apply elem_of_cons in Hx as [->|Hx]; [lia|].
        apply Hearlier, elem_of_cons. by right.
Qed.

Section Determine.

Context (table : list (string * list string)) (fallback : string) (text : string).

Abbreviation score entry := (count_present (snd entry) text).

Lemma determine_all_zero :
  (∀ entry, entry ∈ table → score entry = 0) → determine table fallback text = fallback.
Proof.
  intros Hzero. unfold determine.
  destruct (scores_of table text) as [|first rest] eqn:Hscores; [done|].
  destruct (max_go_first_max rest first) as (earlier & later & Heq & _ & _).
  assert (max_go first rest ∈ scores_of table text) as Hin.
  { rewrite Hscores, Heq. apply elem_of_app. right. apply elem_of_cons. by left. }
  unfold scores_of in Hin. apply list_elem_of_fmap in Hin as (entry & -> & Hentry).
  cbn [snd fst]. by rewrite (Hzero entry Hentry).
Qed.

Lemma determine_first_max :
  (∃ entry, entry ∈ table ∧ 0 < score entry) →
  ∃ earlier winner later,
    table = earlier ++ winner :: later
    ∧ determine table fallback text = fst winner
    ∧ 0 < score winner
    ∧ (∀ entry, entry ∈ earlier → score entry < score winner)
    ∧ (∀ entry, entry ∈ later → score entry ≤ score winner).
Proof.
  intros (entry & Hentry & Hpos). unfold determine.
  destruct (scores_of table text) as [|first rest] eqn:Hscores.
  { destruct table; [by apply elem_of_nil in Hentry | done]. }
  destruct (max_go_first_max rest first) as (searlier & slater & Heq & Hearlier & Hlater).
  rewrite <- Hscores in Heq. unfold scores_of in Heq.
  apply fmap_app_inv in Heq as (earlier & tail_ & -> & Htail & ->).
  symmetry in Htail.
  apply fmap_cons_inv in Htail as (winner & later & Hwin & -> & ->).
  exists earlier, winner, later.
  assert (∀ e, e ∈ earlier → score e < score winner) as He.
  { intros e He. rewrite Hwin in Hearlier.
    apply (Hearlier (fst e, score e)), list_elem_of_fmap. by exists e. }
  assert (∀ e, e ∈ later → score e ≤ score winner) as Hl.
  { intros e He'. rewrite Hwin in Hlater.
    apply (Hlater (fst e, score e)), list_elem_of_fmap. by exists e. }
  assert (0 < score winner) as Hw.
  { apply elem_of_app in Hentry as [Hin|Hin]; [specialize (He _ Hin); lia|].
    apply elem_of_cons in Hin as [->|Hin]; [done|]. specialize (Hl _ Hin). lia. }
  split_and!; [done | | done | done | done].
  rewrite Hwin. cbn [fst snd].
  by rewrite (proj2 (Nat.ltb_lt 0 (score winner)) Hw).
Qed.

End Determine.

(** The result of [determine] is the fallback or a label of the table. *)
Lemma determine_label (table : list (string * list string)) (fallback text : string) :
  determine table fallback text = fallback
  ∨ determine table fallback text ∈ (fst <$> table).
Proof.
  unfold determine.
  destruct (scores_of table text) as [|first rest] eqn:Hscores; [by left|].
  destruct (0 <? _); [right | by left].
  destruct (max_go_first_max rest first) as (earlier & later & Heq & _ & _).
  assert (max_go first rest ∈ scores_of table text) as Hin.
  { rewrite Hscores, Heq. apply elem_of_app. right. apply elem_of_cons. by left. }
  unfold scores_of in Hin. apply list_elem_of_fmap in Hin as (entry & -> & Hentry).
  cbn [fst]. apply list_elem_of_fmap. by exists entry.
Qed.

Lemma rule_based_severity_known (text : string) :
  _determine_severity text ∈ severity_levels.
Proof.
  destruct (determine_label severity_keywords "Medium" text) as [H|H];
    unfold _determine_severity; [rewrite H; unfold severity_levels; label_member | done].
Qed.

Lemma rule_based_category_known (text : string) :
  _determine_category text ∈ category_labels.
Proof.
  destruct (determine_label categories "General" text) as [H|H];
    unfold _determine_category; [rewrite H; unfold category_labels; label_member | done].
Qed.

(** C3 (as amended).  [_determine_category] scores the five categories, in
    the order Latest Attacks, Vulnerabilities, New Tools, Threat
    Intelligence, General, by the number of keywords of the category's list
    that occur in the text (each keyword counts once, however often it
    occurs, so a score is at most the length of the list); it returns General
    when every score is 0, and otherwise the first category in that order
    whose score is the maximum. *)
Theorem determine_category_first_max (content_text : string) :
  let score (entry : string * list string) := count_present (snd entry) content_text in
  categories
  = [ ("Latest Attacks", ["ransomware"; "malware"; "attack"; "breach"; "hack"; "incident"]);
      ("Vulnerabilities", ["vulnerability"; "exploit"; "cve"; "zero-day"; "patch"; "flaw"]);
      ("New Tools", ["tool"; "platform"; "software"; "solution"; "framework"; "technology"]);
      ("Threat Intelligence", ["threat"; "intelligence"; "apt"; "campaign"; "actor"; "group"]);
      ("General", ["security"; "cybersecurity"; "infosec"; "policy"; "regulation"; "compliance"]) ]
  ∧ fst <$> categories = category_labels
  ∧ (∀ entry, score entry
       = length (filter (λ k, contains k content_text = true) (snd entry))
       ∧ score entry ≤ length (snd entry))
  ∧ ((∀ entry, entry ∈ categories → score entry = 0) →
       _determine_category content_text = "General")
  ∧ ((∃ entry, entry ∈ categories ∧ 0 < score entry) →
       ∃ earlier winner later,
         categories = earlier ++ winner :: later
         ∧ _determine_category content_text = fst winner
         ∧ 0 < score winner
         ∧ (∀ entry, entry ∈ earlier → score entry < score winner)
         ∧ (∀ entry, entry ∈ later → score entry ≤ score winner)).
Proof.
  cbn zeta. split_and!.
  - done.
  - done.
  - intros entry. split; [done | apply length_filter].
  - apply determine_all_zero.
  - apply determine_first_max.
Qed.

(** C3, as stated, fails: a keyword that occurs several times counts once.
    In the text below "attack" occurs three times and the two keywords
    "exploit" and "cve" once each; by occurrences Latest Attacks leads with
    3 against 2, by the scores of the code Vulnerabilities leads with 2
    against 1. *)
Lemma determine_category_counterexample :
  let content_text := "attack attack attack exploit cve" in
  lower content_text = content_text
  ∧ occurrences "attack" content_text = 3
  ∧ occurrences "exploit" content_text = 1
  ∧ occurrences "cve" content_text = 1
  ∧ scores_of categories content_text
    = [("Latest Attacks", 1); ("Vulnerabilities", 2); ("New Tools", 0);
       ("Threat Intelligence", 0); ("General", 0)]
  ∧ category_as_specified content_text = "Latest Attacks"
  ∧ _determine_category content_text = "Vulnerabilities".
Proof. cbn zeta. split_and!; by vm_compute. Qed.

(* --------------------------------------------------------------------- *)
(** ** The pipeline under rule-based classification *)
(* --------------------------------------------------------------------- *)

Section RuleBasedPipeline.

Context (world : nat → CallEnv).
Hypothesis Hproduction : ∀ n, flask_env_production (world n) = true.

Lemma session_production (st : Session) (item : NewsItem) :
  session_analyzer world st item
  = (ret (_analyze_with_rules item), {| tool := tool st; calls := S (calls st) |}).
Proof.
  unfold session_analyzer, analyze_news_item. by rewrite Hproduction.
Qed.

Lemma batch_rules_known (items : list NewsItem) : ∀ st,
  Forall known_severity (fst (batch_analyze (session_analyzer world) st items)).
Proof.
  induction items as [|x items IH]; intros st; [constructor|].
  rewrite batch_analyze_cons. cbn [fst]. constructor; [|apply IH].
  unfold processed. rewrite session_production. cbn.
  apply rule_based_severity_known.
Qed.

(** With the environment switch set, the three counts sum to [total_items]. *)
Lemma pipeline_rule_based_sum (tools : Tools Session) (st : Session) (max_items : Z) :
  summarizer tools = session_analyzer world →
  let r := fst (run_full_pipeline tools st max_items) in
  sum_values (severity_stats r) = total_items r.
Proof.
  intros Hsum. cbn zeta.
  destruct (run_full_pipeline_fields tools st max_items) as (_ & _ & -> & ->).
  rewrite sum_severity_stats. apply length_filter_all.
  unfold analyze_and_categorize. rewrite Hsum. apply batch_rules_known.
Qed.

End RuleBasedPipeline.

(* --------------------------------------------------------------------- *)
(** ** Rule-based summary *)
(* --------------------------------------------------------------------- *)

Section BestSentence.

Implicit Types (s b a : string) (pre post later : list string) (n m : nat).

Lemma best_loop_keep post : ∀ b m,
  (∀ s, s ∈ post → keyword_count s ≤ m) → foldl best_step (b, m) post = (b, m).
Proof.
  induction post as [|x post IH]; intros b m Hle; cbn [foldl]; [done|].
  unfold best_step at 2. cbn [snd].
  assert (keyword_count x ≤ m) as Hx by (apply Hle, elem_of_cons; by left).
  rewrite (proj2 (Nat.ltb_ge m (keyword_count x)) Hx).
  apply IH. intros s Hs. apply Hle, elem_of_cons. by right.
Qed.

Lemma best_loop_below pre : ∀ a n bound,
  n < bound → (∀ s, s ∈ pre → keyword_count s < bound) →
  snd (foldl best_step (a, n) pre) < bound.
Proof.
  induction pre as [|x pre IH]; intros a n bound Hn Hlt; cbn [foldl]; [done|].
  assert (keyword_count x < bound) as Hx by (apply Hlt, elem_of_cons; by left).
  assert (∀ s, s ∈ pre → keyword_count s < bound) as Hpre
    by (intros s Hs; apply Hlt, elem_of_cons; by right).
  unfold best_step at 2. cbn [snd]. destruct (n <? keyword_count x); by apply IH.
Qed.

Lemma best_of_first_max pre b post :
  0 < keyword_count b →
  (∀ s, s ∈ pre → keyword_count s < keyword_count b) →
  (∀ s, s ∈ post → keyword_count s ≤ keyword_count b) →
  best_of (pre ++ b :: post) = (b, keyword_count b).
Proof.
  intros Hpos Hpre Hpost. unfold best_of. rewrite foldl_app. cbn [foldl].
  pose proof (best_loop_below pre EmptyString 0 _ Hpos Hpre) as Hbelow.
  destruct (foldl best_step (EmptyString, 0) pre) as [a n]. cbn [snd] in Hbelow.
  unfold best_step at 2. cbn [snd].
  rewrite (proj2 (Nat.ltb_lt n (keyword_count b)) Hbelow).
  by apply best_loop_keep.
Qed.

Lemma best_of_all_zero later :
  (∀ s, s ∈ later → keyword_count s = 0) → best_of later = (EmptyString, 0).
Proof.
  intros Hzero. apply best_loop_keep. intros s Hs. by rewrite (Hzero s Hs).
Qed.

(** A non-empty list has a first maximum. *)
Lemma first_max_exists later :
  later ≠ [] →
  ∃ pre b post,
    later = pre ++ b :: post
    ∧ (∀ s, s ∈ pre → keyword_count s < keyword_count b)
    ∧ (∀ s, s ∈ post → keyword_count s ≤ keyword_count b).
Proof.
  induction later as [|x later IH]; intros Hne; [done|].
  destruct later as [|y later].
  { exists [], x, []. split_and!; [done | |]; intros s Hs; by apply elem_of_nil in Hs. }
  destruct IH as (pre & b & post & Heq & Hpre & Hpost); [done|].
  destruct (decide (keyword_count x < keyword_count b)) as [Hlt|Hge].
  - exists (x :: pre), b, post. split_and!; [by rewrite Heq | | done].
    intros s Hs. apply elem_of_cons in Hs as [->|Hs]; [done | by apply Hpre].
  - exists [], x, (y :: later). split_and!; [done | |].
    + intros s Hs. by apply elem_of_nil in Hs.
    + intros s Hs. rewrite Heq in Hs.
      apply elem_of_app in Hs as [Hs|Hs]; [specialize (Hpre s Hs); lia|].
      apply elem_of_cons in Hs as [->|Hs]; [lia | specialize (Hpost s Hs); lia].
Qed.

Lemma keyword_count_empty : keyword_count EmptyString = 0.
Proof. by vm_compute. Qed.

Lemma truthy_keyworded b : 0 < keyword_count b → truthy b = true.
Proof. destruct b; [rewrite keyword_count_empty; lia | done]. Qed.

End BestSentence.

(** C4 (as amended).  With fewer than two sentences the summary is the
    content, cut to 200 characters and followed by an ellipsis exactly when it
    is longer.  With two or more, the summary is the first sentence followed
    by a full stop when no later sentence has a keyword; otherwise, with [b]
    the first of the later sentences that has the most keywords of the seven
    (each keyword counting once), it is the first sentence alone again when
    [b] is the same text as the first sentence, and else the first sentence,
    a full stop and a space, [b], and a full stop.  One of the two cases
    always applies. *)
Theorem rule_based_summary_spec (item : NewsItem) :
  let sentences := split ". " (content item) in
  let result := _generate_rule_based_summary item in
  (length sentences < 2 →
     result = if 200 <? len (content item)
              then str_take 200 (content item) +:+ "..." else content item)
  ∧ (∀ first later, sentences = first :: later → 1 ≤ length later →
       ((∀ s, s ∈ later → keyword_count s = 0) → result = first +:+ ".")
       ∧ (∀ pre b post,
            later = pre ++ b :: post →
            0 < keyword_count b →
            (∀ s, s ∈ pre → keyword_count s < keyword_count b) →
            (∀ s, s ∈ post → keyword_count s ≤ keyword_count b) →
            result = if decide (b = first) then first +:+ "."
                     else (first +:+ ". " +:+ b) +:+ ".")
       ∧ ((∀ s, s ∈ later → keyword_count s = 0)
          ∨ ∃ pre b post,
              later = pre ++ b :: post
              ∧ 0 < keyword_count b
              ∧ (∀ s, s ∈ pre → keyword_count s < keyword_count b)
              ∧ (∀ s, s ∈ post → keyword_count s ≤ keyword_count b)))
  ∧ (∀ s, keyword_count s
          = length (filter (λ k, contains k (lower s) = true) cyber_keywords))
  ∧ length cyber_keywords = 7.
Proof.
  cbn zeta. unfold _generate_rule_based_summary. split_and!; [| |done|done].
  - intros Hshort. destruct (split ". " (content item)) as [|first [|second rest]];
      [done | done | cbn in Hshort; lia].
  - intros first later Hsplit Hlater. rewrite Hsplit.
    destruct later as [|second rest]; [cbn in Hlater; lia|]. cbn [tail].
    split_and!.
    + intros Hzero. by rewrite (best_of_all_zero _ Hzero).
    + intros pre b post Heq Hpos Hpre Hpost.
      rewrite Heq, (best_of_first_max pre b post Hpos Hpre Hpost). cbn [fst].
      rewrite (truthy_keyworded b Hpos). cbn [andb].
      destruct (decide (b = first)) as [->|Hne].
      * by rewrite String.eqb_refl.
      * by rewrite (proj2 (String.eqb_neq b first) Hne).
    + destruct (first_max_exists (second :: rest)) as (pre & b & post & Heq & Hpre & Hpost);
        [done|].
      destruct (decide (0 < keyword_count b)) as [Hpos|Hzero].
      * right. by exists pre, b, post.
      * left. intros s Hs. rewrite Heq in Hs.
        apply elem_of_app in Hs as [Hs|Hs]; [specialize (Hpre s Hs); lia|].
        apply elem_of_cons in Hs as [->|Hs]; [lia | specialize (Hpost s Hs); lia].
Qed.

(** C4, as stated, fails: when the later sentence with the most keywords
    reads the same as the first sentence, it is left out. *)
Lemma rule_based_summary_counterexample :
  let item := Samples.story "Alert" "Breach. Breach" in
  split ". " (content item) = ["Breach"; "Breach"]
  ∧ keyword_count "Breach" = 1
  ∧ summary_as_specified item = "Breach. Breach."
  ∧ _generate_rule_based_summary item = "Breach.".
Proof. cbn zeta. split_and!; by vm_compute. Qed.

(* --------------------------------------------------------------------- *)
(** ** Normalised text *)
(* --------------------------------------------------------------------- *)

Section Normalise.

Implicit Types (c : ascii) (l : list ascii) (s : string).

Lemma lower_char_idem c : lower_char (lower_char c) = lower_char c.
Proof. destruct c as [[] [] [] [] [] [] [] []]; by vm_compute. Qed.

Lemma isspace_lower_char c : isspace (lower_char c) = isspace c.
Proof. destruct c as [[] [] [] [] [] [] [] []]; by vm_compute. Qed.

Lemma lower_idem s : lower (lower s) = lower s.
Proof. induction s as [|c s IH]; [done|]. cbn. by rewrite lower_char_idem, IH. Qed.

Lemma list_of_lower s :
  list_ascii_of_string (lower s) = map lower_char (list_ascii_of_string s).
Proof. induction s as [|c s IH]; [done|]. cbn. by rewrite IH. Qed.

Lemma lower_of_list l :
  string_of_list_ascii (map lower_char l) = lower (string_of_list_ascii l).
Proof. induction l as [|c l IH]; [done|]. cbn. by rewrite IH. Qed.

Lemma lstrip_map_lower l :
  lstrip_list (map lower_char l) = map lower_char (lstrip_list l).
Proof.
  induction l as [|c l IH]; [done|]. cbn.
  rewrite isspace_lower_char. by destruct (isspace c).
Qed.

Lemma strip_list_map_lower l :
  strip_list (map lower_char l) = map lower_char (strip_list l).
Proof.
  unfold strip_list.
  by rewrite lstrip_map_lower, <- map_rev, lstrip_map_lower, <- map_rev.
Qed.

Lemma strip_lower s : strip (lower s) = lower (strip s).
Proof. unfold strip. by rewrite list_of_lower, strip_list_map_lower, lower_of_list. Qed.

Lemma lstrip_starts_plain l : starts_plain (lstrip_list l).
Proof.
  induction l as [|c l IH]; [done|]. cbn. by destruct (isspace c) eqn:Hc.
Qed.

Lemma lstrip_fixed l : starts_plain l → lstrip_list l = l.
Proof. destruct l as [|c l]; [done|]. cbn. by intros ->. Qed.

(** [lstrip_list] removes a prefix of white space. *)
Lemma lstrip_suffix l :
  ∃ spaces, l = spaces ++ lstrip_list l ∧ Forall (λ c, isspace c = true) spaces.
Proof.
  induction l as [|c l (spaces & IH & Hspaces)]; [by exists []|]. cbn.
  destruct (isspace c) eqn:Hc; [|by exists []].
  exists (c :: spaces). split; [cbn; by rewrite <- IH | by constructor].
Qed.

Lemma starts_plain_prefix l1 l2 :
  starts_plain (l1 ++ l2) → l1 ≠ [] → starts_plain l1.
Proof. by destruct l1. Qed.

(** [strip_list] removes white space at both ends, and all of it. *)
Lemma strip_list_spec l :
  ∃ before after,
    l = before ++ strip_list l ++ after
    ∧ Forall (λ c, isspace c = true) before
    ∧ Forall (λ c, isspace c = true) after
    ∧ starts_plain (strip_list l)
    ∧ starts_plain (rev (strip_list l)).
Proof.
  unfold strip_list.
  destruct (lstrip_suffix l) as (before & Hl & Hbefore).
  destruct (lstrip_suffix (rev (lstrip_list l))) as (spaces & Hrev & Hspaces).
  set (inner := lstrip_list (rev (lstrip_list l))) in *.
  assert (lstrip_list l = rev inner ++ rev spaces) as Hmid
    by (by rewrite <- rev_app_distr, <- Hrev, rev_involutive).
  exists before, (rev spaces). split_and!.
  - by rewrite <- Hmid.
  - done.
  - apply Forall_forall. intros c Hc.
    apply list_elem_of_In, in_rev, list_elem_of_In in Hc.
    by apply (proj1 (Forall_forall _ _) Hspaces).
  - destruct (decide (rev inner = [])) as [->|Hne]; [done|].
    apply (starts_plain_prefix _ (rev spaces)); [|done].
    rewrite <- Hmid. apply lstrip_starts_plain.
  - rewrite rev_involutive. apply lstrip_starts_plain.
Qed.

Lemma strip_list_idem l : strip_list (strip_list l) = strip_list l.
Proof.
  destruct (strip_list_spec l) as (_ & _ & _ & _ & _ & Hfront & Hback).
  unfold strip_list at 1.
  by rewrite (lstrip_fixed _ Hfront), (lstrip_fixed _ Hback), rev_involutive.
Qed.

Lemma strip_idem s : strip (strip s) = strip s.
Proof.
  unfold strip. by rewrite list_ascii_of_string_of_list_ascii, strip_list_idem.
Qed.

End Normalise.

(* --------------------------------------------------------------------- *)
(** ** The subscriber set *)
(* --------------------------------------------------------------------- *)

Section Subscribers.
Import Notification.

Implicit Types (self : NotificationService) (email e : string).

Lemma normalize_normalized email : normalized (normalize email).
Proof.
  unfold normalized, normalize. split.
  - by rewrite strip_lower, strip_idem.
  - apply lower_idem.
Qed.

Lemma normalize_idem email : normalize (normalize email) = normalize email.
Proof.
  unfold normalize at 1. by destruct (normalize_normalized email) as [-> ->].
Qed.

Lemma load_normalized (f : FileRead) e : e ∈ _load_subscribers f → normalized e.
Proof.
  destruct f as [| |lines]; cbn; [set_solver | set_solver |].
  rewrite elem_of_list_to_set, list_elem_of_fmap.
  intros (line & -> & _). apply normalize_normalized.
Qed.

Lemma add_subscriber_spec email self :
  add_subscriber email self
  = if decide (normalize email ∈ subscribers self) then (false, self)
    else (true, {| subscribers := {[ normalize email ]} ∪ subscribers self |}).
Proof. done. Qed.

Lemma call_normalized self c :
  (∀ e, e ∈ subscribers self → normalized e) →
  ∀ e, e ∈ subscribers (call self c) → normalized e.
Proof.
  intros Hinv e. destruct c as [email|email]; cbn.
  - unfold add_subscriber. case_decide; cbn; [apply Hinv|].
    rewrite elem_of_union, elem_of_singleton.
    intros [->|He]; [apply normalize_normalized | by apply Hinv].
  - unfold remove_subscriber. case_decide; cbn; [|apply Hinv].
    rewrite elem_of_difference. intros [He _]. by apply Hinv.
Qed.

Lemma run_normalized (calls : list Call) : ∀ self,
  (∀ e, e ∈ subscribers self → normalized e) →
  ∀ e, e ∈ subscribers (run calls self) → normalized e.
Proof.
  induction calls as [|c calls IH]; intros self Hinv; [done|].
  apply IH. by apply call_normalized.
Qed.

(** The web layer only passes on addresses that its check accepts. *)
Lemma subscribe_validates (email_field : string) self self' :
  subscribe_to_notifications email_field self = (200, self') →
  valid_email (normalize email_field) = true
  ∧ subscribers self' = {[ normalize email_field ]} ∪ subscribers self.
Proof.
  unfold subscribe_to_notifications. fold (normalize email_field).
  case_decide; [done|].
  destruct (valid_email (normalize email_field)) eqn:Hvalid; [|done]. cbn [negb].
  rewrite add_subscriber_spec, normalize_idem.
  case_decide; [done|]. by intros [= <-].
Qed.

End Subscribers.

(** C9 (as amended).  After a load and any sequence of [add_subscriber] and
    [remove_subscriber] calls, every element of the subscriber set is trimmed
    and lower-cased, no element occurs twice, and [add_subscriber] returns
    False exactly when the normalised address is already present, in which
    case the set is unchanged; otherwise it adds the normalised address. *)
Theorem subscribers_normalized_unique (f : Notification.FileRead)
    (calls : list Notification.Call) :
  let self := Notification.run calls (Notification.init f) in
  (∀ e, e ∈ Notification.subscribers self → strip e = e ∧ lower e = e)
  ∧ NoDup (elements (Notification.subscribers self))
  ∧ (∀ email,
       fst (Notification.add_subscriber email self) = false
       ↔ Notification.normalize email ∈ Notification.subscribers self)
  ∧ (∀ email,
       Notification.normalize email ∈ Notification.subscribers self →
       snd (Notification.add_subscriber email self) = self)
  ∧ (∀ email,
       Notification.normalize email ∉ Notification.subscribers self →
       Notification.subscribers (snd (Notification.add_subscriber email self))
       = {[ Notification.normalize email ]} ∪ Notification.subscribers self).
Proof.
  cbn zeta. split_and!.
  - apply run_normalized. intros e. apply load_normalized.
  - apply NoDup_elements.
  - intros email. rewrite add_subscriber_spec. case_decide; cbn; split; done.
  - intros email Hin. rewrite add_subscriber_spec. by rewrite decide_True.
  - intros email Hnin. rewrite add_subscriber_spec. by rewrite decide_False.
Qed.

(** C9, as stated, fails: neither [add_subscriber] nor the load checks that
    a string is an e-mail address. *)
Lemma subscribers_validated_counterexample :
  let added := Notification.run [Notification.Add "  Not An Address "]
                 (Notification.init Notification.NoFile) in
  let loaded := Notification.init (Notification.FileLines ["garbage"]) in
  elements (Notification.subscribers added) = ["not an address"]
  ∧ elements (Notification.subscribers loaded) = ["garbage"]
  ∧ Notification.valid_email "not an address" = false
  ∧ Notification.valid_email "garbage" = false.
Proof. cbn zeta. split_and!; by vm_compute. Qed.

(* --------------------------------------------------------------------- *)
(** ** The e-mail summary *)
(* --------------------------------------------------------------------- *)

Section EmailSummary.
Import ReportGenerator.

Context (tpl : EmailTemplate) (clock : Clock).

Implicit Types (x : NewsItem) (items : list NewsItem).

Lemma severity_rank_known x :
  known_severity x → ∃ rank, getitem severity_rank (severity x) = inr rank.
Proof.
  unfold known_severity, severity_levels, getitem, severity_rank.
  rewrite !elem_of_cons. intros [->|[->|[->|Hin]]]; [by eexists..|].
  by apply elem_of_nil in Hin.
Qed.

Lemma severity_rank_unknown x :
  ¬ known_severity x → getitem severity_rank (severity x) = inl (KeyError (severity x)).
Proof.
  unfold known_severity, severity_levels, getitem, severity_rank.
  rewrite !not_elem_of_cons. intros (?&?&?&_).
  by rewrite !lookup_insert_ne, lookup_empty.
Qed.

Lemma with_keys_known items :
  Forall known_severity items → ∃ keyed, with_keys items = inr keyed.
Proof.
  induction 1 as [|x items Hx _ [keyed IH]]; [by eexists|].
  cbn [with_keys]. unfold sort_key.
  destruct (severity_rank_known x Hx) as [rank ->]. cbn. rewrite IH. by eexists.
Qed.

Lemma with_keys_unknown items :
  ¬ Forall known_severity items →
  ∃ bad, bad ∈ items ∧ ¬ known_severity bad
         ∧ with_keys items = inl (KeyError (severity bad)).
Proof.
  induction items as [|x items IH]; intros Hnot; [by destruct Hnot|].
  destruct (decide (known_severity x)) as [Hx|Hx].
  - destruct IH as (bad & Hbad & Hunknown & Hraise).
    { intros Hall. apply Hnot. by constructor. }
    exists bad. split_and!; [apply elem_of_cons; by right | done |].
    cbn [with_keys]. unfold sort_key.
    destruct (severity_rank_known x Hx) as [rank ->]. cbn. by rewrite Hraise.
  - exists x. split_and!; [apply elem_of_cons; by left | done |].
    cbn [with_keys]. unfold sort_key. by rewrite (severity_rank_unknown x Hx).
Qed.

Lemma statistics_same items : _get_severity_statistics items = get_severity_stats items.
Proof. done. Qed.

(** The three counters are always present. *)
Lemma statistics_getitem items k :
  k ∈ severity_levels →
  getitem (_get_severity_statistics items) k
  = inr (length (filter (λ item, severity item = k) items)).
Proof.
  intros Hk. unfold getitem.
  by rewrite statistics_same, (get_severity_stats_inv items k), decide_True.
Qed.

Lemma High_level : "High" ∈ severity_levels.
Proof. unfold severity_levels. label_member. Qed.
Lemma Medium_level : "Medium" ∈ severity_levels.
Proof. unfold severity_levels. label_member. Qed.
Lemma Low_level : "Low" ∈ severity_levels.
Proof. unfold severity_levels. label_member. Qed.

Lemma subject_of_returns items :
  ∃ subject, subject_of tpl items (_get_severity_statistics items) = inr subject.
Proof.
  unfold subject_of. rewrite (statistics_getitem items "High" High_level).
  cbn [bind]. case_match; [by eexists|].
  rewrite (statistics_getitem items "Medium" Medium_level).
  cbn [bind]. case_match; by eexists.
Qed.

Lemma format_email_html_known items :
  Forall known_severity items →
  ∃ html, _format_email_html tpl clock items (_get_severity_statistics items) = inr html.
Proof.
  intros Hall. unfold _format_email_html, sorted_desc.
  destruct (with_keys_known items Hall) as [keyed ->]. cbn [bind ret].
  rewrite (statistics_getitem items "High" High_level). cbn [bind].
  rewrite (statistics_getitem items "Medium" Medium_level). cbn [bind].
  rewrite (statistics_getitem items "Low" Low_level). cbn [bind].
  by eexists.
Qed.

Lemma format_email_html_unknown items :
  ¬ Forall known_severity items →
  ∃ bad, bad ∈ items ∧ ¬ known_severity bad
         ∧ _format_email_html tpl clock items (_get_severity_statistics items)
           = inl (KeyError (severity bad)).
Proof.
  intros Hnot. destruct (with_keys_unknown items Hnot) as (bad & Hbad & Hunknown & Hraise).
  exists bad. split_and!; [done | done |].
  unfold _format_email_html, sorted_desc. by rewrite Hraise.
Qed.

End EmailSummary.

(** C10.  [generate_email_summary] returns a subject and a body for every
    list whose items all carry the severity High, Medium or Low; for a list
    with an item of any other severity, one such item alone included, the
    lookup in the three-key ranking of the sort raises [KeyError] for that
    severity and no e-mail is produced. *)
Theorem email_summary_total_iff_known (tpl : ReportGenerator.EmailTemplate)
    (clock : ReportGenerator.Clock) (items : list NewsItem) :
  (Forall known_severity items →
     ∃ email, ReportGenerator.generate_email_summary tpl clock items = inr email)
  ∧ (¬ Forall known_severity items →
     ∃ bad, bad ∈ items ∧ (severity bad ∉ severity_levels)
            ∧ ReportGenerator.generate_email_summary tpl clock items
              = inl (KeyError (severity bad)))
  ∧ (∀ item, severity item ∉ severity_levels →
       ReportGenerator.generate_email_summary tpl clock [item]
       = inl (KeyError (severity item))).
Proof.
  assert (∀ l, ¬ Forall known_severity l →
            ∃ bad, bad ∈ l ∧ (severity bad ∉ severity_levels)
                   ∧ ReportGenerator.generate_email_summary tpl clock l
                     = inl (KeyError (severity bad))) as Hraises.
  { intros l Hnot. unfold ReportGenerator.generate_email_summary.
    destruct (subject_of_returns tpl l) as [subject ->]. cbn [bind].
    destruct (format_email_html_unknown tpl clock l Hnot) as (bad & Hbad & Hunknown & ->).
    by exists bad. }
  split_and!.
  - intros Hall. unfold ReportGenerator.generate_email_summary.
    destruct (subject_of_returns tpl items) as [subject ->]. cbn [bind].
    destruct (format_email_html_known tpl clock items Hall) as [html ->]. cbn [bind].
    by eexists.
  - apply Hraises.
  - intros item Hitem. destruct (Hraises [item]) as (bad & Hbad & _ & Hraise).
    { intros Hall. by apply Forall_cons in Hall as [? _]. }
    apply list_elem_of_singleton in Hbad as ->. done.
Qed.

(* --------------------------------------------------------------------- *)
(** ** The properties on sample data *)
(* --------------------------------------------------------------------- *)

Example dedup_sample :
  _deduplicate_news Samples.all_stories
  = [Samples.ransomware_story; Samples.patch_story; Samples.conference_story].
Proof. by vm_compute. Qed.

Example search_sample :
  search_news "ransomware"
    [Samples.ransomware_story; Samples.patch_story; Samples.conference_story]
  = [Samples.ransomware_story; Samples.patch_story].
Proof. by vm_compute. Qed.

Example repeated_keyword_counts_once :
  _determine_category "attack attack attack exploit cve" = "Vulnerabilities".
Proof. by vm_compute. Qed.

Example email_sample :
  ∃ html,
    ReportGenerator.generate_email_summary Samples.plain_template Samples.nine_o_clock
      [Samples.ransomware_story; Samples.patch_story]
    = inr {| ReportGenerator.subject := "* 2 Medium-Severity Security Updates";
             ReportGenerator.body := html |}.
Proof. eexists. by vm_compute. Qed.

(** With rule-based classification the three counts of a run sum to its total. *)
Lemma pipeline_severity_sum_witness :
  let r := fst (run_full_pipeline Samples.production_tools Samples.fresh_session 50) in
  sum_values (severity_stats r) = total_items r.
Proof.
  cbn zeta.
  apply (pipeline_severity_sum Samples.production_tools Samples.fresh_session 50).
  vm_compute. repeat constructor.
Defined.

(** A run over four stories, the third of which repeats the title of the
    first in other letters and with blanks around it: capped at three items,
    it returns the first, the second and the fourth story. *)
Lemma collect_news_dedup_first_wins_witness :
  title Samples.ransomware_story = "Ransomware Hits Hospital"
  ∧ title Samples.ransomware_story_again = "  RANSOMWARE hits hospital "
  ∧ fetch_all Samples.answering_tools 3
    = inr [Samples.ransomware_story; Samples.patch_story;
           Samples.ransomware_story_again; Samples.conference_story]
  ∧ collect_news Samples.answering_tools 3
    = [Samples.ransomware_story; Samples.patch_story; Samples.conference_story]
  ∧ (Z.of_nat (length (collect_news Samples.answering_tools 3)) ≤ 3)%Z.
Proof.
  destruct (collect_news_dedup_first_wins Samples.all_stories)
    as (_ & _ & _ & _ & _ & _ & _ & H).
  destruct (H _ Samples.answering_tools 3%Z ltac:(lia) eq_refl) as [Hrun Hlength].
  split_and!; [reflexivity | reflexivity | reflexivity | | exact Hlength].
  rewrite Hrun. by vm_compute.
Defined.

(** A text with keywords of two categories. *)
Lemma determine_category_first_max_witness :
  ∃ earlier winner later,
    categories = earlier ++ winner :: later
    ∧ _determine_category "critical exploit of a cve follows the attack" = fst winner
    ∧ 0 < count_present (snd winner) "critical exploit of a cve follows the attack"
    ∧ (∀ entry, entry ∈ earlier →
         count_present (snd entry) "critical exploit of a cve follows the attack"
         < count_present (snd winner) "critical exploit of a cve follows the attack")
    ∧ (∀ entry, entry ∈ later →
         count_present (snd entry) "critical exploit of a cve follows the attack"
         ≤ count_present (snd winner) "critical exploit of a cve follows the attack").
Proof.
  apply (determine_category_first_max "critical exploit of a cve follows the attack").
  exists ("Latest Attacks",
          ["ransomware"; "malware"; "attack"; "breach"; "hack"; "incident"]).
  split; [apply elem_of_cons; by left | vm_compute; lia].
Defined.

(** Four sentences, the second with the most keywords. *)
Lemma rule_based_summary_spec_witness :
  _generate_rule_based_summary Samples.long_story
  = if decide ("A breach and attack" = "Hello world") then "Hello world" +:+ "."
    else ("Hello world" +:+ ". " +:+ "A breach and attack") +:+ ".".
Proof.
  destruct (rule_based_summary_spec Samples.long_story) as (_ & H & _).
  destruct (H "Hello world" ["A breach and attack"; "Another attack"; "x"])
    as (_ & Hbest & _); [by vm_compute | cbn; lia |].
  apply (Hbest [] "A breach and attack" ["Another attack"; "x"]).
  - reflexivity.
  - vm_compute. lia.
  - intros s Hs. by apply elem_of_nil in Hs.
  - intros s Hs. list_cases Hs; vm_compute; lia.
Defined.

(** A quota failure followed by two calls that the service would answer. *)
Lemma quota_failure_disables_primary_witness :
  let self' := snd (analyze_news_item Samples.out_of_quota (Summarizer.init (Some "key"))
                      Samples.ransomware_story) in
  let later := [(Samples.answering, Samples.patch_story);
                (Samples.answering, Samples.conference_story)] in
  fst (analyze_news_item Samples.out_of_quota (Summarizer.init (Some "key"))
         Samples.ransomware_story)
    = _analyze_with_rules Samples.ransomware_story
  ∧ use_gemini self' = false
  ∧ fst (analyze_all self' later) = (λ c, _analyze_with_rules (snd c)) <$> later
  ∧ use_gemini (snd (analyze_all self' later)) = false
  ∧ (∀ n, use_gemini (snd (analyze_all self' (take n later))) = false).
Proof.
  apply (quota_failure_disables_primary Samples.out_of_quota (Summarizer.init (Some "key"))
           Samples.ransomware_story
           "429 Resource has been exhausted (e.g. check quota).");
    reflexivity.
Defined.

(** The General bucket of the sample stories. *)
Lemma get_categorized_news_partition_witness :
  get_categorized_news Samples.all_stories !! "General"
  = Some (filter (λ item, bucket_of item = "General") Samples.all_stories).
Proof.
  apply (get_categorized_news_partition Samples.all_stories).
  apply list_elem_of_lookup_2 with 4. reflexivity.
Defined.

(** A query in capitals finds the story that mentions it in its content. *)
Lemma search_news_exact_witness :
  Samples.patch_story ∈ search_news "RANSOMWARE" Samples.all_stories.
Proof.
  apply (search_news_exact "RANSOMWARE" Samples.all_stories). split.
  - apply list_elem_of_lookup_2 with 1. reflexivity.
  - right. left. apply contains_spec. by vm_compute.
Defined.

(** The analysis of the second of three items raises. *)
Lemma batch_keeps_failing_items_witness :
  let items := [Samples.ransomware_story; Samples.untitled_story; Samples.patch_story] in
  fst (batch_analyze Samples.picky_analyzer () items) !! 1 = Some Samples.untitled_story
  ∧ fst (batch_analyze Samples.picky_analyzer () items) !! 2
    = Some (update_item Samples.patch_story (_analyze_with_rules Samples.patch_story)).
Proof.
  cbn zeta.
  destruct (batch_keeps_failing_items Samples.picky_analyzer ()
              [Samples.ransomware_story; Samples.untitled_story; Samples.patch_story])
    as (_ & _ & H & _).
  split.
  - apply (H 1 Samples.untitled_story eq_refl) with (Exception "no title"). reflexivity.
  - apply (H 2 Samples.patch_story eq_refl). reflexivity.
Defined.

(** Adding an address again, in another spelling, changes nothing. *)
Lemma subscribers_normalized_unique_witness :
  snd (Notification.add_subscriber "  ALICE@example.com " Samples.two_subscribers)
  = Samples.two_subscribers.
Proof.
  apply (subscribers_normalized_unique Notification.NoFile
           [Notification.Add " Alice@Example.com"; Notification.Add "bob@example.com"]).
  apply (bool_decide_unpack _). by vm_compute.
Defined.

(** Two items of known severity, and one item of severity Critical. *)
Lemma email_summary_total_iff_known_witness :
  (∃ email,
     ReportGenerator.generate_email_summary Samples.plain_template Samples.nine_o_clock
       [Samples.ransomware_story; Samples.patch_story] = inr email)
  ∧ ReportGenerator.generate_email_summary Samples.plain_template Samples.nine_o_clock
      [Samples.critical_story] = inl (KeyError "Critical").
Proof.
  split.
  - apply (email_summary_total_iff_known Samples.plain_template Samples.nine_o_clock
             [Samples.ransomware_story; Samples.patch_story]).
    repeat constructor.
  - destruct (email_summary_total_iff_known Samples.plain_template Samples.nine_o_clock
                [Samples.ransomware_story]) as (_ & _ & H).
    apply (H Samples.critical_story).
    cbn. unfold severity_levels. rewrite !not_elem_of_cons.
    split_and!; [done | done | done | apply not_elem_of_nil].
Defined.

(* ===================================================================== *)
(** * Further properties of the classifier *)
(* ===================================================================== *)

Import Invariants.

Lemma all_tags_NoDup : NoDup all_tags.
Proof. apply (bool_decide_unpack _). by vm_compute. Qed.

Lemma extract_tags_length (content_text : string) :
  length (_extract_tags content_text) ≤ 5.
Proof. unfold _extract_tags. rewrite length_take. apply Nat.le_min_l. Qed.

(** X1.  The tags of a text are at most five terms of the vocabulary, in the
    order of the vocabulary and without repetition; each occurs in the text;
    fewer than five tags means that no other term of the vocabulary occurs. *)
Theorem extract_tags_spec (content_text : string) :
  let found := _extract_tags content_text in
  length found ≤ 5
  ∧ sublist found all_tags
  ∧ NoDup found
  ∧ (∀ tag, tag ∈ found → tag ∈ all_tags ∧ substring_of tag content_text)
  ∧ (length found < 5 →
     ∀ tag, tag ∈ all_tags → substring_of tag content_text → tag ∈ found).
Proof.
  cbn zeta. unfold _extract_tags.
  assert (∀ tag, tag ∈ filter (λ tag, contains tag content_text = true) all_tags
            ↔ tag ∈ all_tags ∧ substring_of tag content_text) as Hpresent.
  { intros tag. rewrite list_elem_of_filter, contains_spec. tauto. }
  assert (sublist (filter (λ tag, contains tag content_text = true) all_tags) all_tags)
    as Hfilter by apply sublist_filter.
  generalize dependent (filter (λ tag, contains tag content_text = true) all_tags).
  intros present Hpresent Hfilter.
  assert (sublist (take 5 present) all_tags) as Hsub.
  { etrans; [apply sublist_take | done]. }
  split_and!.
  - rewrite length_take. lia.
  - done.
  - eapply sublist_NoDup; [apply all_tags_NoDup | done].
  - intros tag Htag.
    assert (tag ∈ present) as Hp.
    { apply elem_of_take in Htag as (i & Hi & _). by eapply list_elem_of_lookup_2. }
    by apply Hpresent.
  - intros Hfew tag Hin Hocc. rewrite length_take in Hfew.
    rewrite take_ge by lia. by apply Hpresent.
Qed.

(** X2.  [_determine_severity] scores High, Medium and Low, in this order,
    by the number of keywords of the tier that occur in the text; it returns
    Medium when every score is 0 and otherwise the first tier in that order
    whose score is the maximum. *)
Theorem determine_severity_first_max (content_text : string) :
  let score (entry : string * list string) := count_present (snd entry) content_text in
  fst <$> severity_keywords = severity_levels
  ∧ ((∀ entry, entry ∈ severity_keywords → score entry = 0) →
       _determine_severity content_text = "Medium")
  ∧ ((∃ entry, entry ∈ severity_keywords ∧ 0 < score entry) →
       ∃ earlier winner later,
         severity_keywords = earlier ++ winner :: later
         ∧ _determine_severity content_text = fst winner
         ∧ 0 < score winner
         ∧ (∀ entry, entry ∈ earlier → score entry < score winner)
         ∧ (∀ entry, entry ∈ later → score entry ≤ score winner)).
Proof.
  cbn zeta. split_and!; [done | apply determine_all_zero | apply determine_first_max].
Qed.

Lemma rules_well_formed (item : NewsItem) : well_formed (_analyze_with_rules item).
Proof.
  unfold well_formed, _analyze_with_rules. cbn [a_category a_severity a_tags].
  split_and!.
  - apply rule_based_category_known.
  - apply rule_based_severity_known.
  - apply extract_tags_length.
Qed.

Lemma rules_from_text_well_formed (text : string) :
  well_formed (_analyze_with_rules_from_text text).
Proof.
  unfold well_formed, _analyze_with_rules_from_text. cbn [a_category a_severity a_tags].
  split_and!.
  - apply rule_based_category_known.
  - apply rule_based_severity_known.
  - apply extract_tags_length.
Qed.

(** X3.  Unless the analysis of a call is read from the JSON object of a
    model response, it lies within the data model: its category is one of
    the five labels, its severity one of the three tiers, and it has at most
    five tags. *)
Theorem analysis_well_formed_unless_json (env : CallEnv) (self : SummarizerTool)
    (item : NewsItem) :
  ¬ from_json env self →
  well_formed (fst (analyze_news_item env self item)).
Proof.
  intros Hnot. unfold analyze_news_item.
  destruct (flask_env_production env) eqn:Hprod; [apply rules_well_formed|].
  destruct (use_gemini self) eqn:Hon; [|apply rules_well_formed].
  unfold _analyze_with_gemini.
  destruct (gemini env) as [error_msg|text [j|]] eqn:Hg.
  - apply rules_well_formed.
  - destruct Hnot. split_and!; [done | done | by exists text, j].
  - apply rules_from_text_well_formed.
Qed.

(** A quota failure on the primary path, answered by the rules. *)
Lemma analysis_well_formed_unless_json_witness :
  well_formed (fst (analyze_news_item Samples.out_of_quota (Summarizer.init (Some "key"))
                      Samples.ransomware_story)).
Proof.
  apply analysis_well_formed_unless_json.
  intros (_ & _ & text & j & Hjson). discriminate Hjson.
Defined.

(** X4.  A call of [analyze_news_item] changes the state of the classifier
    exactly when it takes the primary path and the service fails with a quota
    message, and then it disables the primary strategy; a failure of any
    other kind is answered by the rules and leaves the strategy enabled. *)
Theorem analyze_changes_state_iff_quota (env : CallEnv) (self : SummarizerTool)
    (item : NewsItem) :
  (snd (analyze_news_item env self item) ≠ self ↔ quota_failure env self)
  ∧ (quota_failure env self →
     snd (analyze_news_item env self item) = {| use_gemini := false |})
  ∧ (∀ error_msg,
       flask_env_production env = false → use_gemini self = true →
       gemini env = GeminiRaised error_msg → is_quota_error error_msg = false →
       analyze_news_item env self item = (_analyze_with_rules item, self)).
Proof.
  unfold quota_failure, analyze_news_item, _analyze_with_gemini.
  destruct self as [on]. cbn [use_gemini].
  destruct (flask_env_production env) eqn:Hprod.
  { cbn [snd]. split_and!; [split; [done|by intros [? _]] | by intros [? _] | done]. }
  destruct on.
  2:{ cbn [snd]. split_and!; [split; [done|by intros (_ & ? & _)] | by intros (_ & ? & _) | done]. }
  destruct (gemini env) as [error_msg|text j] eqn:Hg.
  - destruct (is_quota_error error_msg) eqn:Hq; cbn [snd].
    + split_and!.
      * split; [intros _; split_and!; [done | done | by exists error_msg] | done].
      * done.
      * intros msg _ _ [= <-] Hmsg. congruence.
    + split_and!.
      * split; [done|]. intros (_ & _ & msg & [= <-] & Hmsg). congruence.
      * intros (_ & _ & msg & [= <-] & Hmsg). congruence.
      * intros msg _ _ [= <-] _. done.
  - cbn [snd]. split_and!.
    + split; [done | by intros (_ & _ & msg & ? & _)].
    + by intros (_ & _ & msg & ? & _).
    + intros msg _ _ ?. done.
Qed.

(** A timeout leaves the primary strategy enabled. *)
Lemma analyze_changes_state_iff_quota_witness :
  analyze_news_item
    {| flask_env_production := false; gemini := GeminiRaised "504 Deadline exceeded" |}
    (Summarizer.init (Some "key")) Samples.ransomware_story
  = (_analyze_with_rules Samples.ransomware_story, Summarizer.init (Some "key")).
Proof.
  apply (analyze_changes_state_iff_quota _ _ _) with "504 Deadline exceeded"; reflexivity.
Defined.

(* ===================================================================== *)
(** * Further properties of the aggregator *)
(* ===================================================================== *)

Lemma dedup_loop_acc (l : list NewsItem) : ∀ seen acc,
  snd (foldl dedup_step (seen, acc) l) = acc ++ snd (foldl dedup_step (seen, []) l).
Proof.
  induction l as [|x l IH]; intros seen acc; cbn [foldl].
  - cbn. by rewrite app_nil_r.
  - unfold dedup_step at 2 4. destruct (decide (title_key x ∈ seen)); [apply IH|].
    rewrite (IH _ (acc ++ [x])), (IH _ ([] ++ [x])). by rewrite <- app_assoc.
Qed.

Lemma dedup_loop_fresh (l : list NewsItem) : ∀ seen,
  NoDup (title_key <$> l) →
  (∀ x, x ∈ l → title_key x ∉ seen) →
  snd (foldl dedup_step (seen, []) l) = l.
Proof.
  induction l as [|x l IH]; intros seen Hnd Hfresh; [done|].
  cbn [foldl]. unfold dedup_step at 2.
  rewrite decide_False by (apply Hfresh, elem_of_cons; by left).
  rewrite dedup_loop_acc. cbn [app]. f_equal.
  apply NoDup_cons in Hnd as [Hx Hnd]. apply IH; [done|].
  intros y Hy. rewrite elem_of_union, elem_of_singleton. intros [Heq|Hin].
  - apply Hx. rewrite <- Heq. apply list_elem_of_fmap. by exists y.
  - apply (Hfresh y); [apply elem_of_cons; by right | done].
Qed.

Lemma dedup_distinct (l : list NewsItem) :
  NoDup (title_key <$> l) → _deduplicate_news l = l.
Proof.
  intros Hnd. apply dedup_loop_fresh; [done|]. intros x _. apply not_elem_of_empty.
Qed.

(** X5.  Deduplication is idempotent, and it returns a list whose normalised
    titles are already pairwise distinct as it is. *)
Theorem dedup_idempotent (news_items : list NewsItem) :
  _deduplicate_news (_deduplicate_news news_items) = _deduplicate_news news_items
  ∧ (NoDup (title_key <$> news_items) → _deduplicate_news news_items = news_items).
Proof.
  split; [apply dedup_distinct, dedup_NoDup | apply dedup_distinct].
Qed.

(** Three stories with three titles. *)
Lemma dedup_idempotent_witness :
  _deduplicate_news [Samples.ransomware_story; Samples.patch_story; Samples.conference_story]
  = [Samples.ransomware_story; Samples.patch_story; Samples.conference_story].
Proof.
  apply dedup_idempotent. apply (bool_decide_unpack _). by vm_compute.
Defined.

Lemma contains_empty (s : string) : contains EmptyString s = true.
Proof. apply contains_spec. by exists EmptyString, s. Qed.

Lemma search_news_filter (query : string) (items : list NewsItem) :
  search_news query items
  = filter (λ item, query_matches (lower query) item = true) items.
Proof. unfold search_news. by rewrite search_loop. Qed.

Lemma filter_idem {A} (P : A → Prop) `{!∀ x, Decision (P x)} (l : list A) :
  filter P (filter P l) = filter P l.
Proof.
  induction l as [|x l IH]; [done|]. destruct (decide (P x)).
  - rewrite !filter_cons_True by done. by rewrite IH.
  - by rewrite filter_cons_False.
Qed.

(** X6.  The empty query matches every item; searching a search result again
    for the same query changes nothing; a search of two lists one after the
    other is the two searches one after the other; and queries that differ
    only in the case of their letters give the same result. *)
Theorem search_news_edges (query : string) (items more : list NewsItem) :
  search_news EmptyString items = items
  ∧ search_news query (search_news query items) = search_news query items
  ∧ search_news query (items ++ more) = search_news query items ++ search_news query more
  ∧ (∀ query', lower query' = lower query →
       search_news query' items = search_news query items).
Proof.
  split_and!.
  - rewrite search_news_filter. induction items as [|x items IH]; [done|].
    rewrite filter_cons_True; [by rewrite IH|].
    unfold query_matches. cbn [lower]. by rewrite contains_empty.
  - rewrite !search_news_filter. apply filter_idem.
  - rewrite !search_news_filter. apply filter_app.
  - intros query' Heq. rewrite !search_news_filter. by rewrite Heq.
Qed.

(** The same word in two spellings. *)
Lemma search_news_edges_witness :
  search_news "RansomWare" Samples.all_stories = search_news "ransomware" Samples.all_stories.
Proof.
  apply (search_news_edges "ransomware" Samples.all_stories []). reflexivity.
Defined.

Lemma buckets_perm (items : list NewsItem) :
  concat (buckets (get_categorized_news items)) ≡ₚ items.
Proof.
  pose proof (get_categorized_news_inv items) as Hinv. unfold buckets.
  assert ((λ k, default [] (get_categorized_news items !! k)) <$> category_labels
          = (λ k, filter (λ item, bucket_of item = k) items) <$> category_labels)
    as ->.
  { apply list_fmap_ext. intros i k Hk. rewrite (Hinv k), decide_True; [done|].
    by eapply list_elem_of_lookup_2. }
  rewrite concat_filters_perm by apply category_labels_NoDup.
  rewrite filter_all_true; [done | apply bucket_of_label].
Qed.

(** X7.  When a connector lets an exception escape, [run_full_pipeline]
    still returns a result, and an empty one: no items, a total of 0, the
    five categories with empty buckets, the three counts at 0; the classifier
    is not called.  In every result the buckets of [categorized_news] hold
    the items of [news_items], each once. *)
Theorem pipeline_connector_failure {S} (tools : Tools S) (st : S) (max_items : Z) :
  let r := fst (run_full_pipeline tools st max_items) in
  ((∃ e, fetch_all tools max_items = inl e) →
     news_items r = []
     ∧ total_items r = 0
     ∧ categorized_news r = empty_buckets
     ∧ severity_stats r = empty_stats
     ∧ daily_digest r = generate_daily_digest tools []
     ∧ snd (run_full_pipeline tools st max_items) = st)
  ∧ concat (buckets (categorized_news r)) ≡ₚ news_items r.
Proof.
  cbn zeta. split.
  - intros [e He]. unfold run_full_pipeline.
    rewrite (collect_news_failed tools max_items e He). done.
  - destruct (run_full_pipeline_fields tools st max_items) as (-> & -> & _ & _).
    apply buckets_perm.
Qed.

(** The second connector fails. *)
Lemma pipeline_connector_failure_witness :
  let r := fst (run_full_pipeline Samples.failing_tools Samples.fresh_session 50) in
  news_items r = []
  ∧ total_items r = 0
  ∧ categorized_news r = empty_buckets
  ∧ severity_stats r = empty_stats
  ∧ daily_digest r = generate_daily_digest Samples.failing_tools []
  ∧ snd (run_full_pipeline Samples.failing_tools Samples.fresh_session 50)
    = Samples.fresh_session.
Proof.
  apply (pipeline_connector_failure Samples.failing_tools Samples.fresh_session 50).
  by eexists.
Defined.

(* ===================================================================== *)
(** * Further properties of the subscriber set *)
(* ===================================================================== *)

Section SubscriberCalls.
Import Notification SubscriberFile.

Implicit Types (self : NotificationService) (email : string).

Lemma remove_subscriber_spec email self :
  remove_subscriber email self
  = if decide (normalize email ∈ subscribers self)
    then (true, {| subscribers := subscribers self ∖ {[ normalize email ]} |})
    else (false, self).
Proof. done. Qed.

Lemma service_eq self self' : subscribers self = subscribers self' → self = self'.
Proof. destruct self, self'. cbn. by intros ->. Qed.

Lemma add_subscriber_elem email self e :
  e ∈ subscribers (snd (add_subscriber email self))
  ↔ e = normalize email ∨ e ∈ subscribers self.
Proof.
  rewrite add_subscriber_spec. case_decide; cbn.
  - split; [tauto | by intros [->|?]].
  - by rewrite elem_of_union, elem_of_singleton.
Qed.

Lemma remove_subscriber_elem email self e :
  e ∈ subscribers (snd (remove_subscriber email self))
  ↔ e ∈ subscribers self ∧ e ≠ normalize email.
Proof.
  rewrite remove_subscriber_spec. case_decide; cbn.
  - by rewrite elem_of_difference, elem_of_singleton.
  - split; [|tauto]. intros He. split; [done|]. by intros ->.
Qed.

End SubscriberCalls.

(** X8.  [remove_subscriber] returns True exactly when the normalised address
    is subscribed; afterwards it is not, and the other addresses are as
    before.  Removing an address that was just added to a set that lacked it
    gives the set back, and so does adding again an address just removed. *)
Theorem remove_subscriber_round_trip (email : string)
    (self : Notification.NotificationService) :
  let removed := Notification.remove_subscriber email self in
  (fst removed = true ↔ Notification.normalize email ∈ Notification.subscribers self)
  ∧ (Notification.normalize email ∉ Notification.subscribers (snd removed))
  ∧ (∀ e, e ≠ Notification.normalize email →
       (e ∈ Notification.subscribers (snd removed) ↔ e ∈ Notification.subscribers self))
  ∧ (Notification.normalize email ∉ Notification.subscribers self →
       snd (Notification.remove_subscriber email
              (snd (Notification.add_subscriber email self))) = self)
  ∧ (Notification.normalize email ∈ Notification.subscribers self →
       snd (Notification.add_subscriber email (snd removed)) = self).
Proof.
  cbn zeta. split_and!.
  - rewrite remove_subscriber_spec. case_decide; cbn; split; done.
  - rewrite remove_subscriber_elem. tauto.
  - intros e He. rewrite remove_subscriber_elem. tauto.
  - intros Hnin. apply service_eq, set_eq. intros e.
    rewrite remove_subscriber_elem, add_subscriber_elem.
    destruct (decide (e = Notification.normalize email)) as [->|]; tauto.
  - intros Hin. apply service_eq, set_eq. intros e.
    rewrite add_subscriber_elem, remove_subscriber_elem.
    destruct (decide (e = Notification.normalize email)) as [->|]; tauto.
Qed.

(** Subscribing and unsubscribing a third address. *)
Lemma remove_subscriber_round_trip_witness :
  snd (Notification.remove_subscriber "Carol@Example.com"
         (snd (Notification.add_subscriber "Carol@Example.com" Samples.two_subscribers)))
  = Samples.two_subscribers.
Proof.
  destruct (remove_subscriber_round_trip "Carol@Example.com" Samples.two_subscribers)
    as (_ & _ & _ & H & _).
  apply H. apply (bool_decide_unpack _). by vm_compute.
Defined.

(** X9.  The subscriber count grows by one exactly when [add_subscriber]
    returns True and shrinks by one exactly when [remove_subscriber] returns
    True; otherwise it stays. *)
Theorem subscriber_count_steps (email : string)
    (self : Notification.NotificationService) :
  SubscriberFile.get_subscriber_count (snd (Notification.add_subscriber email self))
  = SubscriberFile.get_subscriber_count self
    + (if fst (Notification.add_subscriber email self) then 1 else 0)
  ∧ SubscriberFile.get_subscriber_count (snd (Notification.remove_subscriber email self))
    + (if fst (Notification.remove_subscriber email self) then 1 else 0)
    = SubscriberFile.get_subscriber_count self.
Proof.
  unfold SubscriberFile.get_subscriber_count.
  rewrite add_subscriber_spec, remove_subscriber_spec. split.
  - case_decide as Hin; cbn; [lia|].
    rewrite size_union, size_singleton; [lia|].
    intros e. rewrite elem_of_singleton. by intros ->.
  - case_decide as Hin; cbn; [|lia].
    assert (Notification.subscribers self
            = {[Notification.normalize email]}
              ∪ Notification.subscribers self ∖ {[Notification.normalize email]}) as Heq.
    { apply set_eq. intros e.
      rewrite elem_of_union, elem_of_singleton, elem_of_difference, elem_of_singleton.
      destruct (decide (e = Notification.normalize email)) as [->|]; tauto. }
    assert (size (Notification.subscribers self)
            = 1 + size (Notification.subscribers self ∖ {[Notification.normalize email]}))
      as Hsize; [|lia].
    rewrite Heq at 1. rewrite size_union, size_singleton; [done|].
    intros e. rewrite elem_of_singleton, elem_of_difference, elem_of_singleton.
    intros -> [_ Hne]. done.
Qed.

Section WebLayer.
Import Notification App.

Implicit Types (self : NotificationService).

Lemma subscribe_status (email_field : string) self :
  fst (subscribe_to_notifications email_field self) = 200
  ↔ normalize email_field ≠ EmptyString
    ∧ valid_email (normalize email_field) = true
    ∧ normalize email_field ∉ subscribers self.
Proof.
  unfold subscribe_to_notifications. fold (normalize email_field).
  case_decide as Hempty; [cbn; split; [done | tauto]|].
  destruct (valid_email (normalize email_field)) eqn:Hvalid; cbn [negb];
    [|cbn; split; [done | by intros (_ & ? & _)]].
  rewrite add_subscriber_spec, normalize_idem.
  case_decide; cbn; split; try done; tauto.
Qed.

Lemma subscribe_elem (email_field : string) self e :
  e ∈ subscribers (snd (subscribe_to_notifications email_field self)) →
  e ∈ subscribers self ∨ (e = normalize email_field ∧ valid_email e = true).
Proof.
  unfold subscribe_to_notifications. fold (normalize email_field).
  case_decide; [by left|].
  destruct (valid_email (normalize email_field)) eqn:Hvalid; cbn [negb]; [|by left].
  rewrite add_subscriber_spec, normalize_idem.
  case_decide; cbn; [by left|].
  rewrite elem_of_union, elem_of_singleton. intros [->|?]; [by right | by left].
Qed.

Lemma unsubscribe_elem (email_field : string) self e :
  e ∈ subscribers (snd (unsubscribe_from_notifications email_field self)) →
  e ∈ subscribers self.
Proof.
  unfold unsubscribe_from_notifications. fold (normalize email_field).
  case_decide; [done|].
  destruct (valid_email (normalize email_field)); cbn [negb]; [|done].
  rewrite remove_subscriber_spec, normalize_idem.
  case_decide; cbn; [|done]. rewrite elem_of_difference. tauto.
Qed.

Lemma serve_valid (requests : list Request) : ∀ self,
  (∀ e, e ∈ subscribers self → valid_email e = true) →
  ∀ e, e ∈ subscribers (serve requests self) → valid_email e = true.
Proof.
  induction requests as [|r requests IH]; intros self Hinv; [done|].
  apply IH. intros e He. destruct r as [field|field]; cbn in He.
  - apply subscribe_elem in He as [He|[_ Hv]]; [by apply Hinv | done].
  - apply unsubscribe_elem in He. by apply Hinv.
Qed.

End WebLayer.

(** X10.  Through the handlers of the web layer the subscriber set only ever
    gains valid addresses: when every subscriber is a valid address, this
    still holds after any sequence of subscribe and unsubscribe requests.
    A subscribe request is answered with 200 exactly when the normalised
    address is not empty, is valid and was not subscribed. *)
Theorem web_layer_keeps_valid (requests : list App.Request)
    (self : Notification.NotificationService) :
  ((∀ e, e ∈ Notification.subscribers self → Notification.valid_email e = true) →
   ∀ e, e ∈ Notification.subscribers (App.serve requests self) →
        Notification.valid_email e = true)
  ∧ (∀ email_field,
       fst (Notification.subscribe_to_notifications email_field self) = 200
       ↔ Notification.normalize email_field ≠ EmptyString
         ∧ Notification.valid_email (Notification.normalize email_field) = true
         ∧ (Notification.normalize email_field ∉ Notification.subscribers self)).
Proof. split; [apply serve_valid | intros; apply subscribe_status]. Qed.

(** Two good requests and a bad one on the empty set. *)
Lemma web_layer_keeps_valid_witness :
  Forall (λ e, Notification.valid_email e = true)
    (elements (Notification.subscribers
       (App.serve [App.Subscribe " Alice@Example.com"; App.Subscribe "not an address";
                   App.Unsubscribe "bob@example.com"]
          (Notification.init Notification.NoFile)))).
Proof.
  apply Forall_forall. intros e He. apply elem_of_elements in He. revert e He.
  apply (web_layer_keeps_valid
           [App.Subscribe " Alice@Example.com"; App.Subscribe "not an address";
            App.Unsubscribe "bob@example.com"]
           (Notification.init Notification.NoFile)).
  intros e He. by apply not_elem_of_empty in He.
Defined.

Section FileRoundTrip.
Import Notification SubscriberFile.

Implicit Types (e cur text : string) (l : list ascii) (L : list string).

Lemma rev_app_rev_app (a b c : string) :
  String.rev_app (String.rev_app a b) c = String.rev_app b (a +:+ c).
Proof.
  revert b. induction a as [|x a IH]; intros b; [done|].
  cbn [String.rev_app]. by rewrite IH.
Qed.

Lemma list_of_append (a b : string) :
  list_ascii_of_string (a +:+ b) = list_ascii_of_string a ++ list_ascii_of_string b.
Proof. induction a as [|x a IH]; [done|]. cbn. by rewrite <- IH. Qed.

(** A line without a line break in it is read back as it was written. *)
Lemma lines_go_line e : ∀ cur text,
  one_line e →
  lines_go cur (e +:+ String LF text)
  = String.rev (String LF (String.rev_app e cur)) :: lines_go EmptyString text.
Proof.
  induction e as [|c e IH]; intros cur text Hone.
  - change (EmptyString +:+ String LF text) with (String LF text). done.
  - apply Forall_cons in Hone as [[Hlf Hcr] Hone].
    change (String c e +:+ String LF text) with (String c (e +:+ String LF text)).
    cbn [lines_go String.rev_app].
    rewrite (proj2 (Ascii.eqb_neq c LF) Hlf), (proj2 (Ascii.eqb_neq c CR) Hcr).
    by apply IH.
Qed.

Lemma file_lines_saved L :
  Forall one_line L →
  file_lines (foldr (λ email text, email +:+ String LF text) EmptyString L)
  = (λ e, e +:+ String LF EmptyString) <$> L.
Proof.
  unfold file_lines. induction 1 as [|e L He _ IH]; [done|].
  cbn [foldr fmap list_fmap]. rewrite (lines_go_line e _ _ He), IH. f_equal.
  unfold String.rev. cbn [String.rev_app]. by rewrite rev_app_rev_app.
Qed.

Lemma strip_fixed_list e : strip e = e → strip_list (list_ascii_of_string e) = list_ascii_of_string e.
Proof.
  unfold strip. intros Heq. rewrite <- Heq at 2.
  by rewrite list_ascii_of_string_of_list_ascii.
Qed.

(** A trimmed, non-empty line keeps its text when its line end is stripped. *)
Lemma strip_line e : e ≠ EmptyString → strip e = e → strip (e +:+ String LF EmptyString) = e.
Proof.
  intros Hne Hfixed. pose proof (strip_fixed_list e Hfixed) as Hl.
  destruct (strip_list_spec (list_ascii_of_string e)) as (_ & _ & _ & _ & _ & Hfront & _).
  rewrite Hl in Hfront.
  unfold strip. rewrite list_of_append. cbn [list_ascii_of_string].
  rewrite <- Hfixed at 2. unfold strip. f_equal. unfold strip_list.
  destruct (list_ascii_of_string e) as [|c l] eqn:Hlist.
  { destruct e; [done | discriminate Hlist]. }
  cbn in Hfront. cbn [app lstrip_list]. rewrite Hfront.
  change (c :: l ++ [LF]) with ((c :: l) ++ [LF]). rewrite rev_app_distr. done.
Qed.

Lemma load_saved_lines L :
  Forall (λ e, e ≠ EmptyString ∧ strip e = e ∧ lower e = e) L →
  normalize <$> filter (λ line, strip line ≠ EmptyString)
                  ((λ e, e +:+ String LF EmptyString) <$> L)
  = L.
Proof.
  induction 1 as [|e L (Hne & Hstrip & Hlower) _ IH]; [done|].
  cbn [fmap list_fmap]. rewrite filter_cons_True by (by rewrite strip_line).
  cbn [fmap list_fmap]. fold (fmap (M:=list) normalize). rewrite IH. f_equal.
  unfold normalize. by rewrite strip_line, Hlower.
Qed.

Lemma sorted_subscribers_elem (s : gset string) e : e ∈ sorted_subscribers s ↔ e ∈ s.
Proof. unfold sorted_subscribers. by rewrite merge_sort_Permutation, elem_of_elements. Qed.

Lemma sorted_subscribers_set (s : gset string) : list_to_set (sorted_subscribers s) = s.
Proof.
  unfold sorted_subscribers. rewrite merge_sort_Permutation. apply list_to_set_elements_L.
Qed.

Lemma save_load_lines (self : NotificationService) :
  (∀ e, e ∈ subscribers self →
        e ≠ EmptyString ∧ strip e = e ∧ lower e = e ∧ one_line e) →
  load_text (_save_subscribers self) = subscribers self.
Proof.
  intros Hall. unfold load_text, _save_subscribers, _load_subscribers.
  rewrite file_lines_saved, load_saved_lines.
  - apply sorted_subscribers_set.
  - apply Forall_forall. intros e He. apply sorted_subscribers_elem in He.
    destruct (Hall e He) as (? & ? & ? & _). done.
  - apply Forall_forall. intros e He. apply sorted_subscribers_elem in He.
    by destruct (Hall e He) as (_ & _ & _ & ?).
Qed.

End FileRoundTrip.

Section ValidAddresses.
Import Notification SubscriberFile.

Implicit Types (l : list ascii) (e : string).

Lemma span_plain_spec l :
  l = fst (span_plain l) ++ snd (span_plain l)
  ∧ forallb plain_char (fst (span_plain l)) = true.
Proof.
  induction l as [|c l [IH1 IH2]]; [done|]. cbn [span_plain].
  destruct (plain_char c) eqn:Hc; [|done]. cbn [fst snd app forallb].
  rewrite Hc, IH2. split; [by rewrite <- IH1 | done].
Qed.

Lemma plain_char_not_space c : plain_char c = true → isspace c = false.
Proof.
  unfold plain_char. rewrite andb_true_iff, negb_true_iff. tauto.
Qed.

(** An address that the pattern accepts has no white space and is not empty. *)
Lemma match_email_no_space l :
  match_email l = true → l ≠ [] ∧ Forall (λ c, isspace c = false) l.
Proof.
  unfold match_email. destruct (span_plain_spec l) as [Hl Hlocal].
  destruct (span_plain l) as [local_part rest]. cbn [fst snd] in *.
  destruct local_part as [|c local_part]; [done|].
  destruct rest as [|at_sign domain]; [done|].
  rewrite andb_true_iff. unfold domain_ok. rewrite andb_true_iff.
  intros [Hat [Hdomain _]]. apply Ascii.eqb_eq in Hat as ->.
  split; [by rewrite Hl|]. rewrite Hl. apply Forall_app. split.
  - apply Forall_forall. intros x Hx. apply plain_char_not_space.
    apply forallb_forall with (x := x) in Hlocal; [done | by apply list_elem_of_In].
  - constructor; [done|]. apply Forall_forall. intros x Hx. apply plain_char_not_space.
    apply forallb_forall with (x := x) in Hdomain; [done | by apply list_elem_of_In].
Qed.

Lemma reverse_rev l : reverse l = rev l.
Proof. induction l as [|c l IH]; [done|]. rewrite reverse_cons, IH. done. Qed.

Lemma chop_newline_trimmed l : starts_plain (rev l) → chop_newline l = l.
Proof.
  unfold chop_newline. rewrite reverse_rev. destruct (rev l) as [|c before]; [done|].
  cbn. intros Hc. destruct (Ascii.eqb c "010") eqn:Heq; [|done].
  apply Ascii.eqb_eq in Heq as ->. discriminate Hc.
Qed.

Lemma valid_trimmed_plain e :
  valid_email e = true → strip e = e →
  e ≠ EmptyString ∧ one_line e.
Proof.
  intros Hvalid Hfixed. pose proof (strip_fixed_list e Hfixed) as Hl.
  destruct (strip_list_spec (list_ascii_of_string e)) as (_ & _ & _ & _ & _ & _ & Hback).
  rewrite Hl in Hback. unfold valid_email in Hvalid.
  rewrite (chop_newline_trimmed _ Hback), orb_diag in Hvalid.
  apply match_email_no_space in Hvalid as [Hne Hplain]. split.
  - intros ->. done.
  - unfold one_line. eapply Forall_impl; [exact Hplain|].
    intros c Hc. split; intros ->; discriminate Hc.
Qed.

End ValidAddresses.

(** X11.  Saving the subscriber set and loading the file again gives the same
    set, provided that every address is non-empty, trimmed, lower-cased and
    free of line breaks; this is the case when every address is valid,
    trimmed and lower-cased, as the web layer leaves them. *)
Theorem save_load_round_trip (self : Notification.NotificationService) :
  ((∀ e, e ∈ Notification.subscribers self →
         e ≠ EmptyString ∧ strip e = e ∧ lower e = e ∧ SubscriberFile.one_line e) →
   SubscriberFile.load_text (SubscriberFile._save_subscribers self)
   = Notification.subscribers self)
  ∧ ((∀ e, e ∈ Notification.subscribers self →
           Notification.valid_email e = true ∧ strip e = e ∧ lower e = e) →
     SubscriberFile.load_text (SubscriberFile._save_subscribers self)
     = Notification.subscribers self).
Proof.
  split; [apply save_load_lines|]. intros Hall. apply save_load_lines.
  intros e He. destruct (Hall e He) as (Hvalid & Hstrip & Hlower).
  destruct (valid_trimmed_plain e Hvalid Hstrip) as [Hne Hone]. done.
Qed.

(** The two sample subscribers. *)
Lemma save_load_round_trip_witness :
  SubscriberFile.load_text (SubscriberFile._save_subscribers Samples.two_subscribers)
  = Notification.subscribers Samples.two_subscribers.
Proof.
  apply save_load_round_trip. intros e He. apply elem_of_elements in He.
  vm_compute in He. list_cases He; by vm_compute.
Defined.

(** An empty address, which [add_subscriber] accepts, does not survive. *)
Example empty_address_lost :
  elements (Notification.subscribers
              (snd (Notification.add_subscriber "  " (Notification.init Notification.NoFile))))
  = [EmptyString]
  ∧ elements (SubscriberFile.load_text
                (SubscriberFile._save_subscribers
                   (snd (Notification.add_subscriber "  "
                           (Notification.init Notification.NoFile)))))
    = [].
Proof. split; by vm_compute. Qed.

(* ===================================================================== *)
(** * The cache of the dashboard *)
(* ===================================================================== *)

Lemma index_cached {S} (tools : Tools S) (now stamp_now : datetime) (st : S)
    (cache : App.NewsCache) :
  App.cache_expired now cache = false →
  App.index tools now stamp_now st cache = (App.cache_data cache, cache, st).
Proof. intros Hfresh. unfold App.index. by rewrite Hfresh. Qed.

(** X12.  The dashboard serves the cached result, without running the
    pipeline, exactly when the cache is filled and the whole seconds of its
    age, taken modulo one day, do not exceed the cache duration.  With the
    duration of 3600 seconds, a cache younger than a day is refreshed exactly
    from an age of 3601 seconds on, and a cache whose age is any number of
    whole days plus less than 3601 seconds is served as it is. *)
Theorem cache_age_wraps_daily {S} (tools : Tools S) (now stamp_now stamp : datetime)
    (st : S) (cache : App.NewsCache) (result : PipelineResult) :
  App.cache_data cache = Some result →
  App.cache_timestamp cache = Some stamp →
  App.cache_duration cache = 3600%Z →
  let age := (wall_clock now - wall_clock stamp)%Z in
  (App.cache_expired now cache = true ↔ (3600 < (age / 1000000) mod 86400)%Z)
  ∧ ((0 ≤ age < 86400000000)%Z →
     (App.cache_expired now cache = true ↔ (3601000000 ≤ age)%Z))
  ∧ (∀ days rest : Z,
       (0 ≤ days)%Z → (0 ≤ rest < 3601000000)%Z →
       age = (days * 86400000000 + rest)%Z →
       App.index tools now stamp_now st cache = (Some result, cache, st))
  ∧ (App.cache_expired now cache = true →
     fst (fst (App.index tools now stamp_now st cache))
     = Some (fst (run_full_pipeline tools st 50))).
Proof.
  intros Hdata Hstamp Hduration age.
  assert (App.cache_expired now cache
          = (3600 <? (age / 1000000) mod 86400)%Z) as Hexp.
  { unfold App.cache_expired, App.timedelta_seconds. by rewrite Hdata, Hstamp, Hduration. }
  split_and!.
  - rewrite Hexp. apply Z.ltb_lt.
  - intros Hage. rewrite Hexp, Z.ltb_lt.
    rewrite Z.mod_small by (split; [apply Z.div_pos; lia | apply Z.div_lt_upper_bound; lia]).
    split; intros H.
    + destruct (Z_lt_ge_dec age 3601000000) as [Hlt|]; [|lia].
      assert (age / 1000000 < 3601)%Z by (apply Z.div_lt_upper_bound; lia). lia.
    + assert (3601 ≤ age / 1000000)%Z by (apply Z.div_le_lower_bound; lia). lia.
  - intros days rest Hdays Hrest Hage.
    rewrite index_cached; [by rewrite Hdata|].
    rewrite Hexp. apply Z.ltb_ge. rewrite Hage.
    replace (days * 86400000000 + rest)%Z with (rest + (days * 86400) * 1000000)%Z by lia.
    rewrite Z.div_add by lia.
    rewrite (Z.add_comm (rest / 1000000)).
    replace (days * 86400 + rest / 1000000)%Z with (rest / 1000000 + days * 86400)%Z by lia.
    rewrite Z.mod_add by lia.
    assert (0 ≤ rest / 1000000 < 3601)%Z
      by (split; [apply Z.div_pos; lia | apply Z.div_lt_upper_bound; lia]).
    rewrite Z.mod_small by lia. lia.
  - intros Hexpired. unfold App.index. rewrite Hexpired.
    by destruct (run_full_pipeline tools st 50).
Qed.

(** A cache three days and half an hour old is served as it is. *)
Lemma cache_age_wraps_daily_witness :
  let result := fst (run_full_pipeline Samples.production_tools Samples.fresh_session 50) in
  App.index Samples.production_tools Samples.three_days_later Samples.three_days_later
    Samples.fresh_session (Samples.old_cache result)
  = (Some result, Samples.old_cache result, Samples.fresh_session).
Proof.
  cbn zeta.
  refine (proj1 (proj2 (proj2
            (cache_age_wraps_daily Samples.production_tools Samples.three_days_later
               Samples.three_days_later Samples.epoch Samples.fresh_session
               (Samples.old_cache _) _ eq_refl eq_refl eq_refl)))
            3%Z 1800000000%Z _ _ _).
  - lia.
  - lia.
  - reflexivity.
Defined.

(* --------------------------------------------------------------------- *)
(** ** The daily digest *)
(* --------------------------------------------------------------------- *)

Section Digest.
Import ReportGenerator ReportDigest.

Implicit Types (x : NewsItem) (items : list NewsItem)
  (d : list (string * list NewsItem)).

Lemma append_to_keys c x d :
  fst <$> append_to c x d
  = if decide (c ∈ fst <$> d) then fst <$> d else (fst <$> d) ++ [c].
Proof.
  induction d as [|[k b] d IH]; cbn.
  - rewrite decide_False; [done | apply not_elem_of_nil].
  - destruct (decide (k = c)) as [->|Hne]; cbn.
    + rewrite decide_True; [done | apply elem_of_cons; by left].
    + rewrite IH. destruct (decide (c ∈ fst <$> d)) as [Hin|Hnin].
      * rewrite decide_True; [done | apply elem_of_cons; by right].
      * rewrite decide_False; [done|].
        rewrite elem_of_cons. intros [Heq|Hin]; [by apply Hne | by apply Hnin].
Qed.

Lemma lookup_append_to k c x d :
  lookup_entry k (append_to c x d)
  = if decide (k = c) then Some (default [] (lookup_entry c d) ++ [x])
    else lookup_entry k d.
Proof.
  induction d as [|[k' b] d IH]; cbn.
  - repeat case_decide; congruence.
  - destruct (decide (k' = c)) as [->|Hne]; cbn.
    + repeat case_decide; congruence.
    + rewrite IH. repeat case_decide; congruence.
Qed.

Lemma concat_append_to c x d :
  concat (snd <$> append_to c x d) ≡ₚ x :: concat (snd <$> d).
Proof.
  induction d as [|[k b] d IH]; cbn; [done|].
  case_decide; cbn.
  - rewrite <- (assoc_L (++)). cbn. by rewrite <- Permutation_middle.
  - rewrite IH. by rewrite <- Permutation_middle.
Qed.

Lemma categorize_snoc items x :
  _categorize_news_items (items ++ [x])
  = append_to (category x) x (_categorize_news_items items).
Proof. unfold _categorize_news_items. by rewrite foldl_app. Qed.

Lemma categorize_keys items :
  fst <$> _categorize_news_items items
  = reverse (remove_dups (reverse (category <$> items))).
Proof.
  induction items as [|x items IH] using rev_ind; [done|].
  rewrite categorize_snoc, append_to_keys, IH.
  rewrite fmap_app, reverse_app.
  change (reverse (category <$> [x]) ++ reverse (category <$> items))
    with (category x :: reverse (category <$> items)).
  cbn [remove_dups].
  destruct (decide_rel elem_of (category x) (reverse (category <$> items)))
    as [Hin|Hnin].
  - rewrite decide_True; [done|]. by rewrite elem_of_reverse, elem_of_remove_dups.
  - rewrite decide_False; [by rewrite reverse_cons|].
    by rewrite elem_of_reverse, elem_of_remove_dups.
Qed.

Lemma categorize_NoDup items : NoDup (fst <$> _categorize_news_items items).
Proof. rewrite categorize_keys, reverse_Permutation. apply NoDup_remove_dups. Qed.

Lemma categorize_lookup items k :
  lookup_entry k (_categorize_news_items items)
  = match filter (λ item, category item = k) items with
    | [] => None
    | bucket => Some bucket
    end.
Proof.
  induction items as [|x items IH] using rev_ind; [done|].
  rewrite categorize_snoc, lookup_append_to, filter_app.
  destruct (decide (k = category x)) as [->|Hne].
  - rewrite IH. rewrite (filter_cons_True _ x []) by done.
    rewrite filter_nil.
    destruct (filter (λ item, category item = category x) items); done.
  - rewrite (filter_cons_False _ x []) by congruence.
    rewrite filter_nil, app_nil_r. apply IH.
Qed.

Lemma lookup_entry_elem d k bucket :
  NoDup (fst <$> d) → (k, bucket) ∈ d ↔ lookup_entry k d = Some bucket.
Proof.
  induction d as [|[k' b] d IH]; cbn; intros Hnd.
  - split; [by intros ?%elem_of_nil | done].
  - apply NoDup_cons in Hnd as [Hk' Hnd]. rewrite elem_of_cons, (IH Hnd).
    destruct (decide (k' = k)) as [->|Hne].
    + split.
      * intros [Heq|Hlook]; [congruence|].
        exfalso. apply Hk'. apply (IH Hnd) in Hlook.
        apply list_elem_of_fmap. by exists (k, bucket).
      * intros [= ->]. by left.
    + split; [intros [Heq|Hlook]; [congruence | done] | by right].
Qed.

Lemma categorize_elem items c bucket :
  (c, bucket) ∈ _categorize_news_items items
  ↔ bucket ≠ [] ∧ bucket = filter (λ item, category item = c) items.
Proof.
  rewrite (lookup_entry_elem _ _ _ (categorize_NoDup items)), categorize_lookup.
  destruct (filter (λ item, category item = c) items) as [|y l].
  - split; [done | by intros [? ->]].
  - split; [by intros [= <-] | by intros [_ ->]].
Qed.

Lemma categorize_perm items :
  concat (snd <$> _categorize_news_items items) ≡ₚ items.
Proof.
  induction items as [|x items IH] using rev_ind; [done|].
  rewrite categorize_snoc, concat_append_to, IH.
  by rewrite <- Permutation_cons_append.
Qed.

Lemma trend_part_returns items :
  ∃ trend, trend_part (_get_severity_statistics items) = inr trend.
Proof.
  unfold trend_part. rewrite (statistics_getitem items "High" High_level).
  cbn [bind]. case_match; [by eexists|].
  rewrite (statistics_getitem items "Medium" Medium_level).
  cbn [bind]. case_match; by eexists.
Qed.

Lemma template_digest_returns items :
  ∃ text, _generate_template_digest items = inr text.
Proof.
  unfold _generate_template_digest.
  destruct (trend_part_returns items) as [trend ->]. by eexists.
Qed.

End Digest.

(** X13.  The digest's grouping keys its dictionary by the categories of the
    items in the order in which they first occur; each key occurs once and
    holds, non-empty and in list order, exactly the items of that category;
    together the groups hold the items once each.  For a label other than
    General the group is the list that [get_categorized_news] files under that
    label. *)
Theorem categorize_news_items_groups (items : list NewsItem) :
  let categorized := ReportDigest._categorize_news_items items in
  fst <$> categorized = reverse (remove_dups (reverse (category <$> items)))
  ∧ NoDup (fst <$> categorized)
  ∧ (∀ c bucket,
       (c, bucket) ∈ categorized
       ↔ bucket ≠ [] ∧ bucket = filter (λ item, category item = c) items)
  ∧ concat (snd <$> categorized) ≡ₚ items
  ∧ (∀ c bucket,
       (c, bucket) ∈ categorized → c ∈ category_labels → c ≠ "General" →
       get_categorized_news items !! c = Some bucket).
Proof.
  cbn zeta. split_and!.
  - apply categorize_keys.
  - apply categorize_NoDup.
  - apply categorize_elem.
  - apply categorize_perm.
  - intros c bucket Hin Hlabel Hgeneral.
    apply categorize_elem in Hin as [_ ->].
    rewrite (get_categorized_news_inv items c), decide_True by done. f_equal.
    apply list_filter_iff. intros item. unfold bucket_of.
    case_decide as Hcat; [done|]. split; [congruence|].
    intros Heq. exfalso. apply Hcat. by rewrite Heq.
Qed.

Section DigestCalls.
Import ReportGenerator ReportDigest.

Implicit Types (env : DigestEnv) (self : ReportGeneratorTool)
  (items : list NewsItem).

Lemma offline_digest_returns items : ∃ text, offline_digest items = inr text.
Proof.
  destruct items as [|x items]; [by eexists|]. apply template_digest_returns.
Qed.

(** Without the service the digest is the offline one and the state stays. *)
Lemma digest_offline env self items :
  flask_env_production env = true ∨ use_gemini self = false →
  generate_daily_digest env self items = (offline_digest items, self).
Proof.
  intros Hoff. destruct items as [|x items]; [done|].
  unfold generate_daily_digest, offline_digest.
  destruct (flask_env_production env); [done|].
  destruct Hoff as [Hprod | ->]; done.
Qed.

Lemma digest_service env self items :
  items ≠ [] → flask_env_production env = false → use_gemini self = true →
  generate_daily_digest env self items = _generate_ai_digest (gemini env) self items.
Proof.
  intros Hne Hdev Hon. destruct items as [|x items]; [done|].
  unfold generate_daily_digest. by rewrite Hdev, Hon.
Qed.

Lemma digest_returns env self items :
  ∃ text, fst (generate_daily_digest env self items) = inr text.
Proof.
  destruct (decide (flask_env_production env = true ∨ use_gemini self = false))
    as [Hoff|Hon].
  - rewrite (digest_offline env self items Hoff). apply offline_digest_returns.
  - destruct items as [|x items]; [by eexists|].
    rewrite digest_service; [|done|..].
    + unfold _generate_ai_digest. destruct (gemini env); cbn [fst].
      * apply template_digest_returns.
      * by eexists.
    + destruct (flask_env_production env); [|done]. exfalso. apply Hon. by left.
    + destruct (use_gemini self); [done|]. exfalso. apply Hon. by right.
Qed.

Lemma digests_disabled (calls : list (DigestEnv * list NewsItem)) :
  digests {| use_gemini := false |} calls
  = ((λ c, offline_digest (snd c)) <$> calls, {| use_gemini := false |}).
Proof.
  induction calls as [|c calls IH]; [done|].
  cbn [digests]. rewrite digest_offline by (by right). cbn [fst snd].
  by rewrite IH.
Qed.

End DigestCalls.

(** X14.  The report generator's [generate_daily_digest] always returns a
    text and never raises, so the [except] branch of the agent's wrapper
    around it is never taken; for no items the text is the fixed sentence,
    and in production or with the service disabled it is the template digest;
    in both cases the state is left as it was. *)
Theorem digest_always_text {St : Type} (tools : Tools St)
    (env : ReportDigest.DigestEnv) (self : ReportDigest.ReportGeneratorTool)
    (items : list NewsItem) :
  report_daily_digest tools
    = (λ news_items, fst (ReportDigest.generate_daily_digest env self news_items)) →
  fst (ReportDigest.generate_daily_digest env self items)
    = inr (generate_daily_digest tools items)
  ∧ ReportDigest.generate_daily_digest env self []
    = (inr "No cybersecurity news items available for today's digest.", self)
  ∧ (ReportDigest.flask_env_production env = true
     ∨ ReportDigest.use_gemini self = false →
     ReportDigest.generate_daily_digest env self items
     = (ReportDigest.offline_digest items, self)).
Proof.
  intros Htools.
  destruct (digest_returns env self items) as [text Htext].
  split_and!.
  - unfold generate_daily_digest. by rewrite Htools, Htext.
  - done.
  - apply digest_offline.
Qed.

Lemma digest_always_text_witness :
  fst (ReportDigest.generate_daily_digest Samples.digest_out_of_quota
         Samples.digest_enabled [Samples.critical_story])
  = inr (generate_daily_digest Samples.digest_tools [Samples.critical_story]).
Proof.
  apply (digest_always_text Samples.digest_tools Samples.digest_out_of_quota
           Samples.digest_enabled [Samples.critical_story]).
  reflexivity.
Defined.

(** X15.  When the digest's call of the generative service fails, the
    template digest is returned; the failure disables the service for the
    instance exactly when the error text contains "quota" in any letter case
    or "429", and otherwise leaves the state as it was.  Once disabled, the
    instance answers every later request offline and stays disabled. *)
Theorem digest_quota_downgrade (env : ReportDigest.DigestEnv)
    (self : ReportDigest.ReportGeneratorTool) (items : list NewsItem)
    (error_msg : string) :
  items ≠ [] →
  ReportDigest.flask_env_production env = false →
  ReportDigest.use_gemini self = true →
  ReportDigest.gemini env = ReportDigest.DigestRaised error_msg →
  let r := ReportDigest.generate_daily_digest env self items in
  fst r = ReportDigest._generate_template_digest items
  ∧ (snd r = {| ReportDigest.use_gemini := false |}
     ↔ contains "quota" (lower error_msg) = true ∨ contains "429" error_msg = true)
  ∧ (snd r = self
     ↔ contains "quota" (lower error_msg) = false ∧ contains "429" error_msg = false)
  ∧ (∀ calls,
       ReportDigest.digests {| ReportDigest.use_gemini := false |} calls
       = ((λ c, ReportDigest.offline_digest (snd c)) <$> calls,
          {| ReportDigest.use_gemini := false |})).
Proof.
  intros Hne Hdev Hon Hraised. cbn zeta.
  rewrite (digest_service env self items Hne Hdev Hon), Hraised.
  unfold ReportDigest._generate_ai_digest. cbn [fst snd].
  destruct self as [enabled]. cbn in Hon. subst enabled.
  split_and!.
  - done.
  - destruct (contains "quota" (lower error_msg)), (contains "429" error_msg);
      cbn [orb]; split; try done; try (by left); try (by right); by intros [|].
  - destruct (contains "quota" (lower error_msg)), (contains "429" error_msg);
      cbn [orb]; split; try done; by intros [].
  - apply digests_disabled.
Qed.

Lemma digest_quota_downgrade_witness :
  let r := ReportDigest.generate_daily_digest Samples.digest_out_of_quota
             Samples.digest_enabled [Samples.critical_story] in
  fst r = ReportDigest._generate_template_digest [Samples.critical_story]
  ∧ snd r = {| ReportDigest.use_gemini := false |}.
Proof.
  cbn zeta.
  destruct (digest_quota_downgrade Samples.digest_out_of_quota Samples.digest_enabled
              [Samples.critical_story]
              "429 Resource has been exhausted (e.g. check quota)."
              ltac:(done) eq_refl eq_refl eq_refl) as (Htext & Hstate & _).
  split; [exact Htext|]. apply Hstate. right. by vm_compute.
Defined.

(* --------------------------------------------------------------------- *)
(** ** The order of the articles in the e-mail *)
(* --------------------------------------------------------------------- *)

Section EmailOrder.
Import ReportGenerator ReportDigest.

Implicit Types (x : NewsItem) (items : list NewsItem)
  (e : (nat * Z) * NewsItem) (l : list ((nat * Z) * NewsItem)).

Lemma key_lt_spec (a b : nat * Z) :
  key_lt a b = true ↔ fst a < fst b ∨ (fst a = fst b ∧ (snd a < snd b)%Z).
Proof.
  unfold key_lt.
  by rewrite orb_true_iff, andb_true_iff, Nat.ltb_lt, Nat.eqb_eq, Z.ltb_lt.
Qed.

Lemma key_ge_spec (a b : nat * Z) :
  key_lt a b = false ↔ fst b < fst a ∨ (fst a = fst b ∧ (snd b ≤ snd a)%Z).
Proof. rewrite <- not_true_iff_false, key_lt_spec. lia. Qed.

Lemma key_ge_trans (a b c : nat * Z) :
  key_lt a b = false → key_lt b c = false → key_lt a c = false.
Proof. rewrite !key_ge_spec. lia. Qed.

Lemma key_lt_asym (a b : nat * Z) : key_lt a b = true → key_lt b a = false.
Proof. rewrite key_lt_spec, key_ge_spec. lia. Qed.

Lemma key_lt_ne (a b : nat * Z) : key_lt a b = true → a ≠ b.
Proof. rewrite key_lt_spec. intros H ->. lia. Qed.

Lemma insert_desc_perm e l : insert_desc e l ≡ₚ e :: l.
Proof.
  induction l as [|y l IH]; cbn; [done|].
  case_match; [|done]. rewrite IH. apply Permutation_swap.
Qed.

Lemma sorted_keyed_perm l : foldr insert_desc [] l ≡ₚ l.
Proof.
  induction l as [|e l IH]; cbn; [done|]. by rewrite insert_desc_perm, IH.
Qed.

Lemma insert_desc_sorted e l :
  StronglySorted (λ a b, key_lt (fst a) (fst b) = false) l →
  StronglySorted (λ a b, key_lt (fst a) (fst b) = false) (insert_desc e l).
Proof.
  induction 1 as [|y l Hl IH Hy]; cbn.
  - by repeat constructor.
  - destruct (key_lt (fst e) (fst y)) eqn:Hlt.
    + constructor; [done|]. rewrite insert_desc_perm.
      constructor; [by apply key_lt_asym | done].
    + constructor; [by constructor|].
      constructor; [done|]. eapply Forall_impl; [exact Hy|].
      intros z Hz. by eapply key_ge_trans.
Qed.

Lemma sorted_keyed_sorted l :
  StronglySorted (λ a b, key_lt (fst a) (fst b) = false) (foldr insert_desc [] l).
Proof.
  induction l as [|e l IH]; cbn; [constructor | by apply insert_desc_sorted].
Qed.

Lemma sort_key_known x k : sort_key x = inr k → k = key_of x.
Proof.
  unfold sort_key, key_of, getitem.
  destruct (severity_rank !! severity x) as [rank|]; cbn; [|done]. by intros [= <-].
Qed.

Lemma with_keys_inv items l :
  with_keys items = inr l → l = (λ x, (key_of x, x)) <$> items.
Proof.
  revert l. induction items as [|x items IH]; intros l; cbn [with_keys].
  - by intros [= <-].
  - destruct (sort_key x) as [exc|k] eqn:Hk; cbn; [done|].
    destruct (with_keys items) as [exc|keyed]; cbn; [done|].
    intros [= <-]. cbn. by rewrite (sort_key_known x k Hk), (IH keyed eq_refl).
Qed.

Lemma sorted_desc_inv items sorted :
  sorted_desc items = inr sorted →
  sorted = snd <$> foldr insert_desc [] ((λ x, (key_of x, x)) <$> items).
Proof.
  unfold sorted_desc. destruct (with_keys items) as [exc|keyed] eqn:Hkeys; cbn; [done|].
  intros [= <-]. by rewrite (with_keys_inv items keyed Hkeys).
Qed.

Lemma sorted_desc_known items sorted :
  sorted_desc items = inr sorted → Forall known_severity items.
Proof.
  intros Hsorted. destruct (decide (Forall known_severity items)) as [|Hnot]; [done|].
  destruct (with_keys_unknown items Hnot) as (bad & _ & _ & Hraise).
  unfold sorted_desc in Hsorted. by rewrite Hraise in Hsorted.
Qed.

(** The entries of the sorted list carry the keys of their items. *)
Lemma sorted_keyed_entries items :
  Forall (λ e, fst e = key_of (snd e))
    (foldr insert_desc [] ((λ x, (key_of x, x)) <$> items)).
Proof.
  rewrite sorted_keyed_perm. apply Forall_fmap, Forall_forall. by intros x _.
Qed.

Lemma sorted_by_key l :
  Forall (λ e, fst e = key_of (snd e)) l →
  StronglySorted (λ a b, key_lt (fst a) (fst b) = false) l →
  StronglySorted not_below (snd <$> l).
Proof.
  intros Hkeys. induction 1 as [|y l Hl IH Hy]; cbn; [constructor|].
  apply Forall_cons in Hkeys as [Hky Hkeys].
  constructor; [by apply IH|].
  apply Forall_fmap, Forall_forall. intros z Hz. cbn. unfold not_below.
  rewrite Forall_forall in Hy, Hkeys.
  rewrite <- Hky, <- (Hkeys z Hz). by apply Hy.
Qed.

(** Items of equal key keep their order. *)
Lemma insert_desc_filter (k : nat * Z) x l :
  Forall (λ e, fst e = key_of (snd e)) l →
  filter (λ y, key_of y = k) (snd <$> insert_desc (key_of x, x) l)
  = if decide (key_of x = k)
    then x :: filter (λ y, key_of y = k) (snd <$> l)
    else filter (λ y, key_of y = k) (snd <$> l).
Proof.
  induction 1 as [|[ky y] l Hy Hl IH]; cbn [insert_desc fst snd].
  - rewrite fmap_cons, fmap_nil. cbn [snd]. rewrite filter_cons, filter_nil.
    by case_decide.
  - cbn [fst snd] in Hy. subst ky.
    destruct (key_lt (key_of x) (key_of y)) eqn:Hlt.
    + apply key_lt_ne in Hlt. rewrite !fmap_cons. cbn [snd].
      rewrite !(filter_cons _ y), IH. repeat case_decide; congruence.
    + rewrite !fmap_cons. cbn [snd]. rewrite (filter_cons _ x). by case_decide.
Qed.

Lemma sorted_keyed_filter (k : nat * Z) items :
  filter (λ y, key_of y = k)
    (snd <$> foldr insert_desc [] ((λ x, (key_of x, x)) <$> items))
  = filter (λ y, key_of y = k) items.
Proof.
  induction items as [|x items IH]; [done|].
  rewrite fmap_cons. cbn [foldr].
  rewrite insert_desc_filter by apply sorted_keyed_entries.
  by rewrite filter_cons, IH.
Qed.

End EmailOrder.

(** X16.  When the e-mail's sort of the articles returns, its result holds
    the same items, ordered by falling severity rank and, within a rank, by
    falling publication time; items of equal rank and time keep their list
    order.  Hence none of the five articles shown has a smaller key than an
    article left out, and a High article is left out only when all five shown
    are High. *)
Theorem email_articles_order (items sorted : list NewsItem) :
  ReportGenerator.sorted_desc items = inr sorted →
  sorted ≡ₚ items
  ∧ StronglySorted ReportDigest.not_below sorted
  ∧ (∀ k, filter (λ x, ReportDigest.key_of x = k) sorted
          = filter (λ x, ReportDigest.key_of x = k) items)
  ∧ (∀ shown hidden,
       shown ∈ take 5 sorted → hidden ∈ drop 5 sorted →
       ReportDigest.not_below shown hidden)
  ∧ (∀ shown hidden,
       shown ∈ take 5 sorted → hidden ∈ drop 5 sorted →
       severity hidden = "High" → severity shown = "High").
Proof.
  intros Hsorted.
  pose proof (sorted_desc_known items sorted Hsorted) as Hknown.
  apply sorted_desc_inv in Hsorted. subst sorted.
  assert (StronglySorted ReportDigest.not_below
            (snd <$> foldr ReportGenerator.insert_desc []
                       ((λ x, (ReportDigest.key_of x, x)) <$> items))) as Hord.
  { apply sorted_by_key; [apply sorted_keyed_entries | apply sorted_keyed_sorted]. }
  assert (snd <$> foldr ReportGenerator.insert_desc []
                    ((λ x, (ReportDigest.key_of x, x)) <$> items) ≡ₚ items) as Hperm.
  { rewrite sorted_keyed_perm, <- list_fmap_compose. by rewrite list_fmap_id. }
  assert (∀ shown hidden,
            shown ∈ take 5 (snd <$> foldr ReportGenerator.insert_desc []
                              ((λ x, (ReportDigest.key_of x, x)) <$> items)) →
            hidden ∈ drop 5 (snd <$> foldr ReportGenerator.insert_desc []
                               ((λ x, (ReportDigest.key_of x, x)) <$> items)) →
            ReportDigest.not_below shown hidden) as Htop.
  { intros shown hidden Hshown Hhidden.
    rewrite <- (take_drop 5) in Hord.
    by eapply (StronglySorted_app_1_elem_of _ _ _ _ _ Hord). }
  split_and!; [done | done | | done |].
  - intros k. apply sorted_keyed_filter.
  - intros shown hidden Hshown Hhidden Hhigh.
    pose proof (Htop shown hidden Hshown Hhidden) as Hge.
    assert (known_severity shown) as Hk.
    { rewrite Forall_forall in Hknown. apply Hknown. rewrite <- Hperm.
      apply elem_of_take in Hshown as (i & Hi & _). by eapply list_elem_of_lookup_2. }
    unfold ReportDigest.not_below in Hge. apply key_ge_spec in Hge.
    unfold ReportDigest.key_of in Hge. cbn [fst snd] in Hge. rewrite Hhigh in Hge.
    unfold known_severity, severity_levels in Hk. rewrite !elem_of_cons in Hk.
    destruct Hk as [Hs|[Hs|[Hs|Hs]]]; [done | | | by apply elem_of_nil in Hs];
      rewrite Hs in Hge; vm_compute in Hge; lia.
Qed.

Lemma email_articles_order_witness :
  let items := [Samples.low_story; Samples.high_story; Samples.medium_story;
                Samples.late_high_story] in
  let sorted := [Samples.late_high_story; Samples.high_story; Samples.medium_story;
                 Samples.low_story] in
  ReportGenerator.sorted_desc items = inr sorted
  ∧ sorted ≡ₚ items
  ∧ StronglySorted ReportDigest.not_below sorted.
Proof.
  cbn zeta.
  assert (ReportGenerator.sorted_desc
            [Samples.low_story; Samples.high_story; Samples.medium_story;
             Samples.late_high_story]
          = inr [Samples.late_high_story; Samples.high_story; Samples.medium_story;
                 Samples.low_story]) as Hsorted by (by vm_compute).
  split; [exact Hsorted|].
  destruct (email_articles_order _ _ Hsorted) as (Hperm & Hord & _).
  by split.
Defined.

(* --------------------------------------------------------------------- *)
(** ** The notification run *)
(* --------------------------------------------------------------------- *)

Section DeliveryRun.
Import ReportGenerator.

Context (tpl : EmailTemplate) (clock : Clock) (text : Delivery.WebhookText).

Implicit Types (x : NewsItem) (items : list NewsItem) (net : Delivery.Network).

Lemma str_take_length n (s : string) : len (str_take n s) ≤ n.
Proof.
  unfold len, str_take. revert s. induction n as [|n IH]; intros [|c s]; cbn; try lia.
  specialize (IH s). lia.
Qed.

Lemma delivery_statistics_getitem items k :
  k ∈ severity_levels →
  getitem (Delivery._get_severity_statistics items) k
  = inr (length (filter (λ item, severity item = k) items)).
Proof. exact (statistics_getitem items k). Qed.

Lemma email_summary_known items :
  Forall known_severity items → ∃ email, generate_email_summary tpl clock items = inr email.
Proof.
  intros Hall. unfold generate_email_summary.
  destruct (subject_of_returns tpl items) as [subject ->]. cbn [bind].
  destruct (format_email_html_known tpl clock items Hall) as [html ->]. cbn [bind].
  by eexists.
Qed.

Lemma email_summary_unknown items :
  ¬ Forall known_severity items → ∃ exc, generate_email_summary tpl clock items = inl exc.
Proof.
  intros Hnot. unfold generate_email_summary.
  destruct (subject_of_returns tpl items) as [subject ->]. cbn [bind].
  destruct (format_email_html_unknown tpl clock items Hnot) as (bad & _ & _ & ->).
  by eexists.
Qed.

Lemma send_email_spec net items :
  (Forall known_severity items
   ∧ ∃ email, generate_email_summary tpl clock items = inr email
              ∧ Delivery._send_email_notification_to_subscribers tpl clock net items
                = if Delivery.smtp_session net then inr email
                  else inl (Exception "SMTP session failed"))
  ∨ (¬ Forall known_severity items
     ∧ ∃ exc, Delivery._send_email_notification_to_subscribers tpl clock net items
              = inl exc).
Proof.
  unfold Delivery._send_email_notification_to_subscribers.
  destruct (decide (Forall known_severity items)) as [Hall|Hnot].
  - left. split; [done|]. destruct (email_summary_known items Hall) as [email Hemail].
    exists email. split; [done|]. rewrite Hemail. cbn [bind]. by case_match.
  - right. split; [done|]. destruct (email_summary_unknown items Hnot) as [exc ->].
    by exists exc.
Qed.

Lemma webhook_payload_returns items :
  ∃ payload,
    Delivery.webhook_payload text items = inr payload
    ∧ Delivery.color payload
      = (if 0 <? length (filter (λ item, severity item = "High") items)
         then 16711680%Z else 16753920%Z)
    ∧ ∃ statistics dashboard,
        Delivery.fields payload
        = [statistics; dashboard] ++ Delivery.top_stories text items.
Proof.
  unfold Delivery.webhook_payload.
  rewrite (delivery_statistics_getitem items "High" High_level). cbn [bind].
  rewrite (delivery_statistics_getitem items "Medium" Medium_level). cbn [bind].
  rewrite (delivery_statistics_getitem items "Low" Low_level). cbn [bind].
  eexists. split; [reflexivity|]. split; [reflexivity|]. by eexists _, _.
Qed.

Lemma send_webhook_spec net items :
  ∃ payload,
    Delivery.webhook_payload text items = inr payload
    ∧ Delivery._send_webhook_notification text net items
      = if Delivery.webhook_accepts net then inr payload
        else inl (Exception "webhook request failed").
Proof.
  destruct (webhook_payload_returns items) as (payload & Hpayload & _).
  exists payload. split; [done|].
  unfold Delivery._send_webhook_notification. rewrite Hpayload. cbn [bind].
  by case_match.
Qed.

Lemma filter_severity_all (k : string) items :
  Forall (λ y, severity y = k) (filter (λ y, severity y = k) items).
Proof. apply Forall_forall. by intros y [? _]%list_elem_of_filter. Qed.

Lemma insert_by_severity_passes x (l1 l2 : list NewsItem) :
  Forall (λ y, String.ltb (severity x) (severity y) = true) l1 →
  Delivery.insert_by_severity x (l1 ++ l2) = l1 ++ Delivery.insert_by_severity x l2.
Proof.
  induction 1 as [|y l1 Hy _ IH]; [done|].
  cbn [app Delivery.insert_by_severity]. by rewrite Hy, IH.
Qed.

Lemma insert_by_severity_stops x (l : list NewsItem) :
  Forall (λ y, String.ltb (severity x) (severity y) = false) l →
  Delivery.insert_by_severity x l = x :: l.
Proof. destruct 1 as [|y l Hy _]; [done|]. cbn. by rewrite Hy. Qed.

Lemma sorted_by_severity_known items :
  Forall known_severity items →
  Delivery.sorted_by_severity items
  = filter (λ y, severity y = "Medium") items
    ++ filter (λ y, severity y = "Low") items
    ++ filter (λ y, severity y = "High") items.
Proof.
  induction 1 as [|x items Hx _ IH]; [done|].
  unfold Delivery.sorted_by_severity in *. cbn [foldr]. rewrite IH. clear IH.
  pose proof (filter_severity_all "Medium" items) as HM.
  pose proof (filter_severity_all "Low" items) as HL.
  pose proof (filter_severity_all "High" items) as HH.
  unfold known_severity, severity_levels in Hx. rewrite !elem_of_cons in Hx.
  destruct Hx as [Hx|[Hx|[Hx|Hx]]]; [| | | by apply elem_of_nil in Hx].
  - (* High: behind every Medium and Low item, before the High ones *)
    rewrite (filter_cons_False (λ y, severity y = "Medium")) by (by rewrite Hx).
    rewrite (filter_cons_False (λ y, severity y = "Low")) by (by rewrite Hx).
    rewrite (filter_cons_True (λ y, severity y = "High")) by done.
    rewrite insert_by_severity_passes
      by (eapply Forall_impl; [exact HM|]; intros y Hy; by rewrite Hx, Hy).
    rewrite insert_by_severity_passes
      by (eapply Forall_impl; [exact HL|]; intros y Hy; by rewrite Hx, Hy).
    rewrite insert_by_severity_stops
      by (eapply Forall_impl; [exact HH|]; intros y Hy; by rewrite Hx, Hy).
    done.
  - (* Medium: in front *)
    rewrite (filter_cons_True (λ y, severity y = "Medium")) by done.
    rewrite (filter_cons_False (λ y, severity y = "Low")) by (by rewrite Hx).
    rewrite (filter_cons_False (λ y, severity y = "High")) by (by rewrite Hx).
    rewrite insert_by_severity_stops; [done|].
    rewrite !Forall_app. split_and!;
      (eapply Forall_impl; [eassumption|]; intros y Hy; by rewrite Hx, Hy).
  - (* Low: behind every Medium item *)
    rewrite (filter_cons_False (λ y, severity y = "Medium")) by (by rewrite Hx).
    rewrite (filter_cons_True (λ y, severity y = "Low")) by done.
    rewrite (filter_cons_False (λ y, severity y = "High")) by (by rewrite Hx).
    rewrite insert_by_severity_passes
      by (eapply Forall_impl; [exact HM|]; intros y Hy; by rewrite Hx, Hy).
    rewrite insert_by_severity_stops; [done|].
    rewrite !Forall_app. split_and!;
      (eapply Forall_impl; [eassumption|]; intros y Hy; by rewrite Hx, Hy).
Qed.

(** When a run reports success. *)
Lemma send_daily_notification_success (channels : Delivery.Channels) net
    (subscribers : gset string) items :
  Delivery.success
    (Delivery.send_daily_notification tpl clock text channels net subscribers items)
  = true
  ↔ (Delivery.email_configured channels = true → subscribers ≠ ∅ →
     Forall known_severity items ∧ Delivery.smtp_session net = true)
    ∧ (Delivery.webhook_configured channels = true →
       Delivery.webhook_accepts net = true).
Proof.
  unfold Delivery.send_daily_notification.
  destruct (send_webhook_spec net items) as (payload & Hpayload & ->).
  destruct (decide (subscribers = ∅)) as [Hnone|Hsome].
  - rewrite (bool_decide_eq_true_2 _ Hnone), andb_false_r.
    destruct (Delivery.webhook_configured channels), (Delivery.webhook_accepts net);
      cbn [andb fst snd Delivery.success]; intuition congruence.
  - rewrite (bool_decide_eq_false_2 _ Hsome), andb_true_r.
    destruct (send_email_spec net items)
      as [(Hknown & email & Hemail & ->) | (Hunknown & exc & ->)];
      destruct (Delivery.email_configured channels), (Delivery.smtp_session net),
        (Delivery.webhook_configured channels), (Delivery.webhook_accepts net);
      cbn [negb andb fst snd Delivery.success]; intuition congruence.
Qed.

Lemma filter_length_pos (k : string) items :
  0 < length (filter (λ y, severity y = k) items) ↔ Exists (λ y, severity y = k) items.
Proof.
  induction items as [|x items IH].
  - rewrite filter_nil, Exists_nil. cbn. lia.
  - rewrite filter_cons, Exists_cons. case_decide; cbn [length]; [|tauto].
    split; [by left | lia].
Qed.

End DeliveryRun.

(** X17.  A notification run hands a message to the SMTP session exactly
    when the sender is configured, there is a subscriber, every item has a
    known severity and the session is established; the webhook receives its
    payload exactly when it is configured and accepts the request, whatever
    happened to the e-mail.  The run reports success exactly when neither
    attempted channel failed; so with a sender and a subscriber, one item of
    unknown severity makes the run fail, and with no subscriber and no webhook
    it succeeds without sending anything.  The test notification, whose one
    item is Medium, succeeds exactly when the network serves every attempted
    channel. *)
Theorem notification_outcome (tpl : ReportGenerator.EmailTemplate)
    (clock : ReportGenerator.Clock) (text : Delivery.WebhookText)
    (channels : Delivery.Channels) (net : Delivery.Network)
    (subscribers : gset string) (items : list NewsItem) :
  let out := Delivery.send_daily_notification tpl clock text channels net
               subscribers items in
  (is_Some (Delivery.mailed out)
   ↔ Delivery.email_configured channels = true ∧ subscribers ≠ ∅
     ∧ Forall known_severity items ∧ Delivery.smtp_session net = true)
  ∧ (∀ email, Delivery.mailed out = Some email →
       ReportGenerator.generate_email_summary tpl clock items = inr email)
  ∧ (is_Some (Delivery.posted out)
     ↔ Delivery.webhook_configured channels = true
       ∧ Delivery.webhook_accepts net = true)
  ∧ (∀ payload, Delivery.posted out = Some payload →
       Delivery.webhook_payload text items = inr payload)
  ∧ (Delivery.success out = true
     ↔ (Delivery.email_configured channels = true → subscribers ≠ ∅ →
        is_Some (Delivery.mailed out))
       ∧ (Delivery.webhook_configured channels = true →
          is_Some (Delivery.posted out)))
  ∧ (Delivery.email_configured channels = true → subscribers ≠ ∅ →
     ¬ Forall known_severity items → Delivery.success out = false)
  ∧ (subscribers = ∅ → Delivery.webhook_configured channels = false →
     Delivery.success out = true ∧ Delivery.mailed out = None
     ∧ Delivery.posted out = None)
  ∧ (∀ now,
       Delivery.success
         (Delivery.send_test_notification tpl clock text channels net subscribers now)
       = true
       ↔ (Delivery.email_configured channels = true → subscribers ≠ ∅ →
          Delivery.smtp_session net = true)
         ∧ (Delivery.webhook_configured channels = true →
            Delivery.webhook_accepts net = true)).
Proof.
  cbn zeta.
  assert (∀ now,
            Delivery.success
              (Delivery.send_test_notification tpl clock text channels net
                 subscribers now) = true
            ↔ (Delivery.email_configured channels = true → subscribers ≠ ∅ →
               Delivery.smtp_session net = true)
              ∧ (Delivery.webhook_configured channels = true →
                 Delivery.webhook_accepts net = true)) as Htest.
  { intros now. unfold Delivery.send_test_notification.
    rewrite send_daily_notification_success.
    assert (Forall known_severity [Delivery.test_item now]) as Hknown
      by (repeat constructor; apply Medium_level).
    tauto. }
  revert Htest. unfold Delivery.send_daily_notification.
  destruct (send_webhook_spec text net items) as (payload & Hpayload & ->).
  destruct (decide (subscribers = ∅)) as [Hnone|Hsome].
  - rewrite (bool_decide_eq_true_2 _ Hnone), andb_false_r.
    destruct (Delivery.webhook_configured channels), (Delivery.webhook_accepts net);
      cbn [andb fst snd Delivery.success Delivery.mailed Delivery.posted];
      intros Htest; rewrite ?is_Some_alt; intuition congruence.
  - rewrite (bool_decide_eq_false_2 _ Hsome), andb_true_r.
    destruct (send_email_spec tpl clock net items)
      as [(Hknown & email & Hemail & ->) | (Hunknown & exc & ->)];
      destruct (Delivery.email_configured channels), (Delivery.smtp_session net),
        (Delivery.webhook_configured channels), (Delivery.webhook_accepts net);
      cbn [negb andb fst snd Delivery.success Delivery.mailed Delivery.posted];
      intros Htest; rewrite ?is_Some_alt; intuition congruence.
Qed.

Lemma notification_outcome_witness :
  let out := Delivery.send_daily_notification Samples.plain_template
               Samples.nine_o_clock Samples.plain_webhook_text Samples.all_channels
               Samples.working_network {[ "alice@example.com" ]}
               [Samples.critical_story] in
  Delivery.success out = false.
Proof.
  cbn zeta.
  refine (proj1 (proj2 (proj2 (proj2 (proj2 (proj2
            (notification_outcome Samples.plain_template Samples.nine_o_clock
               Samples.plain_webhook_text Samples.all_channels
               Samples.working_network {[ "alice@example.com" ]}
               [Samples.critical_story])))))) eq_refl _ _).
  - apply (bool_decide_unpack _). by vm_compute.
  - apply (bool_decide_unpack _). by vm_compute.
Defined.

Section SeveritySort.

Implicit Types (x y : NewsItem) (l items : list NewsItem) (a b c : string).

Lemma string_compare_refl a : String.compare a a = Eq.
Proof.
  pose proof (String.compare_antisym a a) as H.
  by destruct (String.compare a a).
Qed.

Lemma string_ltb_asym a b : String.ltb a b = true → String.ltb b a = false.
Proof.
  unfold String.ltb. rewrite (String.compare_antisym b a).
  by destruct (String.compare a b).
Qed.

Lemma string_ltb_ne a b : String.ltb a b = true → a ≠ b.
Proof. intros Hlt ->. unfold String.ltb in Hlt. by rewrite string_compare_refl in Hlt. Qed.

(** "Not smaller than" on strings is transitive. *)
Lemma string_ge_trans a : ∀ b c,
  String.ltb a b = false → String.ltb b c = false → String.ltb a c = false.
Proof.
  unfold String.ltb. induction a as [|p a IH]; intros [|q b] [|r c]; cbn; try done.
  unfold Ascii.compare.
  destruct (N.compare_spec (N_of_ascii p) (N_of_ascii q)) as [Hpq|Hpq|Hpq],
    (N.compare_spec (N_of_ascii q) (N_of_ascii r)) as [Hqr|Hqr|Hqr],
    (N.compare_spec (N_of_ascii p) (N_of_ascii r)) as [Hpr|Hpr|Hpr];
    try done; try lia.
  apply IH.
Qed.

Lemma insert_by_severity_perm x l : Delivery.insert_by_severity x l ≡ₚ x :: l.
Proof.
  induction l as [|y l IH]; cbn; [done|].
  case_match; [|done]. rewrite IH. apply Permutation_swap.
Qed.

Lemma sorted_by_severity_perm items : Delivery.sorted_by_severity items ≡ₚ items.
Proof.
  unfold Delivery.sorted_by_severity.
  induction items as [|x items IH]; cbn; [done|].
  by rewrite insert_by_severity_perm, IH.
Qed.

Lemma insert_by_severity_sorted x l :
  StronglySorted (λ y z, String.ltb (severity y) (severity z) = false) l →
  StronglySorted (λ y z, String.ltb (severity y) (severity z) = false)
    (Delivery.insert_by_severity x l).
Proof.
  induction 1 as [|y l Hl IH Hy]; cbn.
  - by repeat constructor.
  - destruct (String.ltb (severity x) (severity y)) eqn:Hlt.
    + constructor; [done|]. rewrite insert_by_severity_perm.
      constructor; [by apply string_ltb_asym | done].
    + constructor; [by constructor|].
      constructor; [done|]. eapply Forall_impl; [exact Hy|].
      intros z Hz. by eapply string_ge_trans.
Qed.

Lemma sorted_by_severity_sorted items :
  StronglySorted (λ y z, String.ltb (severity y) (severity z) = false)
    (Delivery.sorted_by_severity items).
Proof.
  unfold Delivery.sorted_by_severity.
  induction items as [|x items IH]; cbn; [constructor | by apply insert_by_severity_sorted].
Qed.

(** Items of one severity keep their order. *)
Lemma insert_by_severity_filter (k : string) x l :
  filter (λ y, severity y = k) (Delivery.insert_by_severity x l)
  = if decide (severity x = k)
    then x :: filter (λ y, severity y = k) l
    else filter (λ y, severity y = k) l.
Proof.
  induction l as [|y l IH]; cbn [Delivery.insert_by_severity].
  - rewrite filter_cons, filter_nil. by case_decide.
  - destruct (String.ltb (severity x) (severity y)) eqn:Hlt.
    + apply string_ltb_ne in Hlt. rewrite !(filter_cons _ y), IH.
      repeat case_decide; congruence.
    + rewrite (filter_cons _ x). by case_decide.
Qed.

Lemma sorted_by_severity_stable (k : string) items :
  filter (λ y, severity y = k) (Delivery.sorted_by_severity items)
  = filter (λ y, severity y = k) items.
Proof.
  unfold Delivery.sorted_by_severity.
  induction items as [|x items IH]; [done|]. cbn [foldr].
  by rewrite insert_by_severity_filter, filter_cons, IH.
Qed.

(** The fields of the payload, written out. *)
Lemma webhook_payload_fields (text : Delivery.WebhookText) items :
  ∃ payload,
    Delivery.webhook_payload text items = inr payload
    ∧ Delivery.content payload
      = Delivery.alert_icon text +:+ " **Daily Cybersecurity Alert**"
    ∧ Delivery.embed_title payload = "CyberNewsAgent Daily Digest"
    ∧ Delivery.description payload
      = "Found " +:+ pretty (length items) +:+ " cybersecurity updates"
    ∧ Delivery.fields payload
      = [ {| Delivery.name := Delivery.statistics_icon text +:+ " Statistics";
             Delivery.value :=
               "High: "
               +:+ pretty (length (filter (λ x, severity x = "High") items))
               +:+ String "010"
                     ("Medium: "
                      +:+ pretty (length (filter (λ x, severity x = "Medium") items)))
               +:+ String "010"
                     ("Low: "
                      +:+ pretty (length (filter (λ x, severity x = "Low") items)));
             Delivery.inline := true |};
          {| Delivery.name := Delivery.link_icon text +:+ " Access Dashboard";
             Delivery.value :=
               "[Open CyberNewsAgent](" +:+ Delivery.app_url text +:+ ")";
             Delivery.inline := true |} ]
        ++ match items with
           | [] => []
           | _ =>
               [ {| Delivery.name := Delivery.stories_icon text +:+ " Top Stories";
                    Delivery.value :=
                      str_take 1000
                        (join (String "010" EmptyString)
                           ((λ item, Delivery.bullet text +:+ " " +:+ title item
                                       +:+ " (" +:+ severity item +:+ ")")
                              <$> take 5 (Delivery.sorted_by_severity items)));
                    Delivery.inline := false |} ]
           end.
Proof.
  unfold Delivery.webhook_payload.
  rewrite (delivery_statistics_getitem items "High" High_level). cbn [bind].
  rewrite (delivery_statistics_getitem items "Medium" Medium_level). cbn [bind].
  rewrite (delivery_statistics_getitem items "Low" Low_level). cbn [bind].
  eexists. split; [reflexivity|].
  cbn [Delivery.content Delivery.embed_title Delivery.description Delivery.fields].
  split_and!; reflexivity.
Qed.

End SeveritySort.

(** X18.  The webhook payload is always built, whatever the severities of the
    items: its colour is red exactly when some item is High and orange
    otherwise; its fields are the statistics with the three counts, the link
    to the dashboard and, when there are items, the top stories, a text of at
    most 1000 characters with one line, of bullet, title and severity, for
    each of the first five items of the sort.  The sort orders the items by
    falling severity text and keeps the list order within one severity; for
    items of the three tiers that is all Medium items, then all Low items,
    then all High items, so that with five Medium items the field lists
    Medium items only. *)
Theorem webhook_payload_spec (text : Delivery.WebhookText) (items : list NewsItem) :
  ∃ payload,
    Delivery.webhook_payload text items = inr payload
    ∧ Delivery.content payload
      = Delivery.alert_icon text +:+ " **Daily Cybersecurity Alert**"
    ∧ Delivery.description payload
      = "Found " +:+ pretty (length items) +:+ " cybersecurity updates"
    ∧ Delivery.fields payload
      = [ {| Delivery.name := Delivery.statistics_icon text +:+ " Statistics";
             Delivery.value :=
               "High: "
               +:+ pretty (length (filter (λ x, severity x = "High") items))
               +:+ String "010"
                     ("Medium: "
                      +:+ pretty (length (filter (λ x, severity x = "Medium") items)))
               +:+ String "010"
                     ("Low: "
                      +:+ pretty (length (filter (λ x, severity x = "Low") items)));
             Delivery.inline := true |};
          {| Delivery.name := Delivery.link_icon text +:+ " Access Dashboard";
             Delivery.value :=
               "[Open CyberNewsAgent](" +:+ Delivery.app_url text +:+ ")";
             Delivery.inline := true |} ]
        ++ match items with
           | [] => []
           | _ =>
               [ {| Delivery.name := Delivery.stories_icon text +:+ " Top Stories";
                    Delivery.value :=
                      str_take 1000
                        (join (String "010" EmptyString)
                           ((λ item, Delivery.bullet text +:+ " " +:+ title item
                                       +:+ " (" +:+ severity item +:+ ")")
                              <$> take 5 (Delivery.sorted_by_severity items)));
                    Delivery.inline := false |} ]
           end
    ∧ (∀ field, field ∈ drop 2 (Delivery.fields payload) →
         len (Delivery.value field) ≤ 1000)
    ∧ Delivery.sorted_by_severity items ≡ₚ items
    ∧ StronglySorted (λ x y, String.ltb (severity x) (severity y) = false)
        (Delivery.sorted_by_severity items)
    ∧ (∀ k, filter (λ x, severity x = k) (Delivery.sorted_by_severity items)
            = filter (λ x, severity x = k) items)
    ∧ (Delivery.color payload = 16711680%Z ↔ Exists (λ x, severity x = "High") items)
    ∧ (Delivery.color payload = 16753920%Z ↔ Forall (λ x, severity x ≠ "High") items)
    ∧ length (Delivery.fields payload) = (if decide (items = []) then 2 else 3)
    ∧ (∀ stories, stories ∈ Delivery.top_stories text items →
         len (Delivery.value stories) ≤ 1000)
    ∧ (Forall known_severity items →
       Delivery.sorted_by_severity items
       = filter (λ x, severity x = "Medium") items
         ++ filter (λ x, severity x = "Low") items
         ++ filter (λ x, severity x = "High") items)
    ∧ (Forall known_severity items →
       5 ≤ length (filter (λ x, severity x = "Medium") items) →
       take 5 (Delivery.sorted_by_severity items)
       = take 5 (filter (λ x, severity x = "Medium") items)).
Proof.
  destruct (webhook_payload_returns text items)
    as (payload & Hpayload & Hcolor & statistics & dashboard & Hfields).
  destruct (webhook_payload_fields text items)
    as (payload' & Hpayload' & Hcontent & _ & Hdescription & Hexplicit).
  rewrite Hpayload in Hpayload'. injection Hpayload' as <-.
  exists payload. split_and!.
  - done.
  - done.
  - done.
  - done.
  - rewrite Hexplicit. cbn [app drop]. intros field.
    destruct items as [|x items]; [by intros ?%elem_of_nil|].
    intros ->%list_elem_of_singleton. cbn [Delivery.value]. apply str_take_length.
  - apply sorted_by_severity_perm.
  - apply sorted_by_severity_sorted.
  - intros k. apply sorted_by_severity_stable.
  - clear Hexplicit. rewrite Hcolor, <- filter_length_pos. case_match eqn:Hpos.
    + apply Nat.ltb_lt in Hpos. done.
    + apply Nat.ltb_ge in Hpos. split; [done | lia].
  - clear Hexplicit. rewrite Hcolor.
    assert (Forall (λ x, severity x ≠ "High") items
            ↔ ¬ 0 < length (filter (λ x, severity x = "High") items)) as ->.
    { rewrite filter_length_pos. apply (Forall_Exists_neg (λ x, severity x = "High")). }
    case_match eqn:Hpos.
    + apply Nat.ltb_lt in Hpos. split; [done | lia].
    + apply Nat.ltb_ge in Hpos. split; [lia | done].
  - rewrite Hfields. by destruct items.
  - intros stories. destruct items as [|x items]; cbn [Delivery.top_stories].
    + by intros ?%elem_of_nil.
    + intros ->%list_elem_of_singleton. cbn [Delivery.value]. apply str_take_length.
  - apply sorted_by_severity_known.
  - intros Hknown Hfive. rewrite sorted_by_severity_known by done.
    by rewrite take_app_le.
Qed.

Example webhook_top_stories_sample :
  let medium := Samples.medium_story in
  take 5 (Delivery.sorted_by_severity
            [Samples.high_story; medium; medium; medium; medium; medium])
  = [medium; medium; medium; medium; medium].
Proof. by vm_compute. Qed.

(* ===================================================================== *)
(** * The connectors *)
(* ===================================================================== *)

Section ConnectorFilters.

Implicit Types (x : NewsItem) (l items posts : list NewsItem) (κ : string).

Lemma filter_comm (P Q : NewsItem → Prop) `{!∀ x, Decision (P x)}
    `{!∀ x, Decision (Q x)} l :
  filter P (filter Q l) = filter Q (filter P l).
Proof.
  rewrite !list_filter_filter. apply list_filter_iff. intros x. tauto.
Qed.

Lemma sublist_filter_l (P : NewsItem → Prop) `{!∀ x, Decision (P x)} l :
  sublist (filter P l) l.
Proof. apply sublist_filter. Qed.

(** The loop of the News API filter is the loop of the deduplication, run
    over the related items only. *)
Lemma newsapi_filter_loop l : ∀ acc,
  foldl NewsAPI.filter_step acc l
  = foldl dedup_step acc (filter (λ x, NewsAPI._is_cybersecurity_related x = true) l).
Proof.
  induction l as [|x l IH]; intros [seen acc]; [done|].
  cbn [foldl]. unfold NewsAPI.filter_step at 2.
  destruct (NewsAPI._is_cybersecurity_related x) eqn:Hrel.
  - rewrite filter_cons_True by done. cbn [foldl]. unfold dedup_step at 2.
    rewrite andb_true_r. destruct (decide (title_key x ∈ seen)) as [Hin|Hnin].
    + rewrite bool_decide_eq_false_2 by (intros Hn; by apply Hn). apply IH.
    + rewrite bool_decide_eq_true_2 by done. apply IH.
  - rewrite filter_cons_False by (rewrite Hrel; done). rewrite andb_false_r. apply IH.
Qed.

Lemma newsapi_filter_eq items :
  NewsAPI._filter_cybersecurity_content items
  = _deduplicate_news (filter (λ x, NewsAPI._is_cybersecurity_related x = true) items).
Proof.
  unfold NewsAPI._filter_cybersecurity_content, _deduplicate_news.
  by rewrite newsapi_filter_loop.
Qed.

(** The loop of the Reddit filter keeps the related posts among those that
    the deduplication keeps. *)
Lemma reddit_filter_loop l : ∀ seen acc,
  snd (foldl RedditAPI.filter_step (seen, acc) l)
  = acc ++ filter (λ x, RedditAPI.related x = true)
             (snd (foldl dedup_step (seen, []) l)).
Proof.
  induction l as [|x l IH]; intros seen acc; cbn [foldl].
  - cbn. by rewrite app_nil_r.
  - unfold RedditAPI.filter_step at 2. unfold dedup_step at 2.
    destruct (decide (title_key x ∈ seen)) as [Hin|Hnin]; [apply IH|].
    rewrite IH, (dedup_loop_acc l _ ([] ++ [x])). cbn [app].
    destruct (RedditAPI.related x) eqn:Hrel.
    + rewrite filter_cons_True by done. by rewrite <- app_assoc.
    + rewrite filter_cons_False by (rewrite Hrel; done). done.
Qed.

Lemma reddit_filter_eq posts :
  RedditAPI._filter_cybersecurity_content posts
  = filter (λ x, RedditAPI.related x = true) (_deduplicate_news posts).
Proof.
  unfold RedditAPI._filter_cybersecurity_content, _deduplicate_news.
  by rewrite reddit_filter_loop.
Qed.

Lemma webscraper_filter_loop l : ∀ acc,
  foldl WebScraper.filter_step acc l
  = acc ++ filter (λ x, WebScraper.related x = true) l.
Proof.
  induction l as [|x l IH]; intros acc; cbn [foldl].
  - by rewrite filter_nil, app_nil_r.
  - rewrite IH. unfold WebScraper.filter_step.
    destruct (WebScraper.related x) eqn:Hrel.
    + rewrite filter_cons_True by done. by rewrite <- app_assoc.
    + rewrite filter_cons_False by (rewrite Hrel; done). done.
Qed.

Lemma webscraper_filter_eq items :
  WebScraper._filter_cybersecurity_content items
  = filter (λ x, WebScraper.related x = true) items.
Proof. apply webscraper_filter_loop. Qed.

Lemma filter_all (P : NewsItem → Prop) `{!∀ x, Decision (P x)} l :
  Forall P (filter P l).
Proof. apply Forall_forall. by intros x [? _]%list_elem_of_filter. Qed.

(** Distinct keys survive the removal of elements. *)
Lemma NoDup_keys_sublist l1 l2 :
  sublist l1 l2 → NoDup (title_key <$> l2) → NoDup (title_key <$> l1).
Proof.
  intros Hsub Hnd. eapply sublist_NoDup; [done | by apply fmap_sublist].
Qed.

Lemma Forall_sublist_of (P : NewsItem → Prop) l1 l2 :
  sublist l1 l2 → Forall P l2 → Forall P l1.
Proof.
  rewrite !Forall_forall. intros Hsub Hall x Hx.
  apply Hall. by eapply elem_of_sublist.
Qed.

End ConnectorFilters.

(** X19.  The News API connector's filter is the agent's deduplication
    applied to the related items: of the related items with one normalised
    title the first is kept, in list order, so an unrelated item never hides
    a related one.  The result has pairwise distinct normalised titles, and
    the agent's deduplication leaves it as it is. *)
Theorem newsapi_filter_spec (items : list NewsItem) :
  let related := λ x, NewsAPI._is_cybersecurity_related x = true in
  let kept := NewsAPI._filter_cybersecurity_content items in
  kept = _deduplicate_news (filter related items)
  ∧ sublist kept items
  ∧ Forall related kept
  ∧ NoDup (title_key <$> kept)
  ∧ (∀ κ, filter (has_key κ) kept = take 1 (filter (has_key κ) (filter related items)))
  ∧ _deduplicate_news kept = kept.
Proof.
  cbn zeta. rewrite newsapi_filter_eq. split_and!.
  - done.
  - etrans; [apply dedup_sublist | apply sublist_filter_l].
  - eapply Forall_sublist_of; [apply dedup_sublist | apply filter_all].
  - apply dedup_NoDup.
  - intros κ. apply dedup_filter.
  - apply dedup_distinct, dedup_NoDup.
Qed.

(** X20.  The Reddit connector's filter deduplicates first and looks for the
    keywords afterwards: it keeps the related posts among the first posts of
    each normalised title.  So a title is represented exactly when its first
    post is related, and an unrelated post hides every later post of the
    same title. *)
Theorem reddit_filter_spec (posts : list NewsItem) :
  let related := λ x, RedditAPI.related x = true in
  let kept := RedditAPI._filter_cybersecurity_content posts in
  kept = filter related (_deduplicate_news posts)
  ∧ sublist kept posts
  ∧ Forall related kept
  ∧ NoDup (title_key <$> kept)
  ∧ (∀ κ, filter (has_key κ) kept = filter related (take 1 (filter (has_key κ) posts)))
  ∧ (∀ first later,
       RedditAPI.related first = false →
       later ∈ RedditAPI._filter_cybersecurity_content (first :: posts) →
       title_key later ≠ title_key first).
Proof.
  cbn zeta. rewrite reddit_filter_eq. split_and!.
  - done.
  - etrans; [apply sublist_filter_l | apply dedup_sublist].
  - apply filter_all.
  - eapply NoDup_keys_sublist; [apply sublist_filter_l | apply dedup_NoDup].
  - intros κ. by rewrite filter_comm, dedup_filter.
  - intros first later Hrel Hin Hkey. rewrite reddit_filter_eq in Hin.
    assert (later ∈ filter (has_key (title_key first))
                      (filter (λ x, RedditAPI.related x = true)
                         (_deduplicate_news (first :: posts)))) as Hlater
      by (apply list_elem_of_filter; by split).
    rewrite filter_comm, dedup_filter in Hlater.
    rewrite (filter_cons_True (has_key (title_key first))) in Hlater by done.
    cbn [take] in Hlater.
    rewrite filter_cons_False in Hlater by (rewrite Hrel; done).
    by apply elem_of_nil in Hlater.
Qed.

Example filters_differ_sample :
  let posts := [Samples.conference_story; Samples.conference_incident] in
  NewsAPI._filter_cybersecurity_content posts = [Samples.conference_incident]
  ∧ RedditAPI._filter_cybersecurity_content posts = []
  ∧ WebScraper._filter_cybersecurity_content (posts ++ posts)
    = [Samples.conference_incident; Samples.conference_incident].
Proof. cbn zeta. split_and!; by vm_compute. Qed.

(* --------------------------------------------------------------------- *)
(** ** The text of a scraped article *)
(* --------------------------------------------------------------------- *)

Section ArticleText.
Import WebScraper.

Implicit Types (s text : string) (b : bool).

Lemma collapse_go_spaced s : ∀ b, single_spaced b (collapse_go b s) = true.
Proof.
  induction s as [|c s IH]; intros b; [done|]. cbn [collapse_go].
  destruct (isspace c) eqn:Hc.
  - destruct b; [apply IH|]. cbn [single_spaced].
    change (isspace " ") with true. cbn. apply IH.
  - cbn [single_spaced]. rewrite Hc. apply IH.
Qed.

Lemma single_spaced_fixed s : ∀ b, single_spaced b s = true → collapse_go b s = s.
Proof.
  induction s as [|c s IH]; intros b; [done|]. cbn [single_spaced collapse_go].
  destruct (isspace c) eqn:Hc.
  - rewrite !andb_true_iff. intros [[Hb Heq] Hs].
    apply negb_true_iff in Hb as ->. apply Ascii.eqb_eq in Heq as ->.
    by rewrite (IH true Hs).
  - intros Hs. by rewrite (IH false Hs).
Qed.

Lemma collapse_go_visible s : ∀ b, visible (collapse_go b s) = visible s.
Proof.
  induction s as [|c s IH]; intros b; [done|]. cbn [collapse_go visible].
  destruct (isspace c) eqn:Hc.
  - destruct b; [apply IH|]. cbn [visible]. change (isspace " ") with true.
    cbn. apply IH.
  - cbn [visible]. by rewrite Hc, IH.
Qed.

Lemma collapse_go_length s : ∀ b, len (collapse_go b s) ≤ len s.
Proof.
  unfold len. induction s as [|c s IH]; intros b; [done|]. cbn [collapse_go].
  destruct (isspace c); [destruct b|]; cbn [String.length];
    [specialize (IH true) | specialize (IH true) | specialize (IH false)]; lia.
Qed.

Lemma single_spaced_take s : ∀ b n,
  single_spaced b s = true → single_spaced b (str_take n s) = true.
Proof.
  unfold str_take. induction s as [|c s IH]; intros b [|n]; try done.
  cbn [String.substring single_spaced].
  destruct (isspace c); [|apply IH].
  rewrite !andb_true_iff. intros [Hc Hs]. split; [done | by apply IH].
Qed.

Lemma str_take_head n c s :
  ∀ d rest, str_take n (String c s) = String d rest → d = c.
Proof. unfold str_take. destruct n; cbn; [done|]. by intros d rest [= <- _]. Qed.

Lemma strip_starts_plain s c rest : strip s = String c rest → isspace c = false.
Proof.
  unfold strip.
  destruct (strip_list_spec (list_ascii_of_string s)) as (_ & _ & _ & _ & _ & Hfront & _).
  destruct (strip_list (list_ascii_of_string s)) as [|c' l]; [done|].
  cbn. by intros [= <- _].
Qed.

(** The cleaned text of a trimmed string. *)
Lemma cleaned_head s c rest :
  str_take 2000 (collapse (strip s)) = String c rest → isspace c = false.
Proof.
  destruct (strip s) as [|c' s'] eqn:Hs; [done|].
  pose proof (strip_starts_plain s c' s' Hs) as Hc'.
  unfold collapse. cbn [collapse_go]. rewrite Hc'.
  intros Heq. by apply str_take_head in Heq as ->.
Qed.

Lemma article_content_cases page :
  _get_article_content page = EmptyString
  ∨ ∃ text, _get_article_content page = str_take 2000 (collapse (strip text)).
Proof.
  destruct page as [|selected body]; [by left|]. cbn [_get_article_content].
  destruct selected as [text|].
  - destruct (strip text) eqn:Htext.
    + destruct body as [text'|]; [right; by exists text' | by left].
    + right. exists text. by rewrite Htext.
  - destruct body as [text'|]; [right; by exists text' | by left].
Qed.

Lemma article_content_length page : len (_get_article_content page) ≤ 2000.
Proof.
  destruct (article_content_cases page) as [->|[text ->]]; [cbn; lia|].
  apply str_take_length.
Qed.

Lemma article_content_spaced page :
  single_spaced false (_get_article_content page) = true.
Proof.
  destruct (article_content_cases page) as [->|[text ->]]; [done|].
  apply single_spaced_take, collapse_go_spaced.
Qed.

End ArticleText.

(** X21.  The content that the scraper stores for an article has at most
    2000 characters, holds no white space other than single spaces and does
    not begin with one; cleaning it again changes nothing, and a page that
    cannot be fetched gives the empty text.  The cleaning itself never
    lengthens a text, keeps every character that is not white space, and is
    idempotent. *)
Theorem article_content_clean (page : WebScraper.PageOutcome) :
  let content := WebScraper._get_article_content page in
  len content ≤ 2000
  ∧ WebScraper.single_spaced false content = true
  ∧ (∀ c rest, content = String c rest → isspace c = false)
  ∧ WebScraper.collapse content = content
  ∧ WebScraper._get_article_content WebScraper.PageRaised = EmptyString
  ∧ (∀ text,
       len (WebScraper.collapse text) ≤ len text
       ∧ WebScraper.visible (WebScraper.collapse text) = WebScraper.visible text
       ∧ WebScraper.collapse (WebScraper.collapse text) = WebScraper.collapse text).
Proof.
  cbn zeta. pose proof (article_content_spaced page) as Hspaced.
  split_and!.
  - apply article_content_length.
  - done.
  - intros c rest. destruct (article_content_cases page) as [->|[text ->]]; [done|].
    apply cleaned_head.
  - by apply single_spaced_fixed.
  - done.
  - intros text. split_and!.
    + apply collapse_go_length.
    + apply collapse_go_visible.
    + apply single_spaced_fixed, collapse_go_spaced.
Qed.

(* --------------------------------------------------------------------- *)
(** ** The scraped items *)
(* --------------------------------------------------------------------- *)

Section Scraper.
Import WebScraper.

Context (env : Env).

Implicit Types (x : NewsItem) (n max_items : Z).

Lemma slice_to_sublist {A} n (l : list A) : sublist (slice_to n l) l.
Proof. unfold slice_to. case_match; apply sublist_take. Qed.

Lemma slice_to_length {A} n (l : list A) :
  (0 ≤ n)%Z → length (slice_to n l) ≤ Z.to_nat n.
Proof. intros Hn. rewrite slice_to_nonneg, length_take by done. lia. Qed.

Lemma slice_to_length_le {A} n (l : list A) : length (slice_to n l) ≤ length l.
Proof. apply sublist_length, slice_to_sublist. Qed.

Lemma omap_length_le {A B} (f : A → option B) (l : list A) :
  length (omap f l) ≤ length l.
Proof. induction l as [|a l IH]; cbn; [done|]. destruct (f a); cbn; lia. Qed.

Lemma concat_length_bound {A} (f : string → list A) (k : nat) (us : list string) :
  (∀ u, length (f u) ≤ k) → length (concat (f <$> us)) ≤ k * length us.
Proof.
  intros Hk. induction us as [|u us IH]; cbn; [lia|].
  rewrite length_app. specialize (Hk u). lia.
Qed.

Lemma concat_Forall_sources (P : string → NewsItem → Prop)
    (f : string → list NewsItem) (us : list string) :
  (∀ u, Forall (P u) (f u)) →
  Forall (λ x, ∃ u, u ∈ us ∧ P u x) (concat (f <$> us)).
Proof.
  intros Hf. apply Forall_concat, Forall_fmap, Forall_forall. intros u Hu. cbn.
  eapply Forall_impl; [apply Hf|]. intros x Hx. by exists u.
Qed.

Lemma entry_item_spec feed_url entry x :
  entry_item env feed_url entry = Some x →
  title x ≠ EmptyString ∧ strip (title x) = title x ∧ strip (content x) = content x
  ∧ url x ≠ EmptyString ∧ source x = feed_url ∧ unclassified x.
Proof.
  unfold entry_item.
  destruct (strip (get (entry_title entry))) as [|c t] eqn:Htitle; [done|].
  destruct (get (entry_link entry)) as [|d u] eqn:Hurl; [done|].
  intros [= <-]. cbn [title content url source]. split_and!; try done.
  - rewrite <- Htitle. apply strip_idem.
  - apply strip_idem.
Qed.

Lemma feed_items_spec feed_url :
  Forall (λ x, title x ≠ EmptyString ∧ strip (title x) = title x
               ∧ strip (content x) = content x ∧ url x ≠ EmptyString
               ∧ source x = feed_url ∧ unclassified x)
    (feed_items env feed_url).
Proof.
  unfold feed_items. destruct (parse env feed_url) as [|entries]; [constructor|].
  apply Forall_forall. intros x (entry & _ & Hentry)%list_elem_of_omap.
  by eapply entry_item_spec.
Qed.

Lemma feed_items_length feed_url : length (feed_items env feed_url) ≤ 5.
Proof.
  unfold feed_items. destruct (parse env feed_url) as [|entries]; cbn; [lia|].
  etrans; [apply omap_length_le|]. rewrite length_take. lia.
Qed.

Lemma site_items_spec site_url :
  Forall (λ x, len (content x) ≤ 2000 ∧ single_spaced false (content x) = true
               ∧ source x = site_url ∧ unclassified x)
    (site_items env site_url).
Proof.
  unfold site_items. destruct (site env site_url) as [|articles]; [constructor|].
  apply Forall_fmap, Forall_forall. intros article _. cbn. split_and!; try done.
  - apply article_content_length.
  - apply article_content_spaced.
Qed.

Lemma site_items_length site_url : length (site_items env site_url) ≤ 3.
Proof.
  unfold site_items. destruct (site env site_url) as [|articles]; cbn; [lia|].
  rewrite length_fmap, length_take. lia.
Qed.

Lemma Forall_slice_to {A} (P : A → Prop) n (l : list A) :
  Forall P l → Forall P (slice_to n l).
Proof.
  rewrite !Forall_forall. intros Hall a Ha. apply Hall.
  eapply elem_of_sublist; [exact Ha | apply slice_to_sublist].
Qed.

Lemma scraper_items_bounds n :
  length (_scrape_rss_feeds env n) ≤ 40
  ∧ length (_scrape_direct_sites env n) ≤ 9
  ∧ ((0 ≤ n)%Z →
     length (_scrape_rss_feeds env n) ≤ Z.to_nat n
     ∧ length (_scrape_direct_sites env n) ≤ Z.to_nat n).
Proof.
  split_and!.
  - etrans; [apply slice_to_length_le|].
    apply (concat_length_bound _ 5 rss_feeds feed_items_length).
  - etrans; [apply slice_to_length_le|].
    apply (concat_length_bound _ 3 scraping_targets site_items_length).
  - intros Hn. split; by apply slice_to_length.
Qed.

Lemma rss_items_unclassified n : Forall unclassified (_scrape_rss_feeds env n).
Proof.
  apply Forall_slice_to, Forall_concat, Forall_fmap, Forall_forall. intros u _. cbn.
  eapply Forall_impl; [apply feed_items_spec|]. by intros x (_ & _ & _ & _ & _ & Hx).
Qed.

Lemma direct_items_unclassified n : Forall unclassified (_scrape_direct_sites env n).
Proof.
  apply Forall_slice_to, Forall_concat, Forall_fmap, Forall_forall. intros u _. cbn.
  eapply Forall_impl; [apply site_items_spec|]. by intros x (_ & _ & _ & Hx).
Qed.

End Scraper.

(** X22.  Every item that the scraper builds from a feed has a non-empty,
    trimmed title, a trimmed content, a non-empty address and one of the
    eight feeds as its source; every item it builds from a site has a content
    of at most 2000 characters without white space other than single spaces
    and one of the three sites as its source.  All are filed as General,
    Medium, without tags or summary.  There are at most five per feed and
    three per site, 40 and 9 in all, and no more than a non-negative bound
    that is asked for. *)
Theorem scraper_items_spec (env : WebScraper.Env) (n : Z) :
  Forall (λ x, title x ≠ EmptyString ∧ strip (title x) = title x
               ∧ strip (content x) = content x ∧ url x ≠ EmptyString
               ∧ source x ∈ WebScraper.rss_feeds ∧ WebScraper.unclassified x)
    (WebScraper._scrape_rss_feeds env n)
  ∧ Forall (λ x, len (content x) ≤ 2000
                 ∧ WebScraper.single_spaced false (content x) = true
                 ∧ source x ∈ WebScraper.scraping_targets
                 ∧ WebScraper.unclassified x)
      (WebScraper._scrape_direct_sites env n)
  ∧ length (WebScraper._scrape_rss_feeds env n) ≤ 40
  ∧ length (WebScraper._scrape_direct_sites env n) ≤ 9
  ∧ ((0 ≤ n)%Z →
     length (WebScraper._scrape_rss_feeds env n) ≤ Z.to_nat n
     ∧ length (WebScraper._scrape_direct_sites env n) ≤ Z.to_nat n).
Proof.
  split_and!.
  - apply Forall_slice_to.
    eapply Forall_impl;
      [apply (concat_Forall_sources _ _ _ (feed_items_spec env))|].
    intros x (u & Hu & ? & ? & ? & ? & -> & ?). done.
  - apply Forall_slice_to.
    eapply Forall_impl;
      [apply (concat_Forall_sources _ _ _ (site_items_spec env))|].
    intros x (u & Hu & ? & ? & -> & ?). done.
  - etrans; [apply slice_to_length_le|].
    apply (concat_length_bound _ 5 WebScraper.rss_feeds (feed_items_length env)).
  - etrans; [apply slice_to_length_le|].
    apply (concat_length_bound _ 3 WebScraper.scraping_targets (site_items_length env)).
  - intros Hn. split; by apply slice_to_length.
Qed.

Lemma scraper_items_spec_witness :
  let env := {| WebScraper.parse := λ _, WebScraper.FeedRaised;
                WebScraper._parse_date := λ _, Samples.epoch;
                WebScraper.site := λ _, WebScraper.SiteRaised |} in
  length (WebScraper._scrape_rss_feeds env 7) ≤ 7
  ∧ length (WebScraper._scrape_direct_sites env 7) ≤ 7.
Proof.
  cbn zeta.
  refine (proj2 (proj2 (proj2 (proj2 (scraper_items_spec _ 7)))) _). lia.
Defined.

(** X23.  [scrape_cyber_sites] returns, in order and with repetitions kept,
    the related items among the feed items followed by the site items, each
    part asked for half of the bound and the result cut to the bound.  Every
    returned item mentions a keyword and is filed as General and Medium.  For
    a non-negative bound the result has at most twice the halved bound items,
    so none for a bound of 1; it never has more than 49. *)
Theorem scrape_cyber_sites_spec (env : WebScraper.Env) (max_items : Z) :
  let found := WebScraper._scrape_rss_feeds env (max_items / 2)
               ++ WebScraper._scrape_direct_sites env (max_items / 2) in
  let scraped := WebScraper.scrape_cyber_sites env max_items in
  scraped = slice_to max_items (filter (λ x, WebScraper.related x = true) found)
  ∧ sublist scraped found
  ∧ Forall (λ x, WebScraper.related x = true ∧ WebScraper.unclassified x
                 ∧ known_severity x ∧ category x ∈ category_labels) scraped
  ∧ ((0 ≤ max_items)%Z →
     (Z.of_nat (length scraped) ≤ 2 * (max_items / 2) ≤ max_items)%Z)
  ∧ WebScraper.scrape_cyber_sites env 1 = []
  ∧ length scraped ≤ 49.
Proof.
  cbn zeta. unfold WebScraper.scrape_cyber_sites. rewrite webscraper_filter_eq.
  destruct (scraper_items_bounds env (max_items / 2)) as (Hrss & Hdirect & Hbound).
  split_and!.
  - done.
  - etrans; [apply slice_to_sublist | apply sublist_filter_l].
  - apply Forall_slice_to, Forall_forall.
    intros x [Hrel Hin]%list_elem_of_filter. split; [done|].
    assert (WebScraper.unclassified x) as Hx.
    { apply elem_of_app in Hin as [Hin|Hin].
      - pose proof (rss_items_unclassified env (max_items / 2)) as Hall.
        rewrite Forall_forall in Hall. by apply Hall.
      - pose proof (direct_items_unclassified env (max_items / 2)) as Hall.
        rewrite Forall_forall in Hall. by apply Hall. }
    split; [done|]. destruct Hx as (Hcat & Hsev & _). unfold known_severity.
    rewrite Hcat, Hsev. split; [apply Medium_level | apply General_label].
  - intros Hmax. split; [|Z.div_mod_to_equations; lia].
    assert (0 ≤ max_items / 2)%Z as Hhalf by (Z.div_mod_to_equations; lia).
    destruct (Hbound Hhalf) as [Hr Hd].
    pose proof (slice_to_length_le max_items
                  (filter (λ x, WebScraper.related x = true)
                     (WebScraper._scrape_rss_feeds env (max_items / 2)
                      ++ WebScraper._scrape_direct_sites env (max_items / 2)))) as Hlen.
    pose proof (length_filter (λ x, WebScraper.related x = true)
                  (WebScraper._scrape_rss_feeds env (max_items / 2)
                   ++ WebScraper._scrape_direct_sites env (max_items / 2))) as Hfilter.
    rewrite length_app in Hfilter. lia.
  - done.
  - etrans; [apply slice_to_length_le|]. etrans; [apply length_filter|].
    rewrite length_app. lia.
Qed.

(* --------------------------------------------------------------------- *)
(** ** The fetches of the News API and Reddit connectors *)
(* --------------------------------------------------------------------- *)

Section Fetches.

Implicit Types (x : NewsItem) (max_items : Z).

Lemma mock_data_classified (data : list NewsAPI.MockData) (f : nat → NewsAPI.MockData → NewsItem) :
  (∀ i d, severity (f i d) = NewsAPI.mock_severity d
          ∧ category (f i d) = NewsAPI.mock_category d) →
  Forall (λ d, NewsAPI.mock_severity d ∈ severity_levels
               ∧ NewsAPI.mock_category d ∈ category_labels) data →
  ∀ max_items,
    Forall (λ x, known_severity x ∧ category x ∈ category_labels)
      (imap f (slice_to max_items data)).
Proof.
  intros Hf Hdata max_items. apply Forall_forall. intros x Hx.
  apply elem_of_lookup_imap in Hx as (i & d & -> & Hd).
  apply list_elem_of_lookup_2 in Hd.
  assert (d ∈ data) as Hin by (eapply elem_of_sublist; [done | apply slice_to_sublist]).
  rewrite Forall_forall in Hdata. destruct (Hdata d Hin) as [Hsev Hcat].
  destruct (Hf i d) as [Hs Hc]. unfold known_severity. by rewrite Hs, Hc.
Qed.

Lemma mock_news_classified now max_items :
  Forall (λ x, known_severity x ∧ category x ∈ category_labels)
    (NewsAPI._get_mock_news_items now max_items).
Proof.
  apply mock_data_classified; [done|].
  unfold NewsAPI.mock_items, severity_levels, category_labels.
  repeat constructor; cbn; label_member.
Qed.

Lemma mock_posts_classified now max_items :
  Forall (λ x, known_severity x ∧ category x ∈ category_labels)
    (RedditAPI._get_mock_posts now max_items).
Proof.
  apply mock_data_classified; [done|].
  unfold RedditAPI.mock_posts, severity_levels, category_labels.
  repeat constructor; cbn; label_member.
Qed.

Lemma mock_news_length now max_items :
  length (NewsAPI._get_mock_news_items now max_items) ≤ 5
  ∧ ((0 ≤ max_items)%Z →
     length (NewsAPI._get_mock_news_items now max_items) ≤ Z.to_nat max_items).
Proof.
  unfold NewsAPI._get_mock_news_items. rewrite length_imap. split.
  - apply (slice_to_length_le max_items NewsAPI.mock_items).
  - apply slice_to_length.
Qed.

Lemma mock_posts_length now max_items :
  length (RedditAPI._get_mock_posts now max_items) ≤ 5
  ∧ ((0 ≤ max_items)%Z →
     length (RedditAPI._get_mock_posts now max_items) ≤ Z.to_nat max_items).
Proof.
  unfold RedditAPI._get_mock_posts. rewrite length_imap. split.
  - apply (slice_to_length_le max_items RedditAPI.mock_posts).
  - apply slice_to_length.
Qed.

Lemma fetch_news_length env max_items :
  (0 ≤ max_items)%Z →
  length (NewsAPI.fetch_cybersecurity_news env max_items) ≤ Z.to_nat max_items.
Proof.
  intros Hmax. unfold NewsAPI.fetch_cybersecurity_news.
  destruct (NewsAPI.flask_env_production env); [cbn; lia|].
  destruct (negb (NewsAPI.truthy (NewsAPI.news_api_key env))).
  - by apply mock_news_length.
  - by apply slice_to_length.
Qed.

Lemma fetch_listed_spec env max_items :
  Forall (λ x, RedditAPI.related x = true) (RedditAPI.fetch_listed env max_items)
  ∧ NoDup (title_key <$> RedditAPI.fetch_listed env max_items)
  ∧ ((0 ≤ max_items)%Z →
     length (RedditAPI.fetch_listed env max_items) ≤ Z.to_nat max_items).
Proof.
  unfold RedditAPI.fetch_listed. rewrite reddit_filter_eq. split_and!.
  - apply Forall_slice_to, filter_all.
  - eapply NoDup_keys_sublist; [apply slice_to_sublist|].
    eapply NoDup_keys_sublist; [apply sublist_filter_l | apply dedup_NoDup].
  - apply slice_to_length.
Qed.

Lemma fetch_posts_length env self max_items :
  (0 ≤ max_items)%Z →
  length (fst (RedditAPI.fetch_cybersecurity_posts env self max_items))
  ≤ Z.to_nat max_items.
Proof.
  intros Hmax. unfold RedditAPI.fetch_cybersecurity_posts.
  destruct (RedditAPI._is_token_valid (RedditAPI.now_check env) self).
  - by apply fetch_listed_spec.
  - destruct (RedditAPI._get_access_token (RedditAPI.auth env)
                (RedditAPI.now_auth env) self) as [token self'].
    destruct (NewsAPI.truthy token); cbn [fst].
    + by apply fetch_listed_spec.
    + by apply mock_posts_length.
Qed.

End Fetches.

(** X24.  [fetch_cybersecurity_news] returns nothing in production and the
    mock items, at most five and all with known labels, when no API key is
    set.  With a key it asks each of the three endpoints for a third of the
    bound, drops the endpoints that raise, and returns the first related item
    of each normalised title among the others' items, cut to the bound.  For
    a non-negative bound it never returns more items than asked for. *)
Theorem fetch_cybersecurity_news_spec (env : NewsAPI.Env) (max_items : Z) :
  let fetched := NewsAPI.fetch_cybersecurity_news env max_items in
  let all_items :=
    NewsAPI.extend_with (NewsAPI._fetch_everything_endpoint env (max_items / 3))
    ++ NewsAPI.extend_with (NewsAPI._fetch_top_headlines_endpoint env (max_items / 3))
    ++ NewsAPI.extend_with (NewsAPI._fetch_sources_endpoint env (max_items / 3)) in
  (NewsAPI.flask_env_production env = true → fetched = [])
  ∧ (NewsAPI.flask_env_production env = false →
     NewsAPI.truthy (NewsAPI.news_api_key env) = false →
     fetched = NewsAPI._get_mock_news_items (NewsAPI.now env) max_items
     ∧ length fetched ≤ 5
     ∧ Forall (λ x, known_severity x ∧ category x ∈ category_labels) fetched)
  ∧ (NewsAPI.flask_env_production env = false →
     NewsAPI.truthy (NewsAPI.news_api_key env) = true →
     fetched
     = slice_to max_items
         (_deduplicate_news
            (filter (λ x, NewsAPI._is_cybersecurity_related x = true) all_items))
     ∧ sublist fetched all_items
     ∧ Forall (λ x, NewsAPI._is_cybersecurity_related x = true) fetched
     ∧ NoDup (title_key <$> fetched))
  ∧ ((0 ≤ max_items)%Z → length fetched ≤ Z.to_nat max_items).
Proof.
  cbn zeta. split_and!.
  - intros Hprod. unfold NewsAPI.fetch_cybersecurity_news. by rewrite Hprod.
  - intros Hdev Hkey. unfold NewsAPI.fetch_cybersecurity_news. rewrite Hdev, Hkey.
    cbn [negb]. split_and!; [done | apply mock_news_length | apply mock_news_classified].
  - intros Hdev Hkey. unfold NewsAPI.fetch_cybersecurity_news. rewrite Hdev, Hkey.
    cbn [negb]. rewrite newsapi_filter_eq. split_and!.
    + done.
    + etrans; [apply slice_to_sublist|].
      etrans; [apply dedup_sublist | apply sublist_filter_l].
    + apply Forall_slice_to.
      eapply Forall_sublist_of; [apply dedup_sublist | apply filter_all].
    + eapply NoDup_keys_sublist; [apply slice_to_sublist | apply dedup_NoDup].
  - apply fetch_news_length.
Qed.

(** X25.  [fetch_cybersecurity_posts] asks for a token exactly when it holds
    none that is still valid.  Without credentials, or when the request
    raises, it returns the mock posts and leaves its state as it was.  An
    answer to the request is stored with the time of the request plus the
    granted lifetime (3600 s when none is given) less 60 s; the token then is
    valid strictly before that time, provided it is not empty.  The listed
    posts are related, of pairwise distinct normalised titles, and no more
    than a non-negative bound. *)
Theorem reddit_token_lifecycle (env : RedditAPI.Env) (self : RedditAPI.RedditAPITool)
    (max_items : Z) :
  let r := RedditAPI.fetch_cybersecurity_posts env self max_items in
  let credentials :=
    NewsAPI.truthy (RedditAPI.client_id self)
    && NewsAPI.truthy (RedditAPI.client_secret self) in
  let mock := RedditAPI._get_mock_posts (RedditAPI.now_mock env) max_items in
  (RedditAPI._is_token_valid (RedditAPI.now_check env) self = true →
   r = (RedditAPI.fetch_listed env max_items, self))
  ∧ (RedditAPI._is_token_valid (RedditAPI.now_check env) self = false →
     credentials = false → r = (mock, self))
  ∧ (RedditAPI._is_token_valid (RedditAPI.now_check env) self = false →
     RedditAPI.auth env = RedditAPI.AuthRaised → r = (mock, self))
  ∧ (RedditAPI._is_token_valid (RedditAPI.now_check env) self = false →
     credentials = true →
     ∀ token expires_in,
       RedditAPI.auth env = RedditAPI.AuthJson token expires_in →
       let expires :=
         RedditAPI.seconds_after (RedditAPI.now_auth env)
           (default 3600%Z expires_in - 60) in
       snd r = {| RedditAPI.client_id := RedditAPI.client_id self;
                  RedditAPI.client_secret := RedditAPI.client_secret self;
                  RedditAPI.access_token := token;
                  RedditAPI.token_expires := Some expires |}
       ∧ fst r = (if NewsAPI.truthy token then RedditAPI.fetch_listed env max_items
                  else mock)
       ∧ (∀ later,
            RedditAPI._is_token_valid later (snd r)
            = NewsAPI.truthy token
              && (wall_clock later
                  <? wall_clock (RedditAPI.now_auth env)
                     + (default 3600 expires_in - 60) * 1000000)%Z))
  ∧ (Forall (λ x, RedditAPI.related x = true) (RedditAPI.fetch_listed env max_items)
     ∧ NoDup (title_key <$> RedditAPI.fetch_listed env max_items))
  ∧ ((0 ≤ max_items)%Z → length (fst r) ≤ Z.to_nat max_items).
Proof.
  cbn zeta. split_and!.
  - intros Hvalid. unfold RedditAPI.fetch_cybersecurity_posts. by rewrite Hvalid.
  - intros Hvalid Hcred. unfold RedditAPI.fetch_cybersecurity_posts.
    rewrite Hvalid. unfold RedditAPI._get_access_token.
    rewrite <- negb_andb, Hcred. done.
  - intros Hvalid Hauth. unfold RedditAPI.fetch_cybersecurity_posts.
    rewrite Hvalid. unfold RedditAPI._get_access_token. rewrite Hauth.
    by destruct (negb (NewsAPI.truthy (RedditAPI.client_id self))
                 || negb (NewsAPI.truthy (RedditAPI.client_secret self))).
  - intros Hvalid Hcred token expires_in Hauth.
    unfold RedditAPI.fetch_cybersecurity_posts. rewrite Hvalid.
    unfold RedditAPI._get_access_token. rewrite <- negb_andb, Hcred, Hauth.
    cbn [negb]. destruct (NewsAPI.truthy token) eqn:Htoken; cbn [fst snd];
      (split_and!; [done | done |]); intros later;
      unfold RedditAPI._is_token_valid; cbn; by rewrite Htoken.
  - apply fetch_listed_spec.
  - apply fetch_listed_spec.
  - apply fetch_posts_length.
Qed.

Lemma reddit_token_lifecycle_witness :
  let r := RedditAPI.fetch_cybersecurity_posts Samples.granting_posts
             Samples.with_credentials 10 in
  RedditAPI.access_token (snd r) = Some "token"
  ∧ RedditAPI._is_token_valid
      {| wall_clock := 3539999999; tzinfo := None |} (snd r) = true
  ∧ RedditAPI._is_token_valid
      {| wall_clock := 3540000000; tzinfo := None |} (snd r) = false.
Proof.
  cbn zeta.
  destruct (proj1 (proj2 (proj2 (proj2
              (reddit_token_lifecycle Samples.granting_posts
                 Samples.with_credentials 10))))
              eq_refl eq_refl (Some "token") (Some 3600%Z) eq_refl)
    as (Hstate & _ & Hvalid).
  rewrite !Hvalid, Hstate. split_and!; reflexivity.
Defined.

(** X26.  Over the three connectors [collect_news] never takes its
    [except] branch: it returns the first item of each normalised title among
    the News API items, the scraped items and the Reddit posts, in that
    order and each asked for a third of the bound, cut to the bound.  A
    non-negative bound is respected, and a bound below six leaves the
    scraper with a bound of at most one, for which it returns nothing. *)
Theorem collect_news_over_connectors {St : Type} (tools : Tools St)
    (news : NewsAPI.Env) (web : WebScraper.Env) (posts : RedditAPI.Env)
    (self : RedditAPI.RedditAPITool) (max_items : Z) :
  fetch_cybersecurity_news tools
    = (λ n, ret (NewsAPI.fetch_cybersecurity_news news n)) →
  scrape_cyber_sites tools = (λ n, ret (WebScraper.scrape_cyber_sites web n)) →
  fetch_cybersecurity_posts tools
    = (λ n, ret (fst (RedditAPI.fetch_cybersecurity_posts posts self n))) →
  let all_news :=
    NewsAPI.fetch_cybersecurity_news news (max_items / 3)
    ++ WebScraper.scrape_cyber_sites web (max_items / 3)
    ++ fst (RedditAPI.fetch_cybersecurity_posts posts self (max_items / 3)) in
  collect_news tools max_items = slice_to max_items (_deduplicate_news all_news)
  ∧ NoDup (title_key <$> collect_news tools max_items)
  ∧ ((0 ≤ max_items)%Z →
     length all_news ≤ 3 * Z.to_nat (max_items / 3)
     ∧ length (collect_news tools max_items) ≤ Z.to_nat max_items)
  ∧ ((0 ≤ max_items < 6)%Z → WebScraper.scrape_cyber_sites web (max_items / 3) = []).
Proof.
  intros Hnews Hweb Hposts. cbn zeta.
  assert (fetch_all tools max_items
          = inr (NewsAPI.fetch_cybersecurity_news news (max_items / 3)
                 ++ WebScraper.scrape_cyber_sites web (max_items / 3)
                 ++ fst (RedditAPI.fetch_cybersecurity_posts posts self
                           (max_items / 3)))) as Hall.
  { unfold fetch_all. by rewrite Hnews, Hweb, Hposts. }
  rewrite (collect_news_fetched tools max_items _ Hall). split_and!.
  - done.
  - eapply NoDup_keys_sublist; [apply slice_to_sublist | apply dedup_NoDup].
  - intros Hmax.
    assert (0 ≤ max_items / 3)%Z as Hthird by (Z.div_mod_to_equations; lia).
    split; [|by apply slice_to_length].
    rewrite !length_app.
    pose proof (fetch_news_length news (max_items / 3) Hthird).
    pose proof (fetch_posts_length posts self (max_items / 3) Hthird).
    assert (length (WebScraper.scrape_cyber_sites web (max_items / 3))
            ≤ Z.to_nat (max_items / 3)) as Hscraped.
    { unfold WebScraper.scrape_cyber_sites. by apply slice_to_length. }
    lia.
  - intros Hsmall.
    assert (max_items / 3 = 0 ∨ max_items / 3 = 1)%Z as [-> | ->]
      by (Z.div_mod_to_equations; lia); done.
Qed.

Lemma collect_news_over_connectors_witness :
  collect_news Samples.offline_tools 9
  = slice_to 9
      (_deduplicate_news
         (NewsAPI.fetch_cybersecurity_news Samples.offline_news (9 / 3)
          ++ WebScraper.scrape_cyber_sites Samples.offline_web (9 / 3)
          ++ fst (RedditAPI.fetch_cybersecurity_posts Samples.offline_posts
                    Samples.no_credentials (9 / 3)))).
Proof.
  apply (collect_news_over_connectors Samples.offline_tools Samples.offline_news
           Samples.offline_web Samples.offline_posts Samples.no_credentials 9);
    reflexivity.
Defined.

(* ===================================================================== *)
(** * The pages and the daily job *)
(* ===================================================================== *)

Section Pages.
Import ReportGenerator App AppPages.

Implicit Types (cache : NewsCache) (query : string) (items : list NewsItem).

Lemma search_some cache query data :
  cache_data cache = Some data → query ≠ EmptyString →
  search cache query = search_news query (news_items data).
Proof. intros Hdata Hquery. unfold search. rewrite Hdata. by destruct query. Qed.

Lemma api_search_some cache query data :
  cache_data cache = Some data → query ≠ EmptyString →
  api_search cache query
  = (200, Some (search_news query (news_items data),
                length (search_news query (news_items data)))).
Proof.
  intros Hdata Hquery. unfold api_search. rewrite Hdata. by destruct query.
Qed.

Lemma refresh_known (world : nat → CallEnv) (tools : Tools Session) stamp_now st cache :
  (∀ n, Summarizer.flask_env_production (world n) = true) →
  summarizer tools = session_analyzer world →
  ∃ data,
    cache_data (fst (api_refresh tools stamp_now st cache)) = Some data
    ∧ data = fst (run_full_pipeline tools st 50)
    ∧ Forall known_severity (news_items data).
Proof.
  intros Hproduction Hsummarizer. unfold api_refresh.
  pose proof (run_full_pipeline_fields tools st 50) as (Hitems & _).
  destruct (run_full_pipeline tools st 50) as [result st'] eqn:Hrun.
  exists result. cbn [fst cache_data] in *. split_and!; [done | done |].
  rewrite Hitems. unfold analyze_and_categorize. rewrite Hsummarizer.
  by apply batch_rules_known.
Qed.

Lemma all_medium_counts items :
  Forall (λ x, severity x = "Medium") items →
  length (filter (λ x, severity x = "High") items) = 0
  ∧ length (filter (λ x, severity x = "Medium") items) = length items.
Proof.
  intros Hall. split; [|by apply length_filter_all].
  induction Hall as [|x items Hx _ IH]; [done|].
  rewrite filter_cons_False by (by rewrite Hx). done.
Qed.

Lemma all_medium_known items :
  Forall (λ x, severity x = "Medium") items → Forall known_severity items.
Proof.
  intros Hall. eapply Forall_impl; [exact Hall|].
  intros x Hx. unfold known_severity. rewrite Hx. apply Medium_level.
Qed.

Lemma subject_all_medium tpl items :
  Forall (λ x, severity x = "Medium") items →
  subject_of tpl items (_get_severity_statistics items)
  = inr (match items with
         | [] => icon_digest tpl +:+ " Daily Cybersecurity Digest - "
                   +:+ pretty 0 +:+ " Updates"
         | _ => icon_medium tpl +:+ " " +:+ pretty (length items)
                  +:+ " Medium-Severity Security Updates"
         end).
Proof.
  intros Hall. destruct (all_medium_counts items Hall) as [Hhigh Hmedium].
  unfold subject_of.
  rewrite (statistics_getitem items "High" High_level), Hhigh. cbn [bind].
  change (0 <? 0) with false. cbn iota.
  rewrite (statistics_getitem items "Medium" Medium_level), Hmedium. cbn [bind].
  by destruct items.
Qed.

Lemma collect_news_all {St} (tools : Tools St) (P : NewsItem → Prop) max_items :
  (∀ n fetched, fetch_cybersecurity_news tools n = inr fetched → Forall P fetched) →
  (∀ n fetched, scrape_cyber_sites tools n = inr fetched → Forall P fetched) →
  (∀ n fetched, fetch_cybersecurity_posts tools n = inr fetched → Forall P fetched) →
  Forall P (collect_news tools max_items).
Proof.
  intros Hnews Hweb Hposts. unfold collect_news, fetch_all.
  destruct (fetch_cybersecurity_news tools (max_items / 3)) as [|a] eqn:Ha;
    cbn [bind]; [constructor|].
  destruct (scrape_cyber_sites tools (max_items / 3)) as [|b] eqn:Hb;
    cbn [bind]; [constructor|].
  destruct (fetch_cybersecurity_posts tools (max_items / 3)) as [|c] eqn:Hc;
    cbn [bind ret]; [constructor|].
  apply Forall_slice_to. eapply Forall_sublist_of; [apply dedup_sublist|].
  rewrite !Forall_app. split_and!; eauto.
Qed.

End Pages.

(** X27.  The search page shows no result for an empty query or an empty
    cache, although [search_news] itself matches every item with the empty
    query; the search API answers 400 for an empty query, also when the cache
    is empty, and 404 for an empty cache otherwise.  With a query and a
    cache, page and API return the same items, those of the cached run that
    match, in their order, and the API's count is their number. *)
Theorem search_handlers (cache : App.NewsCache) (query : string) :
  AppPages.search cache EmptyString = []
  ∧ AppPages.api_search cache EmptyString = (400, None)
  ∧ (∀ items, search_news EmptyString items = items)
  ∧ (App.cache_data cache = None →
     AppPages.search cache query = []
     ∧ (query ≠ EmptyString → AppPages.api_search cache query = (404, None)))
  ∧ (∀ data,
       App.cache_data cache = Some data → query ≠ EmptyString →
       AppPages.search cache query
       = filter (λ item, query_matches (lower query) item = true) (news_items data)
       ∧ AppPages.api_search cache query
         = (200, Some (AppPages.search cache query,
                       length (AppPages.search cache query)))
       ∧ sublist (AppPages.search cache query) (news_items data)).
Proof.
  split_and!.
  - done.
  - done.
  - intros items. rewrite search_news_filter. apply filter_all_true.
    intros item. unfold query_matches. by rewrite contains_empty.
  - intros Hnone. unfold AppPages.search, AppPages.api_search. rewrite Hnone.
    split; by destruct query.
  - intros data Hdata Hquery.
    rewrite (search_some cache query data Hdata Hquery),
      (api_search_some cache query data Hdata Hquery), search_news_filter.
    split_and!; [done | done | apply sublist_filter_l].
Qed.

(** X28.  The e-mail export redirects with a message when the cache is empty
    or when a cached item has a severity other than High, Medium or Low, and
    renders the e-mail summary of the cached items otherwise.  After a
    refresh by an agent that classifies by rules, as it does in production,
    the export always renders. *)
Theorem export_email_renders (world : nat → CallEnv) (tools : Tools Session)
    (tpl : ReportGenerator.EmailTemplate) (clock : ReportGenerator.Clock)
    (stamp_now : datetime) (st : Session) (cache : App.NewsCache) :
  (∀ n, Summarizer.flask_env_production (world n) = true) →
  summarizer tools = session_analyzer world →
  (∃ email,
     AppPages.export_email tpl clock (fst (AppPages.api_refresh tools stamp_now st cache))
     = AppPages.Rendered email
     ∧ ReportGenerator.generate_email_summary tpl clock
         (news_items (fst (run_full_pipeline tools st 50))) = inr email)
  ∧ (App.cache_data cache = None →
     AppPages.export_email tpl clock cache
     = AppPages.Redirect "No news data available for email summary.")
  ∧ (∀ data,
       App.cache_data cache = Some data →
       (Forall known_severity (news_items data)
        ↔ ∃ email, AppPages.export_email tpl clock cache = AppPages.Rendered email)
       ∧ (¬ Forall known_severity (news_items data)
          ↔ AppPages.export_email tpl clock cache
            = AppPages.Redirect "Error generating email summary.")).
Proof.
  intros Hproduction Hsummarizer. split_and!.
  - destruct (refresh_known world tools stamp_now st cache Hproduction Hsummarizer)
      as (data & Hdata & -> & Hknown).
    destruct (email_summary_known tpl clock _ Hknown) as [email Hemail].
    exists email. split; [|done]. unfold AppPages.export_email.
    by rewrite Hdata, Hemail.
  - intros Hnone. unfold AppPages.export_email. by rewrite Hnone.
  - intros data Hdata. unfold AppPages.export_email. rewrite Hdata.
    destruct (decide (Forall known_severity (news_items data))) as [Hknown|Hunknown].
    + destruct (email_summary_known tpl clock _ Hknown) as [email ->].
      split; split; try done; by eexists.
    + destruct (email_summary_unknown tpl clock _ Hunknown) as [exc ->].
      split; split; try done. by intros [email ?].
Qed.

Lemma export_email_renders_witness :
  ∃ email,
    AppPages.export_email Samples.plain_template Samples.nine_o_clock
      (fst (AppPages.api_refresh Samples.production_tools Samples.epoch
              Samples.fresh_session App.initial_cache))
    = AppPages.Rendered email.
Proof.
  destruct (proj1 (export_email_renders (λ _, Samples.production)
                     Samples.production_tools Samples.plain_template
                     Samples.nine_o_clock Samples.epoch Samples.fresh_session
                     App.initial_cache (λ _, eq_refl) eq_refl))
    as (email & Hemail & _).
  by exists email.
Defined.

Example export_email_sample :
  AppPages.export_email Samples.plain_template Samples.nine_o_clock
    Samples.critical_cache
  = AppPages.Redirect "Error generating email summary.".
Proof. by vm_compute. Qed.

(** X29.  The daily job sends the collected items as the connectors made
    them, without classifying them.  When the connectors file their items as
    Medium, as all three do outside their mock data, the job has at most 20
    items, all Medium; their e-mail summary is always built, its subject is
    the medium-severity line with the number of items (the digest line for no
    items), and the webhook payload is orange. *)
Theorem daily_job_unclassified {St : Type} (tools : Tools St)
    (tpl : ReportGenerator.EmailTemplate) (clock : ReportGenerator.Clock)
    (text : Delivery.WebhookText) (channels : Delivery.Channels)
    (net : Delivery.Network) (subscribers : gset string) :
  (∀ n fetched, fetch_cybersecurity_news tools n = inr fetched →
     Forall (λ x, severity x = "Medium") fetched) →
  (∀ n fetched, scrape_cyber_sites tools n = inr fetched →
     Forall (λ x, severity x = "Medium") fetched) →
  (∀ n fetched, fetch_cybersecurity_posts tools n = inr fetched →
     Forall (λ x, severity x = "Medium") fetched) →
  let items := collect_news tools 20 in
  AppPages._daily_notification_job tools tpl clock text channels net subscribers
  = Delivery.send_daily_notification tpl clock text channels net subscribers items
  ∧ length items ≤ 20
  ∧ Forall (λ x, severity x = "Medium") items
  ∧ (∃ email,
       ReportGenerator.generate_email_summary tpl clock items = inr email
       ∧ ReportGenerator.subject email
         = match items with
           | [] => ReportGenerator.icon_digest tpl +:+ " Daily Cybersecurity Digest - "
                     +:+ pretty 0 +:+ " Updates"
           | _ => ReportGenerator.icon_medium tpl +:+ " " +:+ pretty (length items)
                    +:+ " Medium-Severity Security Updates"
           end)
  ∧ (∃ payload,
       Delivery.webhook_payload text items = inr payload
       ∧ Delivery.color payload = 16753920%Z).
Proof.
  intros Hnews Hweb Hposts. cbn zeta.
  pose proof (collect_news_all tools _ 20 Hnews Hweb Hposts) as Hmedium.
  split_and!.
  - done.
  - pose proof (collect_news_length tools 20 ltac:(lia)). lia.
  - done.
  - destruct (email_summary_known tpl clock _ (all_medium_known _ Hmedium))
      as [email Hemail].
    exists email. split; [done|].
    unfold ReportGenerator.generate_email_summary in Hemail.
    rewrite (subject_all_medium tpl _ Hmedium) in Hemail. cbn [bind] in Hemail.
    destruct (ReportGenerator._format_email_html tpl clock (collect_news tools 20)
                (ReportGenerator._get_severity_statistics (collect_news tools 20)))
      as [exc|html]; cbn [bind ret] in Hemail; [done|].
    by injection Hemail as <-.
  - destruct (webhook_payload_returns text (collect_news tools 20))
      as (payload & Hpayload & Hcolor & _).
    exists payload. split; [done|]. rewrite Hcolor.
    by rewrite (proj1 (all_medium_counts _ Hmedium)).
Qed.

Lemma daily_job_unclassified_witness :
  length (collect_news Samples.answering_tools 20) ≤ 20
  ∧ Forall (λ x, severity x = "Medium") (collect_news Samples.answering_tools 20).
Proof.
  destruct (daily_job_unclassified Samples.answering_tools Samples.plain_template
              Samples.nine_o_clock Samples.plain_webhook_text Samples.all_channels
              Samples.working_network ∅)
    as (_ & Hlength & Hmedium & _).
  - intros n fetched [= <-]. by repeat constructor.
  - intros n fetched [= <-]. by repeat constructor.
  - intros n fetched [= <-]. by repeat constructor.
  - by split.
Defined.

(** X30.  The category icon of the dashboard follows the filing of
    [get_categorized_news]: an item gets the icon of the label under which it
    is filed, the General icon for every category that is no label.  The
    severity badge is gray exactly for the items that no counter of
    [get_severity_stats] counts, and the three levels have three different
    badges. *)
Theorem template_filters_follow_grouping (item : NewsItem) :
  AppPages.category_icon_filter (category item)
  = AppPages.category_icon_filter (bucket_of item)
  ∧ (category item ∉ category_labels →
     AppPages.category_icon_filter (category item)
     = AppPages.category_icon_filter "General")
  ∧ (AppPages.severity_color_filter (severity item) = "text-gray-600 bg-gray-100"
     ↔ ¬ known_severity item)
  ∧ NoDup (AppPages.severity_color_filter <$> severity_levels).
Proof.
  split_and!.
  - unfold bucket_of. case_decide as Hlabel; [done|].
    unfold category_labels in Hlabel. rewrite !not_elem_of_cons in Hlabel.
    destruct Hlabel as (?&?&?&?&?&_).
    unfold AppPages.category_icon_filter at 1, AppPages.icons.
    by rewrite !lookup_insert_ne, lookup_empty.
  - intros Hlabel. unfold category_labels in Hlabel.
    rewrite !not_elem_of_cons in Hlabel. destruct Hlabel as (?&?&?&?&?&_).
    unfold AppPages.category_icon_filter at 1, AppPages.icons.
    by rewrite !lookup_insert_ne, lookup_empty.
  - unfold known_severity, severity_levels. split.
    + intros Hgray Hknown. rewrite !elem_of_cons in Hknown.
      destruct Hknown as [Hs|[Hs|[Hs|Hs]]]; [| | | by apply elem_of_nil in Hs];
        rewrite Hs in Hgray; by vm_compute in Hgray.
    + rewrite !not_elem_of_cons. intros (?&?&?&_).
      unfold AppPages.severity_color_filter, AppPages.colors.
      by rewrite !lookup_insert_ne, lookup_empty.
  - apply (bool_decide_unpack _). by vm_compute.
Qed.
